(** * Conversational-AI voice page: VAD, recording, playback and session lifecycle

    A shallow embedding of the [ConversationalAI] React component (the page
    whose source opens with the [ConversationSession] interface): its helper
    [base64ToBlob], the playback functions [stopAIAudio] / [playAIAudio], the
    recording functions [startRecording] / [stopRecording], the voice-activity
    loop [detectVoice], and the session functions [startConversation] /
    [endConversation] / [cleanupAudio].

    The component is event driven.  Every callback of the source (button
    click, animation frame, promise continuation, media event) is one
    constructor of [Event]; [step] runs the corresponding JavaScript handler
    to completion on an explicit [State] that holds the [useState] cells, the
    [useRef] cells and the browser objects the handlers create.  The
    levels are rationals and the clock is an integer number of
    milliseconds.  The markup and the login redirect are left out.

    The later parts add the clean-up on unmount and, from the transcript
    view of the same source file, [formatTime], [toSeconds] and
    [getSpeakerColor]. *)

From Stdlib Require Import ZArith QArith Ascii String List Bool Lia.
From stdpp Require Import base option list.
Import ListNotations.
Local Open Scope string_scope.
Local Open Scope Z_scope.
Local Open Scope list_scope.

(* ===================================================================== *)
(** ** JavaScript values used by the page *)
(* ===================================================================== *)

Module JS.

(** A binary string: the UTF-16 code units of a JavaScript string. *)
Definition CodeUnits := list Z.

(** [!x] on a string-or-null: [null], [undefined] and [''] are falsy. *)
Definition truthy (x : option string) : bool :=
  match x with
  | Some EmptyString => false
  | Some _ => true
  | None => false
  end.

(** What an awaited request settles to: the promise rejects with an
    [Error], or the response has [ok] false, or its body parses to [data]. *)
Inductive Outcome (A : Type) : Type :=
| Rejected (message : string)
| NotOk
| Ok (data : A).
Arguments Rejected {A} message.
Arguments NotOk {A}.
Arguments Ok {A} data.

(** [s.slice(a, b)] for [0 <= a <= b]. *)
Definition slice {A} (s : list A) (a b : nat) : list A :=
  firstn (b - a) (skipn a s).

(** [ToUint8]: storing a number in a [Uint8Array] keeps it modulo 256. *)
Definition ToUint8 (n : Z) : Z := n mod 256.

(** Completion of a statement block: normal, or an exception was thrown.
    Both carry the state reached. *)
Inductive Completion (S : Type) : Type :=
| Normal (s : S)
| Throw (s : S).
Arguments Normal {S} s.
Arguments Throw {S} s.

Definition state_of {S} (c : Completion S) : S :=
  match c with Normal s | Throw s => s end.

(** [try { body } catch (e) {}] *)
Definition try_swallow {S} (c : Completion S) : Completion S :=
  Normal (state_of c).

Definition truthy_value (x : option string) : option string :=
  if truthy x then x else None.

(** Statement sequencing: a thrown exception skips what follows. *)
Definition andThen {S} (c : Completion S) (k : S -> Completion S) :
    Completion S :=
  match c with
  | Normal s => k s
  | Throw s => Throw s
  end.

End JS.

(* ===================================================================== *)
(** ** [atob]: the platform's forgiving base64 decoder *)
(* ===================================================================== *)

Module Base64.

Definition is_ascii_whitespace (c : ascii) : bool :=
  let n := Z.of_N (N_of_ascii c) in
  (n =? 9) || (n =? 10) || (n =? 12) || (n =? 13) || (n =? 32).

(** Value of a character of the base64 alphabet. *)
Definition sextet (c : ascii) : option Z :=
  let n := Z.of_N (N_of_ascii c) in
  if (65 <=? n) && (n <=? 90) then Some (n - 65)
  else if (97 <=? n) && (n <=? 122) then Some (n - 97 + 26)
  else if (48 <=? n) && (n <=? 57) then Some (n - 48 + 52)
  else if n =? 43 then Some 62
  else if n =? 47 then Some 63
  else None.

Definition is_pad (c : ascii) : bool := Z.of_N (N_of_ascii c) =? 61.

(** Remove one or two trailing [=] when the length is a multiple of four. *)
Definition strip_padding (l : list ascii) : list ascii :=
  if (length l mod 4 =? 0)%nat then
    match rev l with
    | p1 :: p2 :: r =>
        if is_pad p1 then (if is_pad p2 then rev r else rev (p2 :: r)) else l
    | [p1] => if is_pad p1 then [] else l
    | [] => l
    end
  else l.

Fixpoint sextets (l : list ascii) : option (list Z) :=
  match l with
  | [] => Some []
  | c :: r =>
      match sextet c, sextets r with
      | Some v, Some vs => Some (v :: vs)
      | _, _ => None
      end
  end.

(** Groups of four sextets give three bytes; a tail of two gives one byte
    and a tail of three gives two (the spare low bits are dropped). *)
Fixpoint octets (vs : list Z) : list Z :=
  match vs with
  | a :: b :: c :: d :: r =>
      let n := Z.lor (Z.lor (Z.shiftl a 18) (Z.shiftl b 12))
                     (Z.lor (Z.shiftl c 6) d) in
      Z.land (Z.shiftr n 16) 255 :: Z.land (Z.shiftr n 8) 255
        :: Z.land n 255 :: octets r
  | [a; b; c] =>
      let n := Z.lor (Z.lor (Z.shiftl a 10) (Z.shiftl b 4)) (Z.shiftr c 2) in
      [Z.land (Z.shiftr n 8) 255; Z.land n 255]
  | [a; b] =>
      [Z.land (Z.lor (Z.shiftl a 2) (Z.shiftr b 4)) 255]
  | _ => []
  end.

(** [atob(data)]: [None] stands for the [InvalidCharacterError]. *)
Definition atob (data : string) : option JS.CodeUnits :=
  let l := strip_padding
             (List.filter (fun c => negb (is_ascii_whitespace c))
                     (list_ascii_of_string data)) in
  if (length l mod 4 =? 1)%nat then None
  else option_map octets (sextets l).

End Base64.

(* ===================================================================== *)
(** ** [base64ToBlob] *)
(* ===================================================================== *)

Record Blob := mkBlob { blobBytes : list Z; blobType : string }.

(** [new Blob(byteArrays, { type })]: the parts are laid out one after the
    other. *)
Definition newBlob (byteArrays : list (list Z)) (type : string) : Blob :=
  mkBlob (concat byteArrays) type.

(** The [for (offset = 0; offset < byteCharacters.length; offset += 512)]
    loop.  [fuel] bounds the number of iterations; [None] is fuel exhausted. *)
Fixpoint base64ToBlob_loop (fuel : nat) (byteCharacters : JS.CodeUnits)
    (offset : nat) (byteArrays : list (list Z)) : option (list (list Z)) :=
  if (offset <? length byteCharacters)%nat then
    match fuel with
    | O => None
    | S fuel' =>
        let slice := JS.slice byteCharacters offset (offset + 512) in
        (* byteNumbers[i] = slice.charCodeAt(i) *)
        let byteNumbers := slice in
        let byteArray := map JS.ToUint8 byteNumbers in
        base64ToBlob_loop fuel' byteCharacters (offset + 512)
                          (byteArrays ++ [byteArray])
    end
  else Some byteArrays.

(** [None] when [atob] throws (or, never, when the loop runs out of fuel). *)
Definition base64ToBlob (base64 mimeType : string) : option Blob :=
  match Base64.atob base64 with
  | None => None
  | Some byteCharacters =>
      match base64ToBlob_loop (length byteCharacters) byteCharacters 0 [] with
      | None => None
      | Some byteArrays => Some (newBlob byteArrays mimeType)
      end
  end.


Notation "c >>- k" := (JS.andThen c k) (at level 61, left associativity).
Notation "s |> f" := (f s) (at level 59, left associativity, only parsing).

(* ===================================================================== *)
(** ** Data of the component *)
(* ===================================================================== *)

(** Heap objects are named by their index in the list that holds them. *)
Abbreviation AudioId := nat (only parsing).
Abbreviation RecorderId := nat (only parsing).
Abbreviation StreamId := nat (only parsing).
Abbreviation LoopId := nat (only parsing).
Abbreviation TaskId := nat (only parsing).

Record ConversationSession := mkSession {
  sessionId : option string;
  isActive : bool;
  currentAudio : option AudioId }.

Record LearningProgress := mkProgress {
  goalsMet : Z;
  totalGoals : Z;
  currentGoals : list string }.

Module Response.
Record InteractionResponse := mk {
  success : bool;
  aiResponse : string;
  audioResponse : option string;
  learningProgress : option LearningProgress }.
End Response.

Inductive Speaker := user | ai.
Inductive Persona := adult | kid.

(** The [useState] cells. *)
Record Hooks := mkHooks {
  session : ConversationSession;
  conversationHistory : list (Speaker * string);
  learningProgress : option LearningProgress;
  error : option string;
  isProcessing : bool;
  audioLevel : Q;
  isSpeaking : bool;
  isUserSpeaking : bool;
  persona : Persona }.

(** The [useRef] cells. *)
Record Refs := mkRefs {
  audioContextRef : option StreamId;
  analyserRef : option StreamId;
  mediaStreamRef : option StreamId;
  mediaRecorderRef : option RecorderId;
  audioChunksRef : list Blob;
  rafRef : option LoopId;
  isSpeakingRef : bool;
  speechStartTimeRef : option Z;
  sessionActiveRef : bool;
  sessionIdRef : option string;
  audioUnlockedRef : bool;
  currentAudioRef : option AudioId }.

(** An [HTMLAudioElement] made by [new Audio(audioUrl)].  [playPending]: the
    promise returned by [play()] is not settled yet.  [onended]: the handler
    is attached.  [faulty]: the element's DOM operations throw. *)
Record HTMLAudioElement := mkAudio {
  src : Blob;
  paused : bool;
  currentTime : Z;
  onended : bool;
  playPending : bool;
  faulty : bool }.

Inductive RecordingState := inactive | recording.

(** A [MediaRecorder].  [stopQueued]: [stop()] was called and the
    [dataavailable] and [stop] events are still to be delivered.
    [onstopSession]: the [session.currentAudio] seen by the closures that
    were attached as its handlers. *)
Record MediaRecorder := mkRecorder {
  rstate : RecordingState;
  stopQueued : bool;
  rstream : StreamId;
  onstopSession : option AudioId }.

Record MediaStream := mkStream { tracksLive : bool }.

(** The local variables of one [startVADLoop] activation.  [scheduled]: a
    [requestAnimationFrame] callback of this loop is waiting. *)
Record VadLoop := mkLoop {
  lastSpeechTime : Z;
  lastSilenceTime : Z;
  scheduled : bool;
  loopSession : option AudioId }.

(** Suspended [async] functions, by the promise they await.  The argument is
    the [session.currentAudio] of the render whose closures are running. *)
Inductive Task :=
| AwaitStartFetch (cap : option AudioId)
| AwaitUserMedia (cap : option AudioId)
| AwaitInteractFetch (cap : option AudioId)
| AwaitCompleteFetch
| AwaitUnlockPlay
| Settled.

(** What the component does to the outside world, oldest first. *)
Inductive Effect :=
| ConsoleLog (msg : string)
| FetchStart (p : Persona)
| FetchInteract (sid : string) (audioChunk : Blob)
| FetchAiSpeaking (sid message : string) (estimatedDurationMs : Z)
| FetchAiFinished (sid : string)
| FetchComplete (sid : string)
| GetUserMedia
| PlaySilentAudio
| AudioPlay (a : AudioId)
| AudioPause (a : AudioId)
| RevokeObjectURL (a : AudioId)
| RecorderStart (r : RecorderId)
| RecorderStop (r : RecorderId)
| TrackStop (st : StreamId)
| AudioContextClose (c : StreamId)
| CancelAnimationFrame (l : LoopId).

Record Browser := mkBrowser {
  audios : list HTMLAudioElement;
  recorders : list MediaRecorder;
  streams : list MediaStream;
  loops : list VadLoop;
  tasks : list Task;
  effects : list Effect }.

Record State := mkState {
  hooks : Hooks;
  refs : Refs;
  browser : Browser }.

(* ===================================================================== *)
(** ** Assignments to the cells *)
(* ===================================================================== *)

Definition with_hooks (f : Hooks -> Hooks) (s : State) : State :=
  mkState (f (hooks s)) (refs s) (browser s).
Definition with_refs (f : Refs -> Refs) (s : State) : State :=
  mkState (hooks s) (f (refs s)) (browser s).
Definition with_browser (f : Browser -> Browser) (s : State) : State :=
  mkState (hooks s) (refs s) (f (browser s)).

(** [setSession(prev => f(prev))] and the other state setters. *)
Definition setSession (f : ConversationSession -> ConversationSession) :=
  with_hooks (fun h => mkHooks (f (session h)) (conversationHistory h)
    (learningProgress h) (error h) (isProcessing h) (audioLevel h)
    (isSpeaking h) (isUserSpeaking h) (persona h)).
Definition setConversationHistory
    (f : list (Speaker * string) -> list (Speaker * string)) :=
  with_hooks (fun h => mkHooks (session h) (f (conversationHistory h))
    (learningProgress h) (error h) (isProcessing h) (audioLevel h)
    (isSpeaking h) (isUserSpeaking h) (persona h)).
Definition setLearningProgress (v : option LearningProgress) :=
  with_hooks (fun h => mkHooks (session h) (conversationHistory h)
    v (error h) (isProcessing h) (audioLevel h)
    (isSpeaking h) (isUserSpeaking h) (persona h)).
Definition setError (v : option string) :=
  with_hooks (fun h => mkHooks (session h) (conversationHistory h)
    (learningProgress h) v (isProcessing h) (audioLevel h)
    (isSpeaking h) (isUserSpeaking h) (persona h)).
Definition setIsProcessing (v : bool) :=
  with_hooks (fun h => mkHooks (session h) (conversationHistory h)
    (learningProgress h) (error h) v (audioLevel h)
    (isSpeaking h) (isUserSpeaking h) (persona h)).
Definition setAudioLevel (v : Q) :=
  with_hooks (fun h => mkHooks (session h) (conversationHistory h)
    (learningProgress h) (error h) (isProcessing h) v
    (isSpeaking h) (isUserSpeaking h) (persona h)).
Definition setIsSpeaking (v : bool) :=
  with_hooks (fun h => mkHooks (session h) (conversationHistory h)
    (learningProgress h) (error h) (isProcessing h) (audioLevel h)
    v (isUserSpeaking h) (persona h)).
Definition setIsUserSpeaking (v : bool) :=
  with_hooks (fun h => mkHooks (session h) (conversationHistory h)
    (learningProgress h) (error h) (isProcessing h) (audioLevel h)
    (isSpeaking h) v (persona h)).

(** [xRef.current = v]. *)
Definition set_audioContextRef (v : option StreamId) :=
  with_refs (fun r => mkRefs v (analyserRef r) (mediaStreamRef r)
    (mediaRecorderRef r) (audioChunksRef r) (rafRef r) (isSpeakingRef r)
    (speechStartTimeRef r) (sessionActiveRef r) (sessionIdRef r)
    (audioUnlockedRef r) (currentAudioRef r)).
Definition set_analyserRef (v : option StreamId) :=
  with_refs (fun r => mkRefs (audioContextRef r) v (mediaStreamRef r)
    (mediaRecorderRef r) (audioChunksRef r) (rafRef r) (isSpeakingRef r)
    (speechStartTimeRef r) (sessionActiveRef r) (sessionIdRef r)
    (audioUnlockedRef r) (currentAudioRef r)).
Definition set_mediaStreamRef (v : option StreamId) :=
  with_refs (fun r => mkRefs (audioContextRef r) (analyserRef r) v
    (mediaRecorderRef r) (audioChunksRef r) (rafRef r) (isSpeakingRef r)
    (speechStartTimeRef r) (sessionActiveRef r) (sessionIdRef r)
    (audioUnlockedRef r) (currentAudioRef r)).
Definition set_mediaRecorderRef (v : option RecorderId) :=
  with_refs (fun r => mkRefs (audioContextRef r) (analyserRef r)
    (mediaStreamRef r) v (audioChunksRef r) (rafRef r) (isSpeakingRef r)
    (speechStartTimeRef r) (sessionActiveRef r) (sessionIdRef r)
    (audioUnlockedRef r) (currentAudioRef r)).
Definition set_audioChunksRef (v : list Blob) :=
  with_refs (fun r => mkRefs (audioContextRef r) (analyserRef r)
    (mediaStreamRef r) (mediaRecorderRef r) v (rafRef r) (isSpeakingRef r)
    (speechStartTimeRef r) (sessionActiveRef r) (sessionIdRef r)
    (audioUnlockedRef r) (currentAudioRef r)).
Definition set_rafRef (v : option LoopId) :=
  with_refs (fun r => mkRefs (audioContextRef r) (analyserRef r)
    (mediaStreamRef r) (mediaRecorderRef r) (audioChunksRef r) v
    (isSpeakingRef r) (speechStartTimeRef r) (sessionActiveRef r)
    (sessionIdRef r) (audioUnlockedRef r) (currentAudioRef r)).
Definition set_isSpeakingRef (v : bool) :=
  with_refs (fun r => mkRefs (audioContextRef r) (analyserRef r)
    (mediaStreamRef r) (mediaRecorderRef r) (audioChunksRef r) (rafRef r)
    v (speechStartTimeRef r) (sessionActiveRef r) (sessionIdRef r)
    (audioUnlockedRef r) (currentAudioRef r)).
Definition set_speechStartTimeRef (v : option Z) :=
  with_refs (fun r => mkRefs (audioContextRef r) (analyserRef r)
    (mediaStreamRef r) (mediaRecorderRef r) (audioChunksRef r) (rafRef r)
    (isSpeakingRef r) v (sessionActiveRef r) (sessionIdRef r)
    (audioUnlockedRef r) (currentAudioRef r)).
Definition set_sessionActiveRef (v : bool) :=
  with_refs (fun r => mkRefs (audioContextRef r) (analyserRef r)
    (mediaStreamRef r) (mediaRecorderRef r) (audioChunksRef r) (rafRef r)
    (isSpeakingRef r) (speechStartTimeRef r) v (sessionIdRef r)
    (audioUnlockedRef r) (currentAudioRef r)).
Definition set_sessionIdRef (v : option string) :=
  with_refs (fun r => mkRefs (audioContextRef r) (analyserRef r)
    (mediaStreamRef r) (mediaRecorderRef r) (audioChunksRef r) (rafRef r)
    (isSpeakingRef r) (speechStartTimeRef r) (sessionActiveRef r) v
    (audioUnlockedRef r) (currentAudioRef r)).
Definition set_audioUnlockedRef (v : bool) :=
  with_refs (fun r => mkRefs (audioContextRef r) (analyserRef r)
    (mediaStreamRef r) (mediaRecorderRef r) (audioChunksRef r) (rafRef r)
    (isSpeakingRef r) (speechStartTimeRef r) (sessionActiveRef r)
    (sessionIdRef r) v (currentAudioRef r)).
Definition set_currentAudioRef (v : option AudioId) :=
  with_refs (fun r => mkRefs (audioContextRef r) (analyserRef r)
    (mediaStreamRef r) (mediaRecorderRef r) (audioChunksRef r) (rafRef r)
    (isSpeakingRef r) (speechStartTimeRef r) (sessionActiveRef r)
    (sessionIdRef r) (audioUnlockedRef r) v).

(** Updates of the browser objects. *)
Definition with_audios (f : list HTMLAudioElement -> list HTMLAudioElement) :=
  with_browser (fun b => mkBrowser (f (audios b)) (recorders b) (streams b)
    (loops b) (tasks b) (effects b)).
Definition with_recorders (f : list MediaRecorder -> list MediaRecorder) :=
  with_browser (fun b => mkBrowser (audios b) (f (recorders b)) (streams b)
    (loops b) (tasks b) (effects b)).
Definition with_streams (f : list MediaStream -> list MediaStream) :=
  with_browser (fun b => mkBrowser (audios b) (recorders b) (f (streams b))
    (loops b) (tasks b) (effects b)).
Definition with_loops (f : list VadLoop -> list VadLoop) :=
  with_browser (fun b => mkBrowser (audios b) (recorders b) (streams b)
    (f (loops b)) (tasks b) (effects b)).
Definition with_tasks (f : list Task -> list Task) :=
  with_browser (fun b => mkBrowser (audios b) (recorders b) (streams b)
    (loops b) (f (tasks b)) (effects b)).
Definition emit (e : Effect) :=
  with_browser (fun b => mkBrowser (audios b) (recorders b) (streams b)
    (loops b) (tasks b) (effects b ++ [e])).

Definition console_log (msg : string) : State -> State :=
  emit (ConsoleLog msg).

(** Suspend the running [async] function on a promise. *)
Definition await (t : Task) : State -> State :=
  with_tasks (fun ts => ts ++ [t]).
Definition settle (k : TaskId) : State -> State :=
  with_tasks (fun ts => <[k := Settled]> ts).

Abbreviation the_audios s := (audios (browser s)).
Abbreviation the_recorders s := (recorders (browser s)).
Abbreviation the_streams s := (streams (browser s)).
Abbreviation the_loops s := (loops (browser s)).
Abbreviation the_tasks s := (tasks (browser s)).
Abbreviation the_effects s := (effects (browser s)).

(** The state of a freshly mounted component. *)
Definition initial : State :=
  mkState
    (mkHooks (mkSession None false None) [] None None false 0%Q false false
             adult)
    (mkRefs None None None None [] None false None false None false None)
    (mkBrowser [] [] [] [] [] []).

(* ===================================================================== *)
(** ** The component's functions *)
(* ===================================================================== *)

(** Simple VAD thresholds. *)
Definition SPEECH_THRESHOLD : Q := 150 # 10000.
Definition SILENCE_THRESHOLD : Q := 70 # 10000.
Definition MIN_SPEECH_DURATION : Z := 100.
Definition SILENCE_DURATION : Z := 700.

Definition Qgtb (x y : Q) : bool :=
  match (x ?= y)%Q with Gt => true | _ => false end.
Definition Qltb (x y : Q) : bool :=
  match (x ?= y)%Q with Lt => true | _ => false end.

Definition blobSize (b : Blob) : nat := length (blobBytes b).

(** [unlockAudio] *)
Definition unlockAudio (s : State) : State :=
  if audioUnlockedRef (refs s) then s
  else s |> console_log "[Audio] Unlocking audio playback"
         |> emit PlaySilentAudio
         |> await AwaitUnlockPlay.

(** An element after [pause()], [currentTime = 0] and [onended = null]. *)
Definition rewound (el : HTMLAudioElement) : HTMLAudioElement :=
  mkAudio (src el) true 0 false (playPending el) (faulty el).

(** The body of the [try] blocks of [stopAIAudio]:
    [x.pause(); x.currentTime = 0; x.onended = null].  It throws when the
    element's DOM operations do. *)
Definition pause_and_rewind (a : AudioId) (s : State) : JS.Completion State :=
  match the_audios s !! a with
  | None => JS.Normal s
  | Some el =>
      if faulty el then JS.Throw s
      else JS.Normal
             (s |> emit (AudioPause a) |> with_audios (alter rewound a))
  end.

(** [stopAIAudio].  [closureAudio] is the [session.currentAudio] of the
    render whose closure is running. *)
Definition stopAIAudio (closureAudio : option AudioId) (s : State) :
    JS.Completion State :=
  let s := console_log "[Audio] Interrupting AI speech" s in
  (* Stop ref audio *)
  (match currentAudioRef (refs s) with
   | Some a =>
       JS.try_swallow (pause_and_rewind a s) >>-
       (fun s => JS.Normal (set_currentAudioRef None s))
   | None => JS.Normal s
   end) >>-
  (* Stop state audio (fallback) *)
  (fun s =>
     match closureAudio with
     | Some a => JS.try_swallow (pause_and_rewind a s)
     | None => JS.Normal s
     end) >>-
  (fun s =>
     JS.Normal
       (s |> setIsSpeaking false
          |> setSession (fun prev =>
               mkSession (sessionId prev) (isActive prev) None))).

(** The rejection handler of [audio.play()] in [playAIAudio]. *)
Definition play_catch (a : AudioId) (s : State) : State :=
  s |> console_log "[Audio] Failed to play audio"
    |> setError (Some
         "Failed to play audio. Please ensure audio is allowed in your browser.")
    |> setIsSpeaking false
    |> set_currentAudioRef None
    |> setSession (fun prev => mkSession (sessionId prev) (isActive prev) None)
    |> emit (RevokeObjectURL a).

(** The [audio.onended] handler installed by [playAIAudio]. *)
Definition audio_onended (a : AudioId) (s : State) : State :=
  let s := s |> console_log "[Audio] AI finished speaking"
             |> setIsSpeaking false
             |> set_currentAudioRef None in
  let s := match JS.truthy_value (sessionIdRef (refs s)) with
           | Some sid => emit (FetchAiFinished sid) s
           | None => s
           end in
  s |> setSession (fun prev => mkSession (sessionId prev) (isActive prev) None)
    |> emit (RevokeObjectURL a).

(** [playAIAudio]; it throws when [atob] rejects the payload. *)
Definition playAIAudio (closureAudio : option AudioId)
    (base64Audio textResponse : string) (s : State) : JS.Completion State :=
  let s := console_log "[Audio] Playing AI response" s in
  (* CRITICAL: Stop any existing audio before playing new one *)
  stopAIAudio closureAudio s >>-
  (fun s =>
     match base64ToBlob base64Audio "audio/mpeg" with
     | None => JS.Throw s
     | Some audioBlob =>
         let audio := length (the_audios s) in
         let s := with_audios
                    (fun l => l ++ [mkAudio audioBlob true 0 false false false])
                    s in
         (* Register AI speaking *)
         let s := match JS.truthy_value (sessionIdRef (refs s)) with
                  | Some sid =>
                      emit (FetchAiSpeaking sid textResponse
                              (Z.of_nat (String.length textResponse) * 50)) s
                  | None => s
                  end in
         let s := s |> setIsSpeaking true
                    |> set_currentAudioRef (Some audio)
                    |> setSession (fun prev =>
                         mkSession (sessionId prev) (isActive prev)
                                   (Some audio)) in
         (* audio.play() *)
         let s := s |> emit (AudioPlay audio)
                    |> with_audios (alter (fun el =>
                         mkAudio (src el) false (currentTime el) (onended el)
                                 true (faulty el)) audio) in
         (* audio.onended = ... *)
         JS.Normal
           (with_audios (alter (fun el =>
              mkAudio (src el) (paused el) (currentTime el) true
                      (playPending el) (faulty el)) audio) s)
     end).

(** [mediaRecorderRef.current?.state === 'recording'] *)
Definition recorder_is_recording (s : State) : bool :=
  match mediaRecorderRef (refs s) with
  | Some r =>
      match the_recorders s !! r with
      | Some m => match rstate m with recording => true | inactive => false end
      | None => false
      end
  | None => false
  end.

(** [mediaRecorderRef.current.stop()]: the recorder becomes inactive at once;
    its [dataavailable] and [stop] events are delivered later. *)
Definition recorder_stop (s : State) : State :=
  match mediaRecorderRef (refs s) with
  | Some r =>
      s |> emit (RecorderStop r)
        |> with_recorders (alter (fun m =>
             mkRecorder inactive true (rstream m) (onstopSession m)) r)
  | None => s
  end.

(** [startRecording] *)
Definition startRecording (closureAudio : option AudioId) (s : State) :
    JS.Completion State :=
  match mediaStreamRef (refs s) with
  | None => JS.Normal s
  | Some stream =>
      if recorder_is_recording s then JS.Normal s
      else
        let mediaRecorder := length (the_recorders s) in
        JS.Normal
          (s |> console_log "[VAD] Starting recording"
             |> set_audioChunksRef []
             |> with_recorders (fun l =>
                  l ++ [mkRecorder inactive false stream closureAudio])
             |> set_mediaRecorderRef (Some mediaRecorder)
             (* mediaRecorder.start() *)
             |> emit (RecorderStart mediaRecorder)
             |> with_recorders (alter (fun m =>
                  mkRecorder recording (stopQueued m) (rstream m)
                             (onstopSession m)) mediaRecorder)
             |> setIsUserSpeaking true)
  end.

(** [stopRecording] *)
Definition stopRecording (s : State) : State :=
  if recorder_is_recording s then
    s |> console_log "[VAD] Stopping recording"
      |> recorder_stop
      |> setIsUserSpeaking false
  else s.

(** [sendAudioToBackend], up to its [await fetch(...)]. *)
Definition sendAudioToBackend (closureAudio : option AudioId)
    (audioBlob : Blob) (s : State) : State :=
  match JS.truthy_value (sessionIdRef (refs s)) with
  | None => console_log "[Audio] No sessionId available, cannot send audio" s
  | Some sid =>
      s |> setIsProcessing true
        |> setError None
        |> console_log "[Audio] Sending audio to backend"
        |> emit (FetchInteract sid audioBlob)
        |> await (AwaitInteractFetch closureAudio)
  end.

(** The message of the exception [atob] throws. *)
Definition atob_error_message : string :=
  "The string to be decoded is not correctly encoded.".

(** [sendAudioToBackend], from the response on: the rest of the [try] block,
    then [catch] and [finally]. *)
Definition sendAudioToBackend_resume (closureAudio : option AudioId)
    (r : JS.Outcome Response.InteractionResponse) (s : State) : State :=
  (match r with
   | JS.Rejected message =>
       s |> console_log "[Audio] Error" |> setError (Some message)
   | JS.NotOk =>
       s |> console_log "[Audio] Error"
         |> setError (Some "Failed to process audio")
   | JS.Ok data =>
       let s := s |> console_log "[Audio] Response received"
                  (* Update conversation history *)
                  |> setConversationHistory (fun prev =>
                       prev ++ [(user, "[Audio Message]");
                                (ai, Response.aiResponse data)]) in
       (* Update learning progress *)
       let s := match Response.learningProgress data with
                | Some lp => setLearningProgress (Some lp) s
                | None => s
                end in
       (* Play AI audio response *)
       let c := match Response.audioResponse data with
                | Some audio =>
                    if Response.success data && JS.truthy (Some audio)
                    then playAIAudio closureAudio audio
                                     (Response.aiResponse data) s
                    else JS.Normal s
                | None => JS.Normal s
                end in
       match c with
       | JS.Normal s => s
       | JS.Throw s =>
           s |> console_log "[Audio] Error"
             |> setError (Some atob_error_message)
       end
   end)
  |> setIsProcessing false.

(** The [ondataavailable] and [onstop] handlers installed by
    [startRecording]. *)
Definition recorder_ondataavailable (data : Blob) (s : State) : State :=
  if (0 <? blobSize data)%nat
  then set_audioChunksRef (audioChunksRef (refs s) ++ [data]) s
  else s.

Definition recorder_onstop (closureAudio : option AudioId) (s : State) :
    State :=
  let audioBlob := newBlob (map blobBytes (audioChunksRef (refs s)))
                           "audio/webm" in
  let s := console_log "[VAD] Recording stopped" s in
  if (0 <? blobSize audioBlob)%nat
  then sendAudioToBackend closureAudio audioBlob s
  else s.

Definition upd_loop (l : LoopId) (f : VadLoop -> VadLoop) : State -> State :=
  with_loops (alter f l).

(** The locals of the loop that is running. *)
Definition set_lastSpeechTime (l : LoopId) (t : Z) : State -> State :=
  upd_loop l (fun lp =>
    mkLoop t (lastSilenceTime lp) (scheduled lp) (loopSession lp)).
Definition set_lastSilenceTime (l : LoopId) (t : Z) : State -> State :=
  upd_loop l (fun lp =>
    mkLoop (lastSpeechTime lp) t (scheduled lp) (loopSession lp)).
Definition set_scheduled (l : LoopId) (b : bool) : State -> State :=
  upd_loop l (fun lp =>
    mkLoop (lastSpeechTime lp) (lastSilenceTime lp) b (loopSession lp)).

(** [detectVoice], the block under [if (rms > SPEECH_THRESHOLD)]. *)
Definition speech_detected (l : LoopId) (closureAudio : option AudioId)
    (now : Z) (s : State) : JS.Completion State :=
  let s := set_lastSpeechTime l now s in
  (* Start recording if not already *)
  if negb (isSpeakingRef (refs s)) then
    match speechStartTimeRef (refs s) with
    | None => JS.Normal (set_speechStartTimeRef (Some now) s)
    | Some speechStartTime =>
        if now - speechStartTime >? MIN_SPEECH_DURATION then
          let s := s |> console_log
                          "[VAD] Speech detected, starting recording"
                     |> set_isSpeakingRef true in
          (* Interrupt AI *)
          stopAIAudio closureAudio s >>-
          startRecording closureAudio
        else JS.Normal s
    end
  else JS.Normal s.

(** [detectVoice], the block under [else if (rms < SILENCE_THRESHOLD)];
    [lastSpeechTime] is the loop's local as it stood when the frame began. *)
Definition silence_detected (l : LoopId) (lastSpeechTime : Z) (now : Z)
    (s : State) : State :=
  let s := set_lastSilenceTime l now s in
  (* Stop recording after silence duration *)
  if isSpeakingRef (refs s) && (now - lastSpeechTime >? SILENCE_DURATION)
  then
    s |> console_log "[VAD] Silence detected, stopping recording"
      |> set_isSpeakingRef false
      |> set_speechStartTimeRef None
      |> stopRecording
  else s.

(** [detectVoice] for the loop [l], with the level [rms] just computed and
    [now = Date.now()]. *)
Definition detectVoice (l : LoopId) (rms : Q) (now : Z) (s : State) :
    JS.Completion State :=
  match the_loops s !! l with
  | None => JS.Normal s
  | Some lp =>
      if negb (sessionActiveRef (refs s)) then
        JS.Normal (console_log "[VAD] Loop stopped - session not active" s)
      else
        let s := setAudioLevel rms s in
        (* Debug: log RMS levels every 500ms *)
        let s := if negb (now / 500 =? lastSilenceTime lp / 500)
                 then console_log "[VAD] RMS" s else s in
        (* Speech detected *)
        (if Qgtb rms SPEECH_THRESHOLD then
           speech_detected l (loopSession lp) now s
         (* Silence detected *)
         else if Qltb rms SILENCE_THRESHOLD then
           JS.Normal (silence_detected l (lastSpeechTime lp) now s)
         else JS.Normal s) >>-
        (* rafRef.current = requestAnimationFrame(detectVoice) *)
        (fun s => JS.Normal (s |> set_scheduled l true |> set_rafRef (Some l)))
  end.

(** [startVADLoop]: a new activation with its own locals, then the first
    call of [detectVoice]. *)
Definition startVADLoop (closureAudio : option AudioId) (rms : Q) (now : Z)
    (s : State) : JS.Completion State :=
  match analyserRef (refs s) with
  | None => JS.Normal s
  | Some _ =>
      let l := length (the_loops s) in
      let s := with_loops (fun ls => ls ++ [mkLoop 0 now false closureAudio])
                          s in
      detectVoice l rms now s
  end.

(** What [getUserMedia] and the construction of the audio graph come to. *)
Inductive MediaOutcome :=
| MediaDenied (message : string)
| MediaGranted (graphError : option string).

(** [initializeAudio], up to [await getUserMedia]. *)
Definition initializeAudio (closureAudio : option AudioId) (s : State) :
    State :=
  s |> console_log "[Audio] Initializing audio system"
    |> emit GetUserMedia
    |> await (AwaitUserMedia closureAudio).

(** [initializeAudio] from the settled [getUserMedia] on, followed by the
    rest of [startConversation] (its last log line, or its [catch]). *)
Definition initializeAudio_resume (closureAudio : option AudioId)
    (r : MediaOutcome) (rms : Q) (now : Z) (s : State) : State :=
  let failed message s :=
    s |> console_log "[Audio] Failed to initialize"
      |> console_log "[Session] Error starting"
      |> setError (Some message) in
  match r with
  | MediaDenied message => failed message s
  | MediaGranted graphError =>
      let stream := length (the_streams s) in
      let s := s |> with_streams (fun l => l ++ [mkStream true])
                 |> set_mediaStreamRef (Some stream) in
      match graphError with
      | Some message => failed message s
      | None =>
          let s := s |> set_audioContextRef (Some stream)
                     |> set_analyserRef (Some stream)
                     |> console_log "[Audio] Audio system initialized" in
          match startVADLoop closureAudio rms now s with
          | JS.Normal s => console_log "[VAD] VAD loop should be running now" s
          | JS.Throw s => failed "exception in the VAD loop" s
          end
      end
  end.

(** [cleanupAudio] *)
Definition cleanupAudio (s : State) : State :=
  let s := console_log "[Audio] Cleaning up" s in
  let s := match rafRef (refs s) with
           | Some l =>
               s |> emit (CancelAnimationFrame l)
                 |> set_scheduled l false
                 |> set_rafRef None
           | None => s
           end in
  let s := if recorder_is_recording s then recorder_stop s else s in
  let s := match mediaStreamRef (refs s) with
           | Some stream =>
               s |> emit (TrackStop stream)
                 |> with_streams (alter (fun _ => mkStream false) stream)
                 |> set_mediaStreamRef None
           | None => s
           end in
  let s := match audioContextRef (refs s) with
           | Some c => s |> emit (AudioContextClose c)
                         |> set_audioContextRef None
           | None => s
           end in
  s |> set_analyserRef None
    |> set_isSpeakingRef false
    |> set_speechStartTimeRef None.

(** [startConversation], up to [await fetch(.../start)]. *)
Definition startConversation (s : State) : State :=
  let closureAudio := currentAudio (session (hooks s)) in
  s |> setError None
    |> console_log "[Session] Starting conversation"
    (* CRITICAL: Unlock audio on user gesture *)
    |> unlockAudio
    |> emit (FetchStart (persona (hooks s)))
    |> await (AwaitStartFetch closureAudio).

(** [startConversation] from the response on, up to
    [await initializeAudio()]. *)
Definition startConversation_resume (closureAudio : option AudioId)
    (r : JS.Outcome (option string)) (s : State) : State :=
  match r with
  | JS.Rejected message =>
      s |> console_log "[Session] Error starting" |> setError (Some message)
  | JS.NotOk =>
      s |> console_log "[Session] Error starting"
        |> setError (Some "Failed to start session")
  | JS.Ok data_sessionId =>
      s |> console_log "[Session] Session started"
        (* Set refs FIRST *)
        |> set_sessionIdRef data_sessionId
        |> set_sessionActiveRef true
        |> setSession (fun _ => mkSession data_sessionId true None)
        |> setConversationHistory (fun _ => [])
        |> setLearningProgress None
        (* Initialize audio *)
        |> initializeAudio closureAudio
  end.

(** [endConversation], up to [await fetch(.../complete)]. *)
Definition endConversation (s : State) : State :=
  match JS.truthy_value (sessionIdRef (refs s)) with
  | None => s
  | Some currentSessionId =>
      let closureAudio := currentAudio (session (hooks s)) in
      let s := s |> console_log "[Session] Ending conversation"
                 |> set_sessionActiveRef false
                 |> cleanupAudio in
      JS.state_of (stopAIAudio closureAudio s)
        |> emit (FetchComplete currentSessionId)
        |> await AwaitCompleteFetch
  end.

(** [endConversation] once the request settled (its status is not read). *)
Definition endConversation_resume (r : JS.Outcome unit) (s : State) : State :=
  match r with
  | JS.Rejected message =>
      s |> console_log "[Session] Error ending" |> setError (Some message)
  | _ =>
      s |> set_sessionIdRef None
        |> setSession (fun _ => mkSession None false None)
        |> console_log "[Session] Conversation ended"
  end.

(** [statusLabel] *)
Definition statusLabel (s : State) : string :=
  if negb (isActive (session (hooks s))) then "Ready"
  else if isProcessing (hooks s) then "Processing"
  else if isSpeaking (hooks s) then "AI Speaking"
  else if isUserSpeaking (hooks s) then "You Speaking"
  else "Listening".

(* ===================================================================== *)
(** ** Events and the handler each of them runs *)
(* ===================================================================== *)

Inductive Event :=
(** the Start and End buttons *)
| Click_start
| Click_end
(** the promise of [unlockAudio] settles *)
| Unlock_settled (k : TaskId) (ok : bool)
(** the start request settles *)
| Start_settled (k : TaskId) (r : JS.Outcome (option string))
(** [getUserMedia] settles; [rms], [now]: the first sample of the new loop *)
| UserMedia_settled (k : TaskId) (r : MediaOutcome) (rms : Q) (now : Z)
(** an animation frame of loop [l], with the level read and the clock *)
| AnimationFrame (l : LoopId) (rms : Q) (now : Z)
(** a stopped recorder delivers its data and its stop event *)
| Recorder_stopped (r : RecorderId) (data : Blob)
(** the interact request settles *)
| Interact_settled (k : TaskId) (r : JS.Outcome Response.InteractionResponse)
(** the complete request settles *)
| Complete_settled (k : TaskId) (r : JS.Outcome unit)
(** playback of an element starts, fails, advances, reaches the end *)
| Audio_playing (a : AudioId)
| Audio_play_rejected (a : AudioId)
| Audio_timeupdate (a : AudioId) (t : Z)
| Audio_ended (a : AudioId).

Arguments Unlock_settled k%_nat ok.
Arguments Start_settled k%_nat r.
Arguments UserMedia_settled k%_nat r rms%_Q now%_Z.
Arguments AnimationFrame l%_nat rms%_Q now%_Z.
Arguments Recorder_stopped r%_nat data.
Arguments Interact_settled k%_nat r.
Arguments Complete_settled k%_nat r.
Arguments Audio_playing a%_nat.
Arguments Audio_play_rejected a%_nat.
Arguments Audio_timeupdate a%_nat t%_Z.
Arguments Audio_ended a%_nat.

Definition step (e : Event) (s : State) : State :=
  match e with
  | Click_start => startConversation s
  | Click_end => endConversation s
  | Unlock_settled k ok =>
      match the_tasks s !! k with
      | Some AwaitUnlockPlay =>
          let s := settle k s in
          if ok then
            s |> console_log "[Audio] Audio unlocked successfully"
              |> set_audioUnlockedRef true
          else console_log "[Audio] Failed to unlock audio" s
      | _ => s
      end
  | Start_settled k r =>
      match the_tasks s !! k with
      | Some (AwaitStartFetch cap) =>
          startConversation_resume cap r (settle k s)
      | _ => s
      end
  | UserMedia_settled k r rms now =>
      match the_tasks s !! k with
      | Some (AwaitUserMedia cap) =>
          initializeAudio_resume cap r rms now (settle k s)
      | _ => s
      end
  | AnimationFrame l rms now =>
      match the_loops s !! l with
      | Some lp =>
          if scheduled lp then
            JS.state_of (detectVoice l rms now (set_scheduled l false s))
          else s
      | None => s
      end
  | Recorder_stopped r data =>
      match the_recorders s !! r with
      | Some m =>
          if stopQueued m then
            s |> with_recorders (alter (fun m =>
                   mkRecorder (rstate m) false (rstream m) (onstopSession m))
                   r)
              |> recorder_ondataavailable data
              |> recorder_onstop (onstopSession m)
          else s
      | None => s
      end
  | Interact_settled k r =>
      match the_tasks s !! k with
      | Some (AwaitInteractFetch cap) =>
          sendAudioToBackend_resume cap r (settle k s)
      | _ => s
      end
  | Complete_settled k r =>
      match the_tasks s !! k with
      | Some AwaitCompleteFetch => endConversation_resume r (settle k s)
      | _ => s
      end
  | Audio_playing a =>
      match the_audios s !! a with
      | Some el =>
          if playPending el && negb (paused el) then
            with_audios (alter (fun el =>
              mkAudio (src el) (paused el) (currentTime el) (onended el)
                      false (faulty el)) a) s
          else s
      | None => s
      end
  | Audio_play_rejected a =>
      match the_audios s !! a with
      | Some el =>
          if playPending el then
            s |> with_audios (alter (fun el =>
                   mkAudio (src el) true (currentTime el) (onended el)
                           false (faulty el)) a)
              |> play_catch a
          else s
      | None => s
      end
  | Audio_timeupdate a t =>
      match the_audios s !! a with
      | Some el =>
          if negb (paused el) && negb (playPending el) then
            with_audios (alter (fun el =>
              mkAudio (src el) (paused el) t (onended el)
                      (playPending el) (faulty el)) a) s
          else s
      | None => s
      end
  | Audio_ended a =>
      match the_audios s !! a with
      | Some el =>
          if negb (paused el) && negb (playPending el) then
            let s := with_audios (alter (fun el =>
                       mkAudio (src el) true (currentTime el) (onended el)
                               (playPending el) (faulty el)) a) s in
            if onended el then audio_onended a s else s
          else s
      | None => s
      end
  end.

(** The events of a run, in the order the browser delivers them. *)
Definition run (es : list Event) (s : State) : State :=
  fold_left (fun s e => step e s) es s.

(** An element is live while it is playing or about to play. *)
Definition live (el : HTMLAudioElement) : bool := negb (paused el).

Definition live_audios (s : State) : list AudioId :=
  List.filter (fun a => match the_audios s !! a with
                   | Some el => live el
                   | None => false
                   end)
         (seq 0 (length (the_audios s))).

Definition open_recorders (s : State) : list RecorderId :=
  List.filter (fun r => match the_recorders s !! r with
                   | Some m => match rstate m with
                               | recording => true
                               | inactive => false
                               end
                   | None => false
                   end)
         (seq 0 (length (the_recorders s))).

(** The interact requests that have not settled. *)
Definition in_flight (s : State) : nat :=
  length (List.filter (fun t => match t with
                           | AwaitInteractFetch _ => true
                           | _ => false
                           end) (the_tasks s)).

(* ===================================================================== *)
(** ** Notions used to state the properties *)
(* ===================================================================== *)

(** A value that fits a byte. *)
Definition is_byte (b : Z) : Prop := 0 <= b < 256.

(** What an observer sees of the playback controller: the handle, the
    [isSpeaking] flag and [session.currentAudio]. *)
Definition playback_view (s : State) : option AudioId * bool * option AudioId :=
  (currentAudioRef (refs s), isSpeaking (hooks s),
   currentAudio (session (hooks s))).

Definition all_paused (s : State) : Prop :=
  forall a el, the_audios s !! a = Some el -> paused el = true.

Definition nothing_playing (s : State) : Prop :=
  playback_view s = (None, false, None) /\ all_paused s.

(** Everything but the audio elements and the effect log. *)
Definition same_but_audio (s s' : State) : Prop :=
  hooks s' = hooks s /\ refs s' = refs s
  /\ the_recorders s' = the_recorders s /\ the_streams s' = the_streams s
  /\ the_loops s' = the_loops s /\ the_tasks s' = the_tasks s.

(** What the [try] block does to an element. *)
Definition stopped (el : HTMLAudioElement) : HTMLAudioElement :=
  if faulty el then el else rewound el.


(** *** The voice-activity detector seen alone *)

(** The cells [detectVoice] decides on: the session-active flag, the
    speaking flag, the candidate start, and the locals of its loop. *)
Record VadView := mkView {
  v_active : bool;
  v_speaking : bool;
  v_candidate : option Z;
  v_loop : option VadLoop }.

Definition vad_view (l : LoopId) (s : State) : VadView :=
  mkView (sessionActiveRef (refs s)) (isSpeakingRef (refs s))
         (speechStartTimeRef (refs s)) (the_loops s !! l).

(** One animation frame of [detectVoice], read off on the view. *)
Definition vad_frame (rms : Q) (now : Z) (v : VadView) : VadView :=
  match v_loop v with
  | Some lp =>
      if scheduled lp then
        if negb (v_active v) then
          mkView (v_active v) (v_speaking v) (v_candidate v)
                 (Some (mkLoop (lastSpeechTime lp) (lastSilenceTime lp) false
                               (loopSession lp)))
        else if Qgtb rms SPEECH_THRESHOLD then
          let lp' := mkLoop now (lastSilenceTime lp) true (loopSession lp) in
          if negb (v_speaking v) then
            match v_candidate v with
            | None => mkView true false (Some now) (Some lp')
            | Some t0 =>
                mkView true (now - t0 >? MIN_SPEECH_DURATION) (Some t0)
                       (Some lp')
            end
          else mkView true true (v_candidate v) (Some lp')
        else if Qltb rms SILENCE_THRESHOLD then
          let lp' := mkLoop (lastSpeechTime lp) now true (loopSession lp) in
          if v_speaking v && (now - lastSpeechTime lp >? SILENCE_DURATION)
          then mkView true false None (Some lp')
          else mkView true (v_speaking v) (v_candidate v) (Some lp')
        else
          mkView true (v_speaking v) (v_candidate v)
                 (Some (mkLoop (lastSpeechTime lp) (lastSilenceTime lp) true
                               (loopSession lp)))
      else v
  | None => v
  end.

(** A stream of samples [(rms, now)] handed to loop [l], frame by frame. *)
Definition frames (l : LoopId) (samples : list (Q * Z)) : list Event :=
  map (fun smp => AnimationFrame l (fst smp) (snd smp)) samples.

(** The event makes the detector report a speech start (a speech end). *)
Definition speechStart_at (s : State) (e : Event) : bool :=
  negb (isSpeakingRef (refs s)) && isSpeakingRef (refs (step e s)).
Definition speechEnd_at (s : State) (e : Event) : bool :=
  isSpeakingRef (refs s) && negb (isSpeakingRef (refs (step e s))).

(** Time of the first, and of the last, sample above the speech threshold. *)
Fixpoint first_above (samples : list (Q * Z)) : option Z :=
  match samples with
  | [] => None
  | (rms, t) :: rest =>
      if Qgtb rms SPEECH_THRESHOLD then Some t else first_above rest
  end.

Fixpoint last_above (samples : list (Q * Z)) : option Z :=
  match samples with
  | [] => None
  | (rms, t) :: rest =>
      match last_above rest with
      | Some t' => Some t'
      | None => if Qgtb rms SPEECH_THRESHOLD then Some t else None
      end
  end.

Definition vad_run (samples : list (Q * Z)) (v : VadView) : VadView :=
  fold_left (fun v smp => vad_frame (fst smp) (snd smp) v) samples v.

(** The loop of the view is waiting for its next frame in a live session. *)
Definition view_runs (v : VadView) : bool :=
  v_active v && match v_loop v with
                | Some lp => scheduled lp
                | None => false
                end.

(** *** Runs used as examples *)

(** A recorded clip of four bytes, and a reply that carries audio. *)
Definition webm_clip : Blob := mkBlob [26; 69; 223; 163] "audio/webm".

Definition reply (text audio : string) :
    JS.Outcome Response.InteractionResponse :=
  JS.Ok (Response.mk true text (Some audio) None).

(** Start clicked, session "s1" granted, microphone granted: the loop 0
    runs and the session is listening. *)
Definition session_started : list Event :=
  [ Click_start;
    Start_settled 1 (JS.Ok (Some "s1"));
    UserMedia_settled 2 (MediaGranted None) 0 0 ].

(** One utterance: speech from [t] on, confirmed at [t + 101], then silence
    seen at [t + 900], which closes the recording. *)
Definition utterance (t : Z) : list Event :=
  [ AnimationFrame 0 (2 # 100) t;
    AnimationFrame 0 (2 # 100) (t + 101);
    AnimationFrame 0 (1 # 1000) (t + 900) ].

(** Speech at 1000 ms, a dip into silence at 1050 ms, speech again. *)
Definition dip_samples : list (Q * Z) :=
  [ (2 # 100, 1000); (1 # 1000, 1050) ].

(** Speech confirmed at 1101 ms, then levels inside the dead zone (above
    the silence threshold, not above the speech threshold) up to 1800 ms. *)
Definition dead_zone_samples : list (Q * Z) :=
  [ (2 # 100, 1000); (2 # 100, 1101); (1 # 100, 1500); (1 # 100, 1800) ].

(** The state inside [detectVoice] when the frame has just confirmed speech:
    level stored, debug line written, [lastSpeechTime] and the speaking flag
    set; [stopAIAudio] and [startRecording] are still to run. *)
Definition speech_confirmed (l : LoopId) (lp : VadLoop) (rms : Q) (now : Z)
    (s : State) : State :=
  (let t := setAudioLevel rms (set_scheduled l false s) in
   if negb (now / 500 =? lastSilenceTime lp / 500)
   then console_log "[VAD] RMS" t else t)
  |> set_lastSpeechTime l now
  |> console_log "[VAD] Speech detected, starting recording"
  |> set_isSpeakingRef true.

(** The session is listening, the first utterance was recorded and sent. *)
Definition first_request_sent : list Event :=
  session_started ++ utterance 1000 ++ [ Recorder_stopped 0 webm_clip ].

(** The reply to the first utterance is playing and the user starts to
    speak: the frame at 5000 ms records the candidate start. *)
Definition ai_speaking_user_starts : State :=
  Eval vm_compute in
    run (first_request_sent
         ++ [ Interact_settled 3 (reply "Hello" "SGVsbG8=");
              Audio_playing 0;
              AnimationFrame 0 (2 # 100) 5000 ])
        initial.

(** The first request is in flight and the user starts to speak again. *)
Definition processing_user_starts : State :=
  Eval vm_compute in
    run (first_request_sent ++ [ AnimationFrame 0 (2 # 100) 5000 ]) initial.

(** The user's second utterance while the first request is in flight. *)
Definition second_utterance_while_processing : list Event :=
  [ AnimationFrame 0 (2 # 100) 5101;
    AnimationFrame 0 (1 # 1000) 5900;
    Recorder_stopped 1 webm_clip ].

(** The session is ended, and the end request completes, while the first
    request is still in flight. *)
Definition ended_with_request_in_flight : State :=
  Eval vm_compute in
    run (first_request_sent ++ [ Click_end; Complete_settled 4 (JS.Ok tt) ])
        initial.

(** The start request succeeds, then the microphone is refused. *)
Definition microphone_refused : list Event :=
  [ Click_start;
    Start_settled 1 (JS.Ok (Some "s1"));
    UserMedia_settled 2 (MediaDenied "Permission denied") 0 0 ].

(** The user is speaking and the recorder 0 is recording. *)
Definition user_speaking : State :=
  Eval vm_compute in
    run (session_started
         ++ [ AnimationFrame 0 (2 # 100) 1000;
              AnimationFrame 0 (2 # 100) 1101 ])
        initial.

Definition is_interact_fetch (e : Effect) : bool :=
  match e with FetchInteract _ _ => true | _ => false end.

(** Three utterances.  The replies to the first two arrive together, the
    second while the element of the first is still loading: [playAIAudio]
    pauses element 0, whose pending [play()] is then rejected, and element 1
    starts to play.  The third utterance and its reply follow. *)
Definition overlapping_replies : list Event :=
  first_request_sent
  ++ utterance 3000 ++ [ Recorder_stopped 1 webm_clip ]
  ++ [ Interact_settled 3 (reply "one" "b25l");
       Interact_settled 4 (reply "two" "dHdv");
       Audio_play_rejected 0;
       Audio_playing 1 ]
  ++ utterance 6000 ++ [ Recorder_stopped 2 webm_clip ]
  ++ [ Interact_settled 5 (reply "three" "dGhyZWU=");
       Audio_playing 2 ].

(** *** Invariants of the runs *)

(** Every recorder that is recording is the one [mediaRecorderRef] holds. *)
Definition recorder_inv (s : State) : Prop :=
  forall r m, the_recorders s !! r = Some m -> rstate m = recording ->
              mediaRecorderRef (refs s) = Some r.

(** No element is faulty, and every live element is the one
    [currentAudioRef] holds. *)
Definition playback_inv (s : State) : Prop :=
  forall a el, the_audios s !! a = Some el ->
               faulty el = false
               /\ (paused el = false -> currentAudioRef (refs s) = Some a).

Definition is_play_rejection (e : Event) : bool :=
  match e with Audio_play_rejected _ => true | _ => false end.

(** What the recorder invariant, and the playback invariant, talk about. *)
Definition rec_view (s : State) : list MediaRecorder * option RecorderId :=
  (the_recorders s, mediaRecorderRef (refs s)).
Definition audio_view (s : State) : list HTMLAudioElement * option AudioId :=
  (the_audios s, currentAudioRef (refs s)).

(** No element is faulty and none is live. *)
Definition all_quiet (s : State) : Prop :=
  forall a el, the_audios s !! a = Some el ->
               faulty el = false /\ paused el = true.

(* ===================================================================== *)
(** ** The cells a handler writes *)
(* ===================================================================== *)

(** The cells of the component: its [useState] cells, its [useRef] cells and
    the browser objects it holds. *)
Inductive Cell :=
| c_session | c_conversationHistory | c_learningProgress | c_error
| c_isProcessing | c_audioLevel | c_isSpeaking | c_isUserSpeaking | c_persona
| c_audioContextRef | c_analyserRef | c_mediaStreamRef | c_mediaRecorderRef
| c_audioChunksRef | c_rafRef | c_isSpeakingRef | c_speechStartTimeRef
| c_sessionActiveRef | c_sessionIdRef | c_audioUnlockedRef | c_currentAudioRef
| c_audios | c_recorders | c_streams | c_loops | c_tasks | c_effects.

(** The cell [c] holds the same value in [s] and [s']. *)
Definition cell_eq (c : Cell) (s s' : State) : Prop :=
  match c with
  | c_session => session (hooks s') = session (hooks s)
  | c_conversationHistory =>
      conversationHistory (hooks s') = conversationHistory (hooks s)
  | c_learningProgress => learningProgress (hooks s') = learningProgress (hooks s)
  | c_error => error (hooks s') = error (hooks s)
  | c_isProcessing => isProcessing (hooks s') = isProcessing (hooks s)
  | c_audioLevel => audioLevel (hooks s') = audioLevel (hooks s)
  | c_isSpeaking => isSpeaking (hooks s') = isSpeaking (hooks s)
  | c_isUserSpeaking => isUserSpeaking (hooks s') = isUserSpeaking (hooks s)
  | c_persona => persona (hooks s') = persona (hooks s)
  | c_audioContextRef => audioContextRef (refs s') = audioContextRef (refs s)
  | c_analyserRef => analyserRef (refs s') = analyserRef (refs s)
  | c_mediaStreamRef => mediaStreamRef (refs s') = mediaStreamRef (refs s)
  | c_mediaRecorderRef => mediaRecorderRef (refs s') = mediaRecorderRef (refs s)
  | c_audioChunksRef => audioChunksRef (refs s') = audioChunksRef (refs s)
  | c_rafRef => rafRef (refs s') = rafRef (refs s)
  | c_isSpeakingRef => isSpeakingRef (refs s') = isSpeakingRef (refs s)
  | c_speechStartTimeRef =>
      speechStartTimeRef (refs s') = speechStartTimeRef (refs s)
  | c_sessionActiveRef => sessionActiveRef (refs s') = sessionActiveRef (refs s)
  | c_sessionIdRef => sessionIdRef (refs s') = sessionIdRef (refs s)
  | c_audioUnlockedRef => audioUnlockedRef (refs s') = audioUnlockedRef (refs s)
  | c_currentAudioRef => currentAudioRef (refs s') = currentAudioRef (refs s)
  | c_audios => the_audios s' = the_audios s
  | c_recorders => the_recorders s' = the_recorders s
  | c_streams => the_streams s' = the_streams s
  | c_loops => the_loops s' = the_loops s
  | c_tasks => the_tasks s' = the_tasks s
  | c_effects => the_effects s' = the_effects s
  end.

(** From [s] to [s'] only cells of [W] changed. *)
Definition modifies (W : list Cell) (s s' : State) : Prop :=
  forall c, ~ In c W -> cell_eq c s s'.

(** The cells each function writes. *)
Definition stopAIAudio_writes : list Cell :=
  [c_effects; c_audios; c_currentAudioRef; c_isSpeaking; c_session].
Definition play_catch_writes : list Cell :=
  [c_effects; c_error; c_isSpeaking; c_currentAudioRef; c_session].
Definition audio_onended_writes : list Cell :=
  [c_effects; c_isSpeaking; c_currentAudioRef; c_session].
Definition startRecording_writes : list Cell :=
  [c_effects; c_audioChunksRef; c_recorders; c_mediaRecorderRef;
   c_isUserSpeaking].
Definition stopRecording_writes : list Cell :=
  [c_effects; c_recorders; c_isUserSpeaking].
Definition sendAudioToBackend_writes : list Cell :=
  [c_isProcessing; c_error; c_effects; c_tasks].
Definition sendAudioToBackend_resume_writes : list Cell :=
  [c_conversationHistory; c_learningProgress; c_error; c_isProcessing]
  ++ stopAIAudio_writes.
Definition detectVoice_writes : list Cell :=
  [c_audioLevel; c_loops; c_rafRef; c_isSpeakingRef; c_speechStartTimeRef]
  ++ stopAIAudio_writes ++ startRecording_writes.
Definition cleanupAudio_writes : list Cell :=
  [c_effects; c_loops; c_rafRef; c_recorders; c_streams; c_mediaStreamRef;
   c_audioContextRef; c_analyserRef; c_isSpeakingRef; c_speechStartTimeRef].
Definition startConversation_writes : list Cell :=
  [c_error; c_effects; c_tasks].
Definition startConversation_resume_writes : list Cell :=
  [c_effects; c_error; c_sessionIdRef; c_sessionActiveRef; c_session;
   c_conversationHistory; c_learningProgress; c_tasks].
Definition initializeAudio_resume_writes : list Cell :=
  [c_error; c_streams; c_mediaStreamRef; c_audioContextRef; c_analyserRef]
  ++ detectVoice_writes.
Definition endConversation_writes : list Cell :=
  [c_sessionActiveRef; c_tasks] ++ cleanupAudio_writes ++ stopAIAudio_writes.
Definition endConversation_resume_writes : list Cell :=
  [c_effects; c_error; c_sessionIdRef; c_session].

(** The cells the handler of an event writes. *)
Definition writes (e : Event) : list Cell :=
  match e with
  | Click_start => startConversation_writes
  | Click_end => endConversation_writes
  | Unlock_settled _ _ => [c_tasks; c_effects; c_audioUnlockedRef]
  | Start_settled _ _ => startConversation_resume_writes
  | UserMedia_settled _ _ _ _ => c_tasks :: initializeAudio_resume_writes
  | AnimationFrame _ _ _ => detectVoice_writes
  | Recorder_stopped _ _ =>
      c_recorders :: c_audioChunksRef :: sendAudioToBackend_writes
  | Interact_settled _ _ => c_tasks :: sendAudioToBackend_resume_writes
  | Complete_settled _ _ => c_tasks :: endConversation_resume_writes
  | Audio_playing _ => [c_audios]
  | Audio_play_rejected _ => c_audios :: play_catch_writes
  | Audio_timeupdate _ _ => [c_audios]
  | Audio_ended _ => c_audios :: audio_onended_writes
  end.

(* ===================================================================== *)
(** ** Further notions: what the handlers keep *)
(* ===================================================================== *)

(** The [isSpeaking] flag is up exactly while a handle is held. *)
Definition has_handle (s : State) : bool :=
  match currentAudioRef (refs s) with Some _ => true | None => false end.

(** The cells that gate a recording: a recorder records only in an active
    session, while the detector says the user speaks and a stream is held. *)
Definition recording_gated (s : State) : Prop :=
  forall r m, the_recorders s !! r = Some m -> rstate m = recording ->
    sessionActiveRef (refs s) = true /\ isSpeakingRef (refs s) = true
    /\ is_Some (mediaStreamRef (refs s)).

Definition no_recording (s : State) : Prop :=
  forall r m, the_recorders s !! r = Some m -> rstate m = inactive.

(** An interact request is well formed: a non-empty session id and a
    non-empty clip of type [audio/webm]. *)
Definition well_formed_effect (e : Effect) : bool :=
  match e with
  | FetchInteract sid clip =>
      JS.truthy (Some sid) && (0 <? blobSize clip)%nat
      && String.eqb (blobType clip) "audio/webm"
  | _ => true
  end.

(** The history is a sequence of turns: the placeholder for the user's
    audio, then the answer. *)
Definition turns (answers : list string) : list (Speaker * string) :=
  flat_map (fun t => [(user, "[Audio Message]"); (ai, t)]) answers.

(** A level inside the dead zone of the detector. *)
Definition in_dead_zone (rms : Q) : Prop :=
  (SILENCE_THRESHOLD <= rms)%Q /\ (rms <= SPEECH_THRESHOLD)%Q.

(** The flag and the handle agree. *)
Definition speaking_inv (s : State) : Prop :=
  isSpeaking (hooks s) = has_handle s.

Definition is_frame (e : Event) : bool :=
  match e with AnimationFrame _ _ _ => true | _ => false end.


(** Nothing is held: no stream, no audio graph, no pending frame, no
    playback handle, no recorder recording. *)
Definition released (s : State) : Prop :=
  mediaStreamRef (refs s) = None /\ audioContextRef (refs s) = None
  /\ analyserRef (refs s) = None /\ rafRef (refs s) = None
  /\ isSpeakingRef (refs s) = false /\ speechStartTimeRef (refs s) = None
  /\ currentAudioRef (refs s) = None /\ isSpeaking (hooks s) = false
  /\ open_recorders s = [].

(** The cells [released] looks at. *)
Definition released_cells : list Cell :=
  [c_mediaStreamRef; c_audioContextRef; c_analyserRef; c_rafRef;
   c_isSpeakingRef; c_speechStartTimeRef; c_currentAudioRef; c_isSpeaking;
   c_recorders].

Definition is_userMedia (e : Event) : bool :=
  match e with UserMedia_settled _ _ _ _ => true | _ => false end.

#[global] Instance Cell_eq_dec : EqDecision Cell.
Proof. solve_decision. Defined.

(** The handler of [e] may write the cell [c]. *)
Definition writes_cell (e : Event) (c : Cell) : bool :=
  bool_decide (c ∈ writes e).

Definition effects_ok (s : State) : Prop :=
  forallb well_formed_effect (the_effects s) = true.

(* ===================================================================== *)
(** ** The transcript view: [getSpeakerColor] *)
(* ===================================================================== *)

(** The 32-bit integer operators of JavaScript, on mathematical integers. *)
Module JS32.

(** [ToInt32]: the value modulo 2^32, read as a signed 32-bit integer. *)
Definition ToInt32 (x : Z) : Z := (x + 2 ^ 31) mod 2 ^ 32 - 2 ^ 31.

(** [a << n], for a shift count [0 <= n < 32]. *)
Definition shl (a n : Z) : Z := ToInt32 (Z.shiftl (ToInt32 a) n).

(** [a & b] *)
Definition bitand (a b : Z) : Z := Z.land (ToInt32 a) (ToInt32 b).

(** [a % b] on integers: the remainder has the sign of [a]. *)
Definition rem (a b : Z) : Z := Z.rem a b.

End JS32.

Definition colors : list string :=
  [ "#3b82f6"; "#10b981"; "#f59e0b"; "#ef4444"; "#8b5cf6";
    "#06b6d4"; "#f97316"; "#84cc16"; "#ec4899"; "#6366f1" ].

(** The body of the loop of [getSpeakerColor], for [c = speaker.charCodeAt(i)]. *)
Definition getSpeakerColor_step (hash c : Z) : Z :=
  JS32.bitand (JS32.shl hash 5 - hash + c) 4294967295.

(** The hash [getSpeakerColor] computes over the code units of [speaker]. *)
Definition getSpeakerColor_hash (speaker : JS.CodeUnits) : Z :=
  fold_left getSpeakerColor_step speaker 0.

(** [getSpeakerColor]; [None] is [undefined], what indexing an array off its
    range gives. *)
Definition getSpeakerColor (speaker : JS.CodeUnits) : option string :=
  let hash := getSpeakerColor_hash speaker in
  let i := JS32.rem (Z.abs hash) (Z.of_nat (length colors)) in
  if i <? 0 then None else colors !! Z.to_nat i.

(** The polynomial hash in base 31 of a sequence of code units. *)
Definition poly31 (speaker : JS.CodeUnits) : Z :=
  fold_left (fun h c => 31 * h + c) speaker 0.

(* ===================================================================== *)
(** ** The transcript view: [formatTime] and [toSeconds] *)
(* ===================================================================== *)

From Stdlib Require Import Qround.

Module Timestamp.

(** A JavaScript number: a finite double, which is a rational, or one of
    [NaN], [Infinity], [-Infinity]. *)
Inductive Number :=
| Finite (q : Q)
| NaN
| Infinity (negative : bool).

(** What the two functions are handed ([value: any]): [null] or
    [undefined], a number, a string, or anything else. *)
Inductive Value :=
| Null
| Num (n : Number)
| Str (s : JS.CodeUnits)
| Other.

(** [\d] *)
Definition is_digit (c : Z) : bool := (48 <=? c) && (c <=? 57).

(** The code units [trim] removes: white space and line terminators. *)
Definition is_white_space (c : Z) : bool :=
  existsb (Z.eqb c)
    [9; 10; 11; 12; 13; 32; 160; 5760; 8232; 8233; 8239; 8287; 12288; 65279]
  || ((8192 <=? c) && (c <=? 8202)).

Fixpoint trimStart (s : JS.CodeUnits) : JS.CodeUnits :=
  match s with
  | c :: r => if is_white_space c then trimStart r else s
  | [] => []
  end.

(** [s.trim()] *)
Definition trim (s : JS.CodeUnits) : JS.CodeUnits :=
  rev (trimStart (rev (trimStart s))).

(** The [value.replace(..., '')] of the source: every square bracket and
    every double quote (code units 91, 93 and 34) is removed. *)
Definition strip_brackets (s : JS.CodeUnits) : JS.CodeUnits :=
  List.filter (fun c => negb ((c =? 91) || (c =? 93) || (c =? 34))) s.

(** [s.split(sep)] for a separator of one code unit. *)
Fixpoint split (sep : Z) (s : JS.CodeUnits) : list JS.CodeUnits :=
  match s with
  | [] => [[]]
  | c :: r =>
      if c =? sep then [] :: split sep r
      else match split sep r with
           | f :: fs => (c :: f) :: fs
           | [] => [[c]]
           end
  end.

(** [\d{lo,hi}] against a whole field. *)
Definition digits_between (lo hi : nat) (s : JS.CodeUnits) : bool :=
  forallb is_digit s && (lo <=? length s)%nat && (length s <=? hi)%nat.

(** [/^\d{1,2}:\d{2}:\d{2}$/.test(s)] *)
Definition is_hh_mm_ss (s : JS.CodeUnits) : bool :=
  match split 58 s with
  | [hh; mm; ss] =>
      digits_between 1 2 hh && digits_between 2 2 mm && digits_between 2 2 ss
  | _ => false
  end.

(** [/^\d{1,2}:\d{2}$/.test(s)] *)
Definition is_mm_ss (s : JS.CodeUnits) : bool :=
  match split 58 s with
  | [mm; ss] => digits_between 1 2 mm && digits_between 2 2 ss
  | _ => false
  end.

(** [/^\d+(?:\.\d+)?$/.test(s)] *)
Definition is_decimal (s : JS.CodeUnits) : bool :=
  match split 46 s with
  | [i] => forallb is_digit i && (1 <=? length i)%nat
  | [i; f] =>
      forallb is_digit i && (1 <=? length i)%nat
      && forallb is_digit f && (1 <=? length f)%nat
  | _ => false
  end.

(** [Number(s)] for a string of digits. *)
Definition Number_of_digits (s : JS.CodeUnits) : Z :=
  fold_left (fun acc c => 10 * acc + (c - 48)) s 0.

(** [n.toString()] for a whole number [0 <= n < 10 ^ fuel]. *)
Fixpoint toString_fuel (fuel : nat) (n : Z) : JS.CodeUnits :=
  match fuel with
  | O => []
  | S fuel' =>
      if n <? 10 then [48 + n]
      else toString_fuel fuel' (n / 10) ++ [48 + n mod 10]
  end.

(** [n.toString()] for a whole number [0 <= n] below 10^21, where the
    exponent notation begins. *)
Definition toString (n : Z) : JS.CodeUnits :=
  toString_fuel (S (Z.to_nat (Z.log2 n))) n.

(** [s.padStart(2, '0')] *)
Definition padStart2 (s : JS.CodeUnits) : JS.CodeUnits :=
  repeat 48 (2 - length s) ++ s.

(** The doubles on which the arithmetic of [formatTime] is exact: the
    whole numbers below 2^53 divide by 60 without rounding error that
    could change the floor, and print in plain decimal digits. *)
Definition in_exact_range (value : Q) : Prop :=
  (value < inject_Z (2 ^ 53))%Q.

(** The branch of [formatTime] for a finite number.  The floor of a double
    is the floor of the rational it is; see [in_exact_range] for the
    division. *)
Definition formatTime_number (value : Q) : JS.CodeUnits :=
  let totalSeconds := Z.max 0 (Qfloor value) in
  let minutes := totalSeconds / 60 in
  let seconds := totalSeconds mod 60 in
  toString minutes ++ [58] ++ padStart2 (toString seconds).

(** [const [hh, mm, ss] = trimmed.split(':').map(Number)] and the sum the
    two functions form of it. *)
Definition hh_mm_ss_total (trimmed : JS.CodeUnits) : Z :=
  let parts := map Number_of_digits (split 58 trimmed) in
  nth 0 parts 0 * 3600 + nth 1 parts 0 * 60 + nth 2 parts 0.

Definition mm_ss_total (trimmed : JS.CodeUnits) : Z :=
  let parts := map Number_of_digits (split 58 trimmed) in
  nth 0 parts 0 * 60 + nth 1 parts 0.

Section WithParseFloat.

(** [parseFloat] is the platform's; it is only called on strings that
    match [/^\d+(?:\.\d+)?$/]. *)
Variable parseFloat : JS.CodeUnits -> Number.

(** [formatTime]; [None] is [null]. *)
Definition formatTime (value : Value) : option JS.CodeUnits :=
  match value with
  | Null => None
  | Num (Finite q) => Some (formatTime_number q)
  | Num _ => None
  | Str s =>
      let trimmed := trim (strip_brackets s) in
      (* Accept HH:MM:SS, MM:SS, or plain seconds *)
      if is_hh_mm_ss trimmed then
        Some (formatTime_number (inject_Z (hh_mm_ss_total trimmed)))
      else if is_mm_ss trimmed then Some trimmed
      else if is_decimal trimmed then
        match parseFloat trimmed with
        | Finite q => Some (formatTime_number q)
        | _ => None
        end
      else Some trimmed
  | Other => None
  end.

(** [toSeconds]; [None] is [null]. *)
Definition toSeconds (value : Value) : option Number :=
  match value with
  | Null => None
  | Num (Finite q) => Some (Finite q)
  | Num _ => None
  | Str s =>
      let trimmed := trim (strip_brackets s) in
      if is_hh_mm_ss trimmed then
        Some (Finite (inject_Z (hh_mm_ss_total trimmed)))
      else if is_mm_ss trimmed then
        Some (Finite (inject_Z (mm_ss_total trimmed)))
      else if is_decimal trimmed then Some (parseFloat trimmed)
      else None
  | Other => None
  end.

End WithParseFloat.

(** The code units of an ASCII string. *)
Definition units (s : string) : JS.CodeUnits :=
  map (fun c => Z.of_N (N_of_ascii c)) (list_ascii_of_string s).

End Timestamp.

Definition is_start_settled (e : Event) : bool :=
  match e with Start_settled _ _ => true | _ => false end.

(** The session is marked active and has no usable id. *)
Definition active_without_id (s : State) : Prop :=
  JS.truthy (sessionIdRef (refs s)) = false
  /\ sessionActiveRef (refs s) = true.

(** While a recorder records, the page says that the user speaks. *)
Definition recording_flagged (s : State) : Prop :=
  forall r m, the_recorders s !! r = Some m -> rstate m = recording ->
    isUserSpeaking (hooks s) = true.

(* ===================================================================== *)
(** ** [base64ToBlob]: the chunking loses nothing *)
(* ===================================================================== *)

Section Base64ToBlob.


Lemma land_255_byte (x : Z) : is_byte (Z.land x 255).
Proof.
  unfold is_byte. change 255 with (Z.ones 8).
  rewrite Z.land_ones by lia. apply Z.mod_pos_bound. lia.
Qed.

Lemma octets_bytes_bounded (n : nat) :
  forall vs, (length vs <= n)%nat -> Forall is_byte (Base64.octets vs).
Proof.
  induction n as [|n IH]; intros vs Hlen.
  - destruct vs; [constructor | simpl in Hlen; lia].
  - destruct vs as [|a [|b [|c [|d r]]]]; simpl.
    + constructor.
    + constructor.
    + constructor; [apply land_255_byte | constructor].
    + do 2 (constructor; [apply land_255_byte|]). constructor.
    + do 3 (constructor; [apply land_255_byte|]).
      apply IH. simpl in Hlen. lia.
Qed.

Lemma atob_bytes (data : string) (cs : JS.CodeUnits) :
  Base64.atob data = Some cs -> Forall is_byte cs.
Proof.
  unfold Base64.atob.
  destruct (_ mod 4 =? 1)%nat; [discriminate|].
  destruct (Base64.sextets _) as [vs|]; [|discriminate].
  intros [= <-]. eapply octets_bytes_bounded. reflexivity.
Qed.

Lemma ToUint8_byte (l : list Z) :
  Forall is_byte l -> map JS.ToUint8 l = l.
Proof.
  induction 1 as [|b l Hb _ IH]; [reflexivity|].
  simpl. rewrite IH. unfold JS.ToUint8.
  rewrite Z.mod_small by exact Hb. reflexivity.
Qed.

(** With fuel for every remaining character the loop ends, and the arrays
    it pushed spell the rest of the string, in order. *)
Lemma base64ToBlob_loop_spec (fuel : nat) :
  forall (cs : JS.CodeUnits) (offset : nat) (acc : list (list Z)),
    (length cs - offset <= fuel)%nat ->
    exists byteArrays,
      base64ToBlob_loop fuel cs offset acc = Some byteArrays
      /\ concat byteArrays
         = concat acc ++ map JS.ToUint8 (skipn offset cs).
Proof.
  induction fuel as [|fuel IH]; intros cs offset acc Hfuel.
  - exists acc. simpl.
    destruct (Nat.ltb_spec offset (length cs)) as [Hlt|Hge]; [lia|].
    split; [reflexivity|].
    rewrite skipn_all2 by lia. simpl. now rewrite app_nil_r.
  - cbn [base64ToBlob_loop].
    destruct (Nat.ltb_spec offset (length cs)) as [Hlt|Hge].
    + destruct (IH cs (offset + 512)%nat
                   (acc ++ [map JS.ToUint8
                              (JS.slice cs offset (offset + 512))]))
        as (arrays & Hrun & Hcat); [lia|].
      exists arrays. split; [exact Hrun|].
      rewrite Hcat, concat_app. cbn [concat].
      rewrite app_nil_r, <- app_assoc. f_equal.
      unfold JS.slice.
      replace (offset + 512 - offset)%nat with 512%nat by lia.
      rewrite <- map_app. f_equal.
      rewrite (Nat.add_comm offset 512), <- skipn_skipn.
      apply firstn_skipn.
    + exists acc. split; [reflexivity|].
      rewrite skipn_all2 by lia. simpl. now rewrite app_nil_r.
Qed.

(** The loop on any binary string, from offset 0: every code unit ends up
    in the blob, reduced modulo 256, none lost and none out of place. *)
Lemma base64ToBlob_loop_all (cs : JS.CodeUnits) :
  exists byteArrays,
    base64ToBlob_loop (length cs) cs 0 [] = Some byteArrays
    /\ concat byteArrays = map JS.ToUint8 cs.
Proof.
  destruct (base64ToBlob_loop_spec (length cs) cs 0 []) as (a & H1 & H2);
    [lia|].
  exists a. split; [exact H1|]. rewrite H2. reflexivity.
Qed.

(** C10.  For every base64 string that [atob] accepts and every MIME type,
    [base64ToBlob] returns a blob whose bytes are exactly the decoded
    characters' code points, in order, each of them a byte; the type is
    the one passed.  The slicing by 512 loses nothing whatever the
    length is. *)
Theorem base64ToBlob_decoded_bytes (base64 mimeType : string)
    (byteCharacters : JS.CodeUnits) :
  Base64.atob base64 = Some byteCharacters ->
  exists blob,
    base64ToBlob base64 mimeType = Some blob
    /\ blobBytes blob = byteCharacters
    /\ blobType blob = mimeType
    /\ Forall is_byte (blobBytes blob).
Proof.
  intros Hatob. unfold base64ToBlob. rewrite Hatob.
  destruct (base64ToBlob_loop_all byteCharacters) as (arrays & Hrun & Hcat).
  rewrite Hrun. eexists. split; [reflexivity|].
  pose proof (atob_bytes _ _ Hatob) as Hbytes.
  cbn [newBlob blobBytes blobType].
  rewrite Hcat, (ToUint8_byte _ Hbytes). auto.
Qed.

Lemma base64ToBlob_decoded_bytes_witness :
  exists blob,
    base64ToBlob "SGVsbG8=" "audio/mpeg" = Some blob
    /\ blobBytes blob = [72; 101; 108; 108; 111]
    /\ blobType blob = "audio/mpeg"
    /\ Forall is_byte (blobBytes blob).
Proof.
  apply (base64ToBlob_decoded_bytes "SGVsbG8=" "audio/mpeg"
           [72; 101; 108; 108; 111]).
  reflexivity.
Defined.

(** 600 characters: one full slice of 512 and a rest of 88. *)
Example base64ToBlob_loop_600 :
  base64ToBlob_loop 600 (repeat 7 600) 0 []
  = Some [repeat 7 512; repeat 7 88].
Proof. vm_compute. reflexivity. Qed.

Example base64ToBlob_empty :
  base64ToBlob "" "audio/mpeg" = Some (mkBlob [] "audio/mpeg").
Proof. reflexivity. Qed.

Example base64ToBlob_invalid : base64ToBlob "S" "audio/mpeg" = None.
Proof. reflexivity. Qed.

End Base64ToBlob.

(* ===================================================================== *)
(** ** Playback: [stopAIAudio] *)
(* ===================================================================== *)

Section StopAIAudio.

Lemma stopped_idem (el : HTMLAudioElement) : stopped (stopped el) = stopped el.
Proof. unfold stopped, rewound. destruct el as [? ? ? ? ? []]; reflexivity. Qed.

Lemma stopped_paused (el : HTMLAudioElement) :
  paused el = true -> paused (stopped el) = true.
Proof. unfold stopped. destruct (faulty el); auto. Qed.

Lemma pause_and_rewind_audios (a : AudioId) (s : State) :
  the_audios (JS.state_of (pause_and_rewind a s))
  = alter stopped a (the_audios s).
Proof.
  unfold pause_and_rewind.
  destruct (the_audios s !! a) as [el|] eqn:Hel.
  - destruct (faulty el) eqn:Hf; cbn.
    + symmetry. apply list_eq. intros i.
      rewrite list_lookup_alter. case_decide; [subst|reflexivity].
      rewrite Hel. cbn. unfold stopped.
      now rewrite Hf.
    + apply list_alter_ext; [|reflexivity].
      intros x Hx. rewrite Hel in Hx.
      injection Hx as <-. unfold stopped. now rewrite Hf.
  - cbn. symmetry. apply list_eq. intros i.
    rewrite list_lookup_alter. case_decide; [subst|reflexivity].
    now rewrite Hel.
Qed.

Lemma pause_and_rewind_same (a : AudioId) (s : State) :
  same_but_audio s (JS.state_of (pause_and_rewind a s)).
Proof.
  unfold pause_and_rewind, same_but_audio.
  destruct (the_audios s !! a) as [el|]; [destruct (faulty el)|];
    cbn; auto 10.
Qed.

(** [stopAIAudio] never throws: each DOM call sits in a [try] whose
    [catch] swallows the exception. *)
Lemma stopAIAudio_normal (c : option AudioId) (s : State) :
  stopAIAudio c s = JS.Normal (JS.state_of (stopAIAudio c s)).
Proof.
  unfold stopAIAudio, JS.try_swallow.
  destruct (currentAudioRef _), c; reflexivity.
Qed.

(** The cells [stopAIAudio] writes. *)
Lemma stopAIAudio_hooks (c : option AudioId) (s : State) :
  hooks (JS.state_of (stopAIAudio c s))
  = hooks (s |> setIsSpeaking false
             |> setSession (fun prev =>
                  mkSession (sessionId prev) (isActive prev) None)).
Proof.
  unfold stopAIAudio, JS.try_swallow.
  destruct (currentAudioRef _) as [a|], c as [a'|]; cbn;
    repeat match goal with
           | |- context [JS.state_of (pause_and_rewind ?x ?t)] =>
               let H := fresh in
               destruct (pause_and_rewind_same x t) as (H & _);
               rewrite H; clear H; cbn
           end; reflexivity.
Qed.

Lemma stopAIAudio_refs (c : option AudioId) (s : State) :
  refs (JS.state_of (stopAIAudio c s)) = refs (set_currentAudioRef None s).
Proof.
  unfold stopAIAudio, JS.try_swallow.
  destruct (currentAudioRef (refs (console_log _ s))) as [a|] eqn:Href,
           c as [a'|]; cbn in *;
    repeat match goal with
           | |- context [JS.state_of (pause_and_rewind ?x ?t)] =>
               let H := fresh in
               destruct (pause_and_rewind_same x t) as (_ & H & _);
               rewrite H; clear H; cbn
           end; try reflexivity.
  all: destruct (refs s); cbn in *; subst; reflexivity.
Qed.

Lemma stopAIAudio_audios (c : option AudioId) (s : State) :
  the_audios (JS.state_of (stopAIAudio c s))
  = (the_audios s
       |> (match currentAudioRef (refs s) with
           | Some a => alter stopped a
           | None => fun l => l
           end)
       |> (match c with
           | Some a => alter stopped a
           | None => fun l => l
           end)).
Proof.
  unfold stopAIAudio, JS.try_swallow.
  change (currentAudioRef (refs (console_log "[Audio] Interrupting AI speech" s)))
    with (currentAudioRef (refs s)).
  destruct (currentAudioRef (refs s)) as [a|], c as [a'|]; cbn;
    rewrite ?pause_and_rewind_audios; cbn; rewrite ?pause_and_rewind_audios;
    try reflexivity.
Qed.

Lemma stopAIAudio_rest (c : option AudioId) (s : State) :
  the_recorders (JS.state_of (stopAIAudio c s)) = the_recorders s
  /\ the_streams (JS.state_of (stopAIAudio c s)) = the_streams s
  /\ the_loops (JS.state_of (stopAIAudio c s)) = the_loops s
  /\ the_tasks (JS.state_of (stopAIAudio c s)) = the_tasks s.
Proof.
  unfold stopAIAudio, JS.try_swallow.
  destruct (currentAudioRef _) as [a|], c as [a'|]; cbn;
    repeat match goal with
           | |- context [JS.state_of (pause_and_rewind ?x ?t)] =>
               let H := fresh in
               destruct (pause_and_rewind_same x t) as (_ & _ & H);
               cbn in H; destruct H as (-> & -> & -> & ->)
           end; auto.
Qed.

End StopAIAudio.

Section StopIdempotent.

Lemma alter_stopped_paused (a : AudioId) (l : list HTMLAudioElement) :
  (forall i el, l !! i = Some el -> paused el = true) ->
  forall i el, alter stopped a l !! i = Some el -> paused el = true.
Proof.
  intros Hl i el. rewrite list_lookup_alter.
  case_decide; [subst|apply Hl].
  destruct (l !! i) as [el0|] eqn:Hi; [|discriminate].
  intros [= <-]. apply stopped_paused. eauto.
Qed.

Lemma alter_stopped_twice (a : AudioId) (l : list HTMLAudioElement) :
  alter stopped a (alter stopped a l) = alter stopped a l.
Proof.
  rewrite list_alter_alter_eq. apply list_alter_ext; [|reflexivity].
  intros x _. apply stopped_idem.
Qed.

Lemma stopAIAudio_view (c : option AudioId) (s : State) :
  playback_view (JS.state_of (stopAIAudio c s)) = (None, false, None).
Proof.
  unfold playback_view.
  rewrite stopAIAudio_hooks, stopAIAudio_refs. reflexivity.
Qed.

(** C7.  [stopAIAudio] always completes normally (it never throws), leaves
    handle, [isSpeaking] and [session.currentAudio] cleared, and a second
    call right after the first changes none of the cells; with the same
    closure (or the re-rendered one) it changes no audio element either.
    When nothing is playing the call changes no cell and starts nothing. *)
Theorem stopAIAudio_idempotent (c c' : option AudioId) (s : State) :
  exists s1 s2,
    stopAIAudio c s = JS.Normal s1
    /\ stopAIAudio c' s1 = JS.Normal s2
    /\ playback_view s1 = (None, false, None)
    /\ playback_view s2 = playback_view s1
    /\ same_but_audio s1 s2
    /\ (c' = c \/ c' = None -> the_audios s2 = the_audios s1)
    /\ (nothing_playing s -> same_but_audio s s1 /\ nothing_playing s1).
Proof.
  set (s1 := JS.state_of (stopAIAudio c s)).
  set (s2 := JS.state_of (stopAIAudio c' s1)).
  exists s1, s2.
  assert (Hv1 : playback_view s1 = (None, false, None))
    by apply stopAIAudio_view.
  assert (Hv2 : playback_view s2 = (None, false, None))
    by apply stopAIAudio_view.
  split; [apply stopAIAudio_normal|].
  split; [apply stopAIAudio_normal|].
  split; [exact Hv1|]. split; [congruence|].
  assert (Hcells : forall k t,
             playback_view t = (None, false, None) ->
             same_but_audio t (JS.state_of (stopAIAudio k t))).
  { intros k t Ht. unfold same_but_audio.
    rewrite stopAIAudio_hooks, stopAIAudio_refs.
    destruct (stopAIAudio_rest k t) as (-> & -> & -> & ->).
    unfold playback_view in Ht. injection Ht as Hr Hsp Hca.
    destruct t as [[[sid act ca] ? ? ? ? ? sp ? ?] r b].
    destruct r. cbn in *. subst. auto 10. }
  split; [apply Hcells, Hv1|].
  split.
  - intros Hc. unfold s2. rewrite stopAIAudio_audios.
    unfold playback_view in Hv1. injection Hv1 as -> _ _.
    destruct Hc as [-> | ->]; [|reflexivity].
    destruct c as [a|]; [|reflexivity].
    unfold s1. rewrite stopAIAudio_audios.
    apply alter_stopped_twice.
  - intros [Hv Hp]. split; [apply Hcells, Hv|].
    split; [exact Hv1|].
    unfold all_paused, s1. rewrite stopAIAudio_audios.
    unfold playback_view in Hv. injection Hv as -> _ _.
    destruct c as [a|]; [apply alter_stopped_paused|]; exact Hp.
Qed.

Lemma stopAIAudio_idempotent_witness :
  exists s1 s2,
    stopAIAudio None initial = JS.Normal s1
    /\ stopAIAudio None s1 = JS.Normal s2
    /\ playback_view s2 = playback_view s1
    /\ the_audios s2 = the_audios s1
    /\ same_but_audio initial s1.
Proof.
  destruct (stopAIAudio_idempotent None None initial)
    as (s1 & s2 & H1 & H2 & _ & Hv & _ & Ha & Hn).
  exists s1, s2.
  split; [exact H1|]. split; [exact H2|]. split; [exact Hv|].
  split; [apply Ha; now left|].
  apply Hn. split; [reflexivity|].
  intros [|a] el Hl; discriminate.
Defined.

End StopIdempotent.

Section Recording.

Lemma startRecording_normal (c : option AudioId) (s : State) :
  startRecording c s = JS.Normal (JS.state_of (startRecording c s)).
Proof.
  unfold startRecording.
  destruct (mediaStreamRef _); [destruct (recorder_is_recording s)|];
    reflexivity.
Qed.

Lemma startRecording_vad (c : option AudioId) (l : LoopId) (s : State) :
  vad_view l (JS.state_of (startRecording c s)) = vad_view l s.
Proof.
  unfold startRecording.
  destruct (mediaStreamRef _); [destruct (recorder_is_recording s)|];
    reflexivity.
Qed.

Lemma stopRecording_vad (l : LoopId) (s : State) :
  vad_view l (stopRecording s) = vad_view l s.
Proof.
  unfold stopRecording, recorder_stop.
  destruct (recorder_is_recording s); [|reflexivity].
  cbn. destruct (mediaRecorderRef _); reflexivity.
Qed.

Lemma stopAIAudio_vad (c : option AudioId) (l : LoopId) (s : State) :
  vad_view l (JS.state_of (stopAIAudio c s)) = vad_view l s.
Proof.
  unfold vad_view. rewrite stopAIAudio_refs.
  destruct (stopAIAudio_rest c s) as (_ & _ & -> & _). reflexivity.
Qed.

Lemma speech_detected_normal (l : LoopId) (c : option AudioId) (now : Z)
    (s : State) :
  speech_detected l c now s
  = JS.Normal (JS.state_of (speech_detected l c now s)).
Proof.
  unfold speech_detected.
  destruct (negb _); [|reflexivity].
  destruct (speechStartTimeRef _); [|reflexivity].
  destruct (_ >? _); [|reflexivity].
  rewrite stopAIAudio_normal. cbn [JS.andThen].
  rewrite startRecording_normal. reflexivity.
Qed.

Lemma detectVoice_normal (l : LoopId) (rms : Q) (now : Z) (s : State) :
  detectVoice l rms now s = JS.Normal (JS.state_of (detectVoice l rms now s)).
Proof.
  unfold detectVoice.
  destruct (_ !! l) as [lp|]; [|reflexivity].
  destruct (negb _); [reflexivity|].
  destruct (Qgtb _ _); [|destruct (Qltb _ _); reflexivity].
  rewrite speech_detected_normal. reflexivity.
Qed.

End Recording.

Section VadRefinement.

Lemma vad_view_upd_loop (l : LoopId) (f : VadLoop -> VadLoop) (s : State) :
  vad_view l (upd_loop l f s)
  = mkView (v_active (vad_view l s)) (v_speaking (vad_view l s))
           (v_candidate (vad_view l s)) (f <$> v_loop (vad_view l s)).
Proof. unfold vad_view. cbn. now rewrite list_lookup_alter_eq. Qed.

Lemma speech_detected_vad (l : LoopId) (c : option AudioId) (now : Z)
    (s : State) :
  vad_view l (JS.state_of (speech_detected l c now s))
  = (let v := vad_view l (set_lastSpeechTime l now s) in
     if negb (v_speaking v) then
       match v_candidate v with
       | None => mkView (v_active v) false (Some now) (v_loop v)
       | Some t0 =>
           mkView (v_active v) (now - t0 >? MIN_SPEECH_DURATION) (Some t0)
                  (v_loop v)
       end
     else v).
Proof.
  unfold speech_detected. cbv zeta.
  generalize (set_lastSpeechTime l now s). intros s1.
  cbn [vad_view v_speaking v_candidate v_active v_loop].
  destruct (isSpeakingRef (refs s1)) eqn:Hsp; cbn [negb]; [reflexivity|].
  destruct (speechStartTimeRef (refs s1)) as [t0|] eqn:Hc.
  2:{ cbn [JS.state_of]. unfold vad_view. cbn. now rewrite Hsp. }
  destruct (now - t0 >? MIN_SPEECH_DURATION) eqn:Hd.
  - rewrite stopAIAudio_normal. cbn [JS.andThen].
    rewrite startRecording_vad, stopAIAudio_vad.
    unfold vad_view. cbn. now rewrite Hc.
  - cbn [JS.state_of]. unfold vad_view. now rewrite Hsp, Hc.
Qed.

Lemma silence_detected_vad (l : LoopId) (lst now : Z) (s : State) :
  vad_view l (silence_detected l lst now s)
  = (let v := vad_view l (set_lastSilenceTime l now s) in
     if v_speaking v && (now - lst >? SILENCE_DURATION)
     then mkView (v_active v) false None (v_loop v)
     else v).
Proof.
  unfold silence_detected. cbv zeta.
  generalize (set_lastSilenceTime l now s). intros s1.
  cbn [vad_view v_speaking].
  destruct (isSpeakingRef (refs s1) && _); [|reflexivity].
  rewrite stopRecording_vad. reflexivity.
Qed.

(** On the cells of the detector, an animation frame of loop [l] is
    [vad_frame]. *)
Lemma step_frame_vad (l : LoopId) (rms : Q) (now : Z) (s : State) :
  vad_view l (step (AnimationFrame l rms now) s)
  = vad_frame rms now (vad_view l s).
Proof.
  cbn [step]. unfold vad_frame. cbn [vad_view v_loop].
  destruct (the_loops s !! l) as [lp|] eqn:Hlp; [|reflexivity].
  destruct (scheduled lp) eqn:Hsch; [|reflexivity].
  rewrite detectVoice_normal. cbn [JS.state_of].
  unfold detectVoice.
  assert (H0 : the_loops (set_scheduled l false s) !! l
               = Some (mkLoop (lastSpeechTime lp) (lastSilenceTime lp) false
                              (loopSession lp))).
  { cbn. now rewrite list_lookup_alter_eq, Hlp. }
  rewrite H0. clear H0.
  change (sessionActiveRef (refs (set_scheduled l false s)))
    with (sessionActiveRef (refs s)).
  cbn [v_active v_speaking v_candidate].
  destruct (sessionActiveRef (refs s)) eqn:Hact; cbn [negb].
  2:{ unfold vad_view. cbn. rewrite list_lookup_alter_eq, Hlp, Hact.
      reflexivity. }
  cbv zeta. cbn [lastSilenceTime loopSession lastSpeechTime].
  set (s1 := if negb _ then _ else _).
  assert (Hs1 : vad_view l s1 = vad_view l (set_scheduled l false s)).
  { unfold s1. destruct (negb _); reflexivity. }
  assert (Hfin : forall t, vad_view l (t |> set_scheduled l true
                                        |> set_rafRef (Some l))
                 = vad_view l (set_scheduled l true t)) by reflexivity.
  unfold set_scheduled, set_lastSpeechTime, set_lastSilenceTime in *.
  destruct (Qgtb rms SPEECH_THRESHOLD).
  - rewrite speech_detected_normal. cbn [JS.andThen JS.state_of].
    rewrite Hfin, vad_view_upd_loop, speech_detected_vad. cbv zeta.
    unfold set_lastSpeechTime.
    rewrite !vad_view_upd_loop, Hs1, vad_view_upd_loop.
    unfold vad_view. cbn. rewrite Hlp, Hact. cbn.
    destruct (isSpeakingRef (refs s)); cbn; [reflexivity|].
    destruct (speechStartTimeRef (refs s)); reflexivity.
  - destruct (Qltb rms SILENCE_THRESHOLD); cbn [JS.andThen JS.state_of].
    + rewrite Hfin, vad_view_upd_loop, silence_detected_vad. cbv zeta.
      unfold set_lastSilenceTime.
      rewrite !vad_view_upd_loop, Hs1, vad_view_upd_loop.
      unfold vad_view. cbn. rewrite Hlp, Hact. cbn.
      destruct (isSpeakingRef (refs s) && _); reflexivity.
    + rewrite Hfin, vad_view_upd_loop, Hs1, vad_view_upd_loop.
      unfold vad_view. cbn. rewrite Hlp, Hact. reflexivity.
Qed.

End VadRefinement.

Section VadTiming.

Lemma run_app (es1 es2 : list Event) (s : State) :
  run (es1 ++ es2) s = run es2 (run es1 s).
Proof. unfold run. apply fold_left_app. Qed.

Lemma run_frames_vad (l : LoopId) (pre : list (Q * Z)) :
  forall s, vad_view l (run (frames l pre) s) = vad_run pre (vad_view l s).
Proof.
  induction pre as [|[rms now] pre IH]; intros s; [reflexivity|].
  cbn [frames map run fold_left vad_run fst snd].
  rewrite <- step_frame_vad. apply IH.
Qed.

Lemma vad_run_cons (x : Q * Z) (pre : list (Q * Z)) (v : VadView) :
  vad_run (x :: pre) v = vad_run pre (vad_frame (fst x) (snd x) v).
Proof. reflexivity. Qed.

Lemma vad_run_snoc (pre : list (Q * Z)) (x : Q * Z) (v : VadView) :
  vad_run (pre ++ [x]) v = vad_frame (fst x) (snd x) (vad_run pre v).
Proof. unfold vad_run. now rewrite fold_left_app. Qed.

Lemma Qgtb_lt (x y : Q) : Qgtb x y = true -> (y < x)%Q.
Proof.
  unfold Qgtb. destruct (x ?= y)%Q eqn:H; try discriminate.
  intros _. now apply Qgt_alt.
Qed.

Lemma Qltb_lt (x y : Q) : Qltb x y = true -> (x < y)%Q.
Proof.
  unfold Qltb. destruct (x ?= y)%Q eqn:H; try discriminate.
  intros _. now apply Qlt_alt.
Qed.

(** A frame that does not run changes neither flag nor candidate nor the
    loop's times, and the loop still does not run after it. *)
Lemma vad_frame_idle (rms : Q) (now : Z) (v : VadView) :
  view_runs v = false ->
  let v' := vad_frame rms now v in
  view_runs v' = false /\ v_speaking v' = v_speaking v
  /\ v_candidate v' = v_candidate v.
Proof.
  unfold view_runs, vad_frame. destruct v as [act sp cand [lp|]]; cbn.
  - destruct (scheduled lp) eqn:Hs; cbn; [|rewrite Hs; auto].
    destruct act; cbn; [discriminate|]. auto.
  - auto.
Qed.

Lemma vad_frame_runs (rms : Q) (now : Z) (v : VadView) :
  view_runs v = true -> view_runs (vad_frame rms now v) = true.
Proof.
  unfold view_runs, vad_frame. destruct v as [act sp cand [lp|]]; cbn.
  - destruct act, (scheduled lp); cbn; try discriminate. intros _.
    destruct (Qgtb _ _).
    + destruct sp; cbn; [reflexivity|]. destruct cand; reflexivity.
    + destruct (Qltb _ _); [|reflexivity].
      destruct (sp && _); reflexivity.
  - now rewrite andb_false_r.
Qed.

Lemma vad_run_idle (pre : list (Q * Z)) :
  forall v, view_runs v = false ->
    view_runs (vad_run pre v) = false
    /\ v_speaking (vad_run pre v) = v_speaking v.
Proof.
  induction pre as [|x pre IH]; intros v Hv; [auto|].
  rewrite vad_run_cons.
  destruct (vad_frame_idle (fst x) (snd x) v Hv) as (H1 & H2 & _).
  destruct (IH _ H1) as (H3 & H4).
  split; [exact H3|]. now rewrite H4.
Qed.

(** A speech start needs a sample above the speech threshold that comes
    more than the minimum speech duration after the candidate start. *)
Lemma vad_frame_start (rms : Q) (now : Z) (v : VadView) :
  v_speaking v = false -> v_speaking (vad_frame rms now v) = true ->
  view_runs v = true /\ Qgtb rms SPEECH_THRESHOLD = true
  /\ exists t0, v_candidate v = Some t0 /\ now - t0 > MIN_SPEECH_DURATION.
Proof.
  unfold view_runs, vad_frame.
  destruct v as [act sp cand [lp|]]; cbn; [|congruence].
  intros ->. destruct (scheduled lp); [|discriminate].
  destruct act; cbn; [|discriminate].
  destruct (Qgtb rms SPEECH_THRESHOLD); cbn.
  - destruct cand as [t0|]; cbn; [|discriminate].
    intros H. repeat split. exists t0. split; [reflexivity|].
    apply Z.gtb_lt in H. lia.
  - destruct (Qltb _ _); cbn; discriminate.
Qed.

(** A speech end needs a sample below the silence threshold that comes
    more than the silence duration after [lastSpeechTime]. *)
Lemma vad_frame_end (rms : Q) (now : Z) (v : VadView) :
  v_speaking v = true -> v_speaking (vad_frame rms now v) = false ->
  view_runs v = true /\ Qltb rms SILENCE_THRESHOLD = true
  /\ exists lp, v_loop v = Some lp
                /\ now - lastSpeechTime lp > SILENCE_DURATION.
Proof.
  unfold view_runs, vad_frame.
  destruct v as [act sp cand [lp|]]; cbn; [|congruence].
  intros ->. destruct (scheduled lp); [|discriminate].
  destruct act; cbn; [|discriminate].
  destruct (Qgtb rms SPEECH_THRESHOLD); cbn; [discriminate|].
  destruct (Qltb _ _); cbn; [|discriminate].
  destruct (now - lastSpeechTime lp >? SILENCE_DURATION) eqn:H; cbn;
    [|discriminate].
  intros _. repeat split. exists lp. split; [reflexivity|].
  apply Z.gtb_lt in H. lia.
Qed.

(** While the detector stays silent, the candidate, once set, is kept;
    it is set by the first sample above the speech threshold. *)
Lemma vad_run_candidate (pre : list (Q * Z)) :
  forall v t0,
    view_runs v = true ->
    (forall p q, pre = p ++ q -> v_speaking (vad_run p v) = false) ->
    v_candidate (vad_run pre v) = Some t0 ->
    v_candidate v = Some t0
    \/ (v_candidate v = None /\ first_above pre = Some t0).
Proof.
  induction pre as [|[rms now] pre IH]; intros v t0 Hrun Hq Hc.
  - left. exact Hc.
  - rewrite vad_run_cons in Hc. cbn [fst snd] in Hc.
    assert (Hsp0 : v_speaking v = false) by (apply (Hq [] _ eq_refl)).
    assert (Hsp1 : v_speaking (vad_frame rms now v) = false)
      by (apply (Hq [(rms, now)] pre eq_refl)).
    destruct (IH (vad_frame rms now v) t0) as [H|[H1 H2]].
    + now apply vad_frame_runs.
    + intros p q ->. apply (Hq ((rms, now) :: p) q eq_refl).
    + exact Hc.
    + (* the candidate after the first frame is [t0] *)
      revert Hrun Hsp0 Hsp1 H. unfold view_runs, vad_frame.
      destruct v as [act sp cand [lp|]]; cbn;
        [|rewrite andb_false_r; discriminate].
      destruct act, (scheduled lp); cbn; try discriminate.
      intros _ ->. cbn.
      destruct (Qgtb rms SPEECH_THRESHOLD); cbn.
      * destruct cand as [c|]; cbn; intros _ [= <-]; auto.
      * destruct (Qltb _ _); cbn; auto.
    + revert Hrun Hsp0 Hsp1 H1. unfold view_runs, vad_frame.
      destruct v as [act sp cand [lp|]]; cbn;
        [|rewrite andb_false_r; discriminate].
      destruct act, (scheduled lp); cbn; try discriminate.
      intros _ ->. cbn.
      destruct (Qgtb rms SPEECH_THRESHOLD); cbn.
      * destruct cand as [c|]; cbn; discriminate.
      * destruct (Qltb _ _); cbn; intros _ ->; auto.
Qed.

Lemma last_above_snoc (pre : list (Q * Z)) (rms : Q) (t : Z) :
  last_above (pre ++ [(rms, t)])
  = if Qgtb rms SPEECH_THRESHOLD then Some t else last_above pre.
Proof.
  induction pre as [|[r0 t0] pre IH]; cbn.
  - reflexivity.
  - rewrite IH. destruct (Qgtb rms SPEECH_THRESHOLD); [reflexivity|].
    reflexivity.
Qed.

(** When the detector, silent at first, is speaking after the samples,
    [lastSpeechTime] is the time of the last sample above the speech
    threshold. *)
Lemma vad_run_lastSpeechTime (pre : list (Q * Z)) (v : VadView) :
  view_runs (vad_run pre v) = true ->
  v_speaking v = false ->
  v_speaking (vad_run pre v) = true ->
  exists t0 lp,
    last_above pre = Some t0 /\ v_loop (vad_run pre v) = Some lp
    /\ lastSpeechTime lp = t0.
Proof.
  induction pre as [|[rms now] pre IH] using rev_ind; intros Hrun Hsp0 Hsp.
  - cbn in Hsp. congruence.
  - rewrite vad_run_snoc in *. cbn [fst snd] in *.
    rewrite last_above_snoc.
    destruct (view_runs (vad_run pre v)) eqn:Hrun'.
    2:{ destruct (vad_frame_idle rms now _ Hrun') as (H & _). congruence. }
    revert IH Hsp Hrun' Hrun. unfold view_runs, vad_frame.
    destruct (vad_run pre v) as [act sp cand [lp|]]; cbn;
      [|rewrite andb_false_r; discriminate].
    destruct act, (scheduled lp); cbn; try discriminate.
    destruct (Qgtb rms SPEECH_THRESHOLD); cbn.
    + intros _ _ _ _. destruct sp; [|destruct cand]; cbn; eauto.
    + destruct (Qltb _ _); cbn.
      * destruct sp; cbn; [|discriminate].
        destruct (_ >? _); cbn; [discriminate|].
        intros IH _ _ _. destruct IH as (t0 & lp' & H1 & [= <-] & H3); auto.
        eauto.
      * intros IH -> _ _.
        destruct IH as (t0 & lp' & H1 & [= <-] & H3); auto. eauto.
Qed.

End VadTiming.

Section VadProperties.

Lemma emission_runs (l : LoopId) (pre : list (Q * Z)) (s : State) :
  view_runs (vad_run pre (vad_view l s)) = true ->
  view_runs (vad_view l s) = true.
Proof.
  intros H. destruct (view_runs (vad_view l s)) eqn:Hv; [reflexivity|].
  destruct (vad_run_idle pre _ Hv) as (H' & _). congruence.
Qed.

(** C4, as the code has it.  Take the detector silent with no candidate
    start, and samples during which it stays silent.  If the next sample
    makes it report a speech start, that sample is above the speech
    threshold and comes more than [MIN_SPEECH_DURATION] after the first
    sample that was above the threshold.  (Nothing is required of the
    samples in between.) *)
Theorem speechStart_after_first_above (l : LoopId) (s : State)
    (pre : list (Q * Z)) (rms : Q) (now : Z) :
  speechStartTimeRef (refs s) = None ->
  (forall p q, pre = p ++ q ->
               isSpeakingRef (refs (run (frames l p) s)) = false) ->
  speechStart_at (run (frames l pre) s) (AnimationFrame l rms now) = true ->
  (SPEECH_THRESHOLD < rms)%Q
  /\ exists t0, first_above pre = Some t0
                /\ now - t0 > MIN_SPEECH_DURATION.
Proof.
  intros Hc Hq Hemit. unfold speechStart_at in Hemit.
  apply andb_true_iff in Hemit as [H0 H1]. apply negb_true_iff in H0.
  change (v_speaking (vad_view l (run (frames l pre) s)) = false) in H0.
  change (v_speaking
            (vad_view l (step (AnimationFrame l rms now)
                              (run (frames l pre) s))) = true) in H1.
  rewrite step_frame_vad in H1. rewrite run_frames_vad in H0, H1.
  destruct (vad_frame_start _ _ _ H0 H1) as (Hrun & Hgt & t0 & Ht0 & Hd).
  split; [now apply Qgtb_lt|].
  exists t0. split; [|exact Hd].
  destruct (vad_run_candidate pre (vad_view l s) t0) as [H|[_ H]].
  - eapply emission_runs; eassumption.
  - intros p q Hp. rewrite <- run_frames_vad. apply (Hq p q Hp).
  - exact Ht0.
  - cbn in H. congruence.
  - exact H.
Qed.

Lemma speechStart_after_first_above_witness :
  (SPEECH_THRESHOLD < 2 # 100)%Q
  /\ exists t0, first_above dip_samples = Some t0
                /\ 1101 - t0 > MIN_SPEECH_DURATION.
Proof.
  apply (speechStart_after_first_above 0 (run session_started initial)
           dip_samples (2 # 100) 1101).
  - reflexivity.
  - intros p q H. unfold dip_samples in H.
    destruct p as [|x [|y [|z p]]]; cbn in H.
    + reflexivity.
    + injection H as <- _. reflexivity.
    + injection H as <- <- _. reflexivity.
    + discriminate.
  - reflexivity.
Defined.

(** The speech start is reported at 1101 ms although the level fell below
    the speech threshold (and below the silence threshold) at 1050 ms,
    between the candidate start and the report. *)
Lemma speechStart_despite_dip :
  speechStart_at (run (frames 0 dip_samples) (run session_started initial))
                 (AnimationFrame 0 (2 # 100) 1101) = true
  /\ first_above dip_samples = Some 1000
  /\ In ((1 # 1000)%Q, 1050) dip_samples
  /\ (1 # 1000 <= SPEECH_THRESHOLD)%Q
  /\ 1000 < 1050 < 1101.
Proof.
  split; [reflexivity|]. split; [reflexivity|].
  split; [right; left; reflexivity|].
  split; [|lia]. unfold SPEECH_THRESHOLD, Qle. cbn. lia.
Qed.

(** C5, as the code has it.  From a silent detector, if after the samples
    the next one makes it report a speech end, that sample is below the
    silence threshold and comes more than [SILENCE_DURATION] after the
    last sample that was above the speech threshold. *)
Theorem speechEnd_after_last_above (l : LoopId) (s : State)
    (pre : list (Q * Z)) (rms : Q) (now : Z) :
  isSpeakingRef (refs s) = false ->
  speechEnd_at (run (frames l pre) s) (AnimationFrame l rms now) = true ->
  (rms < SILENCE_THRESHOLD)%Q
  /\ exists t0, last_above pre = Some t0
                /\ now - t0 > SILENCE_DURATION.
Proof.
  intros Hs0 Hemit. unfold speechEnd_at in Hemit.
  apply andb_true_iff in Hemit as [H0 H1]. apply negb_true_iff in H1.
  change (v_speaking (vad_view l (run (frames l pre) s)) = true) in H0.
  change (v_speaking
            (vad_view l (step (AnimationFrame l rms now)
                              (run (frames l pre) s))) = false) in H1.
  rewrite step_frame_vad in H1. rewrite run_frames_vad in H0, H1.
  destruct (vad_frame_end _ _ _ H0 H1) as (Hrun & Hlt & lp & Hlp & Hd).
  split; [now apply Qltb_lt|].
  destruct (vad_run_lastSpeechTime pre (vad_view l s) Hrun Hs0 H0)
    as (t0 & lp' & Hlast & Hlp' & Ht0).
  exists t0. split; [exact Hlast|]. congruence.
Qed.

Lemma speechEnd_after_last_above_witness :
  (1 # 1000 < SILENCE_THRESHOLD)%Q
  /\ exists t0, last_above dead_zone_samples = Some t0
                /\ 1802 - t0 > SILENCE_DURATION.
Proof.
  apply (speechEnd_after_last_above 0 (run session_started initial)
           dead_zone_samples (1 # 1000) 1802); reflexivity.
Defined.

(** The speech end is reported at 1802 ms, 2 ms after a sample above the
    silence threshold: only samples above the speech threshold count. *)
Lemma speechEnd_soon_after_dead_zone :
  speechEnd_at (run (frames 0 dead_zone_samples)
                    (run session_started initial))
               (AnimationFrame 0 (1 # 1000) 1802) = true
  /\ In ((1 # 100)%Q, 1800) dead_zone_samples
  /\ (SILENCE_THRESHOLD < 1 # 100)%Q
  /\ 1802 - 1800 < SILENCE_DURATION.
Proof.
  split; [reflexivity|]. split; [do 3 right; left; reflexivity|].
  split; [|unfold SILENCE_DURATION; lia].
  unfold SILENCE_THRESHOLD, Qlt. cbn. lia.
Qed.

End VadProperties.

Section BargeIn.

Lemma pause_and_rewind_live (a : AudioId) (el : HTMLAudioElement)
    (s : State) :
  the_audios s !! a = Some el -> faulty el = false ->
  pause_and_rewind a s
  = JS.Normal (s |> emit (AudioPause a) |> with_audios (alter rewound a)).
Proof. intros H1 H2. unfold pause_and_rewind. now rewrite H1, H2. Qed.

Lemma pause_and_rewind_effects (a : AudioId) (s : State) :
  the_effects (JS.state_of (pause_and_rewind a s)) = the_effects s
  \/ the_effects (JS.state_of (pause_and_rewind a s))
     = the_effects s ++ [AudioPause a].
Proof.
  unfold pause_and_rewind.
  destruct (_ !! a) as [el|]; [destruct (faulty el)|]; cbn; auto.
Qed.

(** [stopAIAudio] on a live handle [a]: one log line, the pause of [a],
    then at most the pause of the closure's element. *)
Lemma stopAIAudio_live (c : option AudioId) (a : AudioId)
    (el : HTMLAudioElement) (s : State) :
  currentAudioRef (refs s) = Some a ->
  the_audios s !! a = Some el -> faulty el = false ->
  exists extra,
    the_effects (JS.state_of (stopAIAudio c s))
    = the_effects s
      ++ [ConsoleLog "[Audio] Interrupting AI speech"; AudioPause a]
      ++ extra
    /\ (extra = [] \/ exists x, extra = [AudioPause x])
    /\ exists el', the_audios (JS.state_of (stopAIAudio c s)) !! a = Some el'
                   /\ paused el' = true /\ onended el' = false.
Proof.
  intros Href Hel Hf.
  assert (Hau : exists el', the_audios (JS.state_of (stopAIAudio c s)) !! a
                            = Some el'
                            /\ paused el' = true /\ onended el' = false).
  { rewrite stopAIAudio_audios, Href.
    assert (H1 : alter stopped a (the_audios s) !! a = Some (rewound el)).
    { rewrite list_lookup_alter_eq, Hel. cbn. unfold stopped.
      now rewrite Hf. }
    destruct c as [x|]; [|eauto].
    rewrite list_lookup_alter. case_decide; [subst|eauto].
    rewrite H1. cbn. unfold stopped. cbn. rewrite Hf. eauto. }
  assert (Heff : exists extra,
             the_effects (JS.state_of (stopAIAudio c s))
             = the_effects s
               ++ [ConsoleLog "[Audio] Interrupting AI speech"; AudioPause a]
               ++ extra
             /\ (extra = [] \/ exists x, extra = [AudioPause x])).
  { unfold stopAIAudio, JS.try_swallow.
    change (currentAudioRef
              (refs (console_log "[Audio] Interrupting AI speech" s)))
      with (currentAudioRef (refs s)).
    rewrite Href.
    rewrite (pause_and_rewind_live a el) by assumption.
    cbn [JS.state_of JS.andThen].
    destruct c as [x|]; cbn [JS.state_of JS.andThen].
    - match goal with
      | |- context [pause_and_rewind x ?t] =>
          destruct (pause_and_rewind_effects x t) as [H|H];
          [exists [] | exists [AudioPause x]]
      end; (split; [|eauto]); cbn in *; rewrite H;
        cbn; rewrite <- ?app_assoc; reflexivity.
    - exists []. split; [|auto].
      cbn. rewrite <- app_assoc. reflexivity. }
  destruct Heff as (extra & H1 & H2). exists extra. auto.
Qed.

Lemma alter_snoc {A} (f : A -> A) (l : list A) (x : A) :
  alter f (length l) (l ++ [x]) = l ++ [f x].
Proof.
  replace (length l) with (length l + 0)%nat by lia.
  now rewrite alter_app_r.
Qed.

(** [startRecording] with a stream and no recording under way. *)
Lemma startRecording_opens (c : option AudioId) (stream : StreamId)
    (s : State) :
  mediaStreamRef (refs s) = Some stream ->
  recorder_is_recording s = false ->
  exists s',
    startRecording c s = JS.Normal s'
    /\ the_recorders s'
       = the_recorders s ++ [mkRecorder recording false stream c]
    /\ mediaRecorderRef (refs s') = Some (length (the_recorders s))
    /\ currentAudioRef (refs s') = currentAudioRef (refs s)
    /\ the_audios s' = the_audios s
    /\ the_tasks s' = the_tasks s
    /\ the_effects s'
       = the_effects s ++ [ConsoleLog "[VAD] Starting recording";
                           RecorderStart (length (the_recorders s))]
    /\ hooks s' = hooks (setIsUserSpeaking true s)
    /\ isSpeakingRef (refs s') = isSpeakingRef (refs s).
Proof.
  intros Hst Hrec. unfold startRecording. rewrite Hst, Hrec.
  eexists. split; [reflexivity|]. cbn.
  rewrite alter_snoc, <- app_assoc. cbn. auto 10.
Qed.

(** A frame that confirms speech: [stopAIAudio], then [startRecording],
    then the next frame is requested. *)
Lemma frame_confirms_speech (l : LoopId) (lp : VadLoop) (s : State)
    (rms : Q) (now t0 : Z) :
  the_loops s !! l = Some lp -> scheduled lp = true ->
  sessionActiveRef (refs s) = true ->
  isSpeakingRef (refs s) = false ->
  speechStartTimeRef (refs s) = Some t0 ->
  now - t0 > MIN_SPEECH_DURATION -> (SPEECH_THRESHOLD < rms)%Q ->
  step (AnimationFrame l rms now) s
  = (JS.state_of
       (startRecording (loopSession lp)
          (JS.state_of
             (stopAIAudio (loopSession lp) (speech_confirmed l lp rms now s))))
     |> set_scheduled l true |> set_rafRef (Some l)).
Proof.
  intros Hlp Hsch Hact Hsp Hcand Hdur Hrms.
  assert (Hgt : Qgtb rms SPEECH_THRESHOLD = true).
  { unfold Qgtb. apply Qgt_alt in Hrms. now rewrite Hrms. }
  assert (Hd : (now - t0 >? MIN_SPEECH_DURATION) = true)
    by (apply Z.gtb_lt; lia).
  cbn [step]. rewrite Hlp, Hsch. unfold detectVoice.
  assert (H0 : the_loops (set_scheduled l false s) !! l
               = Some (mkLoop (lastSpeechTime lp) (lastSilenceTime lp)
                              false (loopSession lp))).
  { cbn. now rewrite list_lookup_alter_eq, Hlp. }
  rewrite H0.
  change (sessionActiveRef (refs (set_scheduled l false s)))
    with (sessionActiveRef (refs s)).
  rewrite Hact. cbn [negb]. cbv zeta.
  cbn [lastSilenceTime loopSession lastSpeechTime].
  rewrite Hgt. unfold speech_detected. cbv zeta.
  match goal with
  | |- context [set_lastSpeechTime l now ?t] =>
      assert (Hr : refs (set_lastSpeechTime l now t) = refs s)
        by (cbn; destruct (negb _); reflexivity)
  end.
  rewrite Hr, Hsp, Hcand. cbn [negb]. rewrite Hd.
  rewrite stopAIAudio_normal. cbn [JS.andThen].
  rewrite startRecording_normal. reflexivity.
Qed.

Lemma speech_confirmed_frame (l : LoopId) (lp : VadLoop) (rms : Q) (now : Z)
    (s : State) :
  let s1 := speech_confirmed l lp rms now s in
  refs s1 = refs (set_isSpeakingRef true s)
  /\ the_audios s1 = the_audios s
  /\ the_recorders s1 = the_recorders s
  /\ the_tasks s1 = the_tasks s
  /\ conversationHistory (hooks s1) = conversationHistory (hooks s)
  /\ session (hooks s1) = session (hooks s)
  /\ isProcessing (hooks s1) = isProcessing (hooks s)
  /\ exists dbg,
       the_effects s1
       = the_effects s ++ dbg
         ++ [ConsoleLog "[VAD] Speech detected, starting recording"]
       /\ (dbg = [] \/ dbg = [ConsoleLog "[VAD] RMS"]).
Proof.
  unfold speech_confirmed. cbv zeta.
  destruct (negb _); cbn; repeat (split; [reflexivity|]).
  - exists [ConsoleLog "[VAD] RMS"]. rewrite <- app_assoc. auto.
  - exists []. auto.
Qed.

Lemma statusLabel_AI_Speaking (s : State) :
  statusLabel s = "AI Speaking" ->
  isActive (session (hooks s)) = true /\ isProcessing (hooks s) = false
  /\ isSpeaking (hooks s) = true.
Proof.
  unfold statusLabel.
  destruct (isActive (session (hooks s))), (isProcessing (hooks s)),
           (isSpeaking (hooks s)), (isUserSpeaking (hooks s));
    cbn; intros H; try discriminate H; auto.
Qed.

Lemma statusLabel_Processing (s : State) :
  statusLabel s = "Processing" ->
  isActive (session (hooks s)) = true /\ isProcessing (hooks s) = true.
Proof.
  unfold statusLabel.
  destruct (isActive (session (hooks s))), (isProcessing (hooks s)),
           (isSpeaking (hooks s)), (isUserSpeaking (hooks s));
    cbn; intros H; try discriminate H; auto.
Qed.

(** C6.  Barge-in.  Let the page show "AI Speaking" with the handle [a]
    live, a capture stream be there and no recording be under way, and let
    the frame of loop [l] confirm speech.  Then the handler runs [stopAIAudio] once, on a state where no
    recorder has been added; in the state it returns, [a] is paused and
    the handle is discarded; only from that state is the new recorder
    created and started.  After the frame the status is "You Speaking". *)
Theorem barge_in_stops_then_records (l : LoopId) (lp : VadLoop) (s : State)
    (rms : Q) (now t0 : Z) (a : AudioId) (el : HTMLAudioElement)
    (stream : StreamId) :
  the_loops s !! l = Some lp -> scheduled lp = true ->
  sessionActiveRef (refs s) = true ->
  isSpeakingRef (refs s) = false ->
  speechStartTimeRef (refs s) = Some t0 ->
  now - t0 > MIN_SPEECH_DURATION -> (SPEECH_THRESHOLD < rms)%Q ->
  currentAudioRef (refs s) = Some a ->
  the_audios s !! a = Some el -> live el = true -> faulty el = false ->
  mediaStreamRef (refs s) = Some stream ->
  recorder_is_recording s = false ->
  statusLabel s = "AI Speaking" ->
  exists s_vad s_stop s_rec dbg extra,
    let s' := step (AnimationFrame l rms now) s in
    let r := length (the_recorders s) in
    (* playback stop comes first and is complete when it returns *)
    stopAIAudio (loopSession lp) s_vad = JS.Normal s_stop
    /\ the_recorders s_vad = the_recorders s
    /\ the_recorders s_stop = the_recorders s
    /\ currentAudioRef (refs s_stop) = None
    /\ (exists el', the_audios s_stop !! a = Some el' /\ paused el' = true)
    (* the recording is opened from the stopped state *)
    /\ startRecording (loopSession lp) s_stop = JS.Normal s_rec
    /\ s' = (s_rec |> set_scheduled l true |> set_rafRef (Some l))
    (* the state after the frame *)
    /\ the_recorders s'
       = the_recorders s ++ [mkRecorder recording false stream (loopSession lp)]
    /\ mediaRecorderRef (refs s') = Some r
    /\ currentAudioRef (refs s') = None
    /\ (exists el', the_audios s' !! a = Some el' /\ paused el' = true)
    /\ isSpeakingRef (refs s') = true
    /\ statusLabel s' = "You Speaking"
    (* what the frame did, in order *)
    /\ the_effects s'
       = the_effects s ++ dbg
         ++ [ConsoleLog "[VAD] Speech detected, starting recording";
             ConsoleLog "[Audio] Interrupting AI speech"; AudioPause a]
         ++ extra
         ++ [ConsoleLog "[VAD] Starting recording"; RecorderStart r]
    /\ (dbg = [] \/ dbg = [ConsoleLog "[VAD] RMS"])
    /\ (extra = [] \/ exists x, extra = [AudioPause x]).
Proof.
  intros Hlp Hsch Hact Hsp Hcand Hdur Hrms Href Hel Hlive Hf Hst Hrec
         Hlabel.
  destruct (statusLabel_AI_Speaking s Hlabel) as (Hia & Hproc & _).
  pose proof (frame_confirms_speech l lp s rms now t0 Hlp Hsch Hact Hsp
                Hcand Hdur Hrms) as Hstep.
  destruct (speech_confirmed_frame l lp rms now s)
    as (Hr1 & Ha1 & Hrc1 & _ & _ & Hse1 & Hp1 & dbg & He1 & Hdbg).
  remember (speech_confirmed l lp rms now s) as s_vad eqn:Hsv.
  destruct (stopAIAudio_live (loopSession lp) a el s_vad)
    as (extra & Heff & Hextra & el' & Hel' & Hpaused & _).
  { rewrite Hr1. exact Href. }
  { rewrite Ha1. exact Hel. }
  { exact Hf. }
  destruct (stopAIAudio_rest (loopSession lp) s_vad)
    as (Hrc2 & _ & Hlo2 & Hta2).
  pose proof (stopAIAudio_refs (loopSession lp) s_vad) as Hr2.
  pose proof (stopAIAudio_hooks (loopSession lp) s_vad) as Hh2.
  pose proof (stopAIAudio_normal (loopSession lp) s_vad) as Hn2.
  remember (JS.state_of (stopAIAudio (loopSession lp) s_vad)) as s_stop
    eqn:Hss.
  destruct (startRecording_opens (loopSession lp) stream s_stop)
    as (s_rec & Hstart & Hrc3 & Hmr3 & Hca3 & Hau3 & _ & He3 & Hh3 & Hsr3).
  { rewrite Hr2. cbn. rewrite Hr1. exact Hst. }
  { unfold recorder_is_recording in *. rewrite Hr2, Hrc2. cbn.
    rewrite Hr1, Hrc1. exact Hrec. }
  exists s_vad, s_stop, s_rec, dbg, extra. cbv zeta.
  rewrite Hstep, Hstart. cbn [JS.state_of].
  split; [exact Hn2|].
  split; [exact Hrc1|].
  split; [rewrite Hrc2; exact Hrc1|].
  split; [now rewrite Hr2|].
  split; [eauto|].
  split; [reflexivity|].
  split; [reflexivity|].
  split.
  { change (the_recorders (s_rec |> set_scheduled l true
                                 |> set_rafRef (Some l)))
      with (the_recorders s_rec).
    now rewrite Hrc3, Hrc2, Hrc1. }
  split.
  { change (mediaRecorderRef (refs (s_rec |> set_scheduled l true
                                          |> set_rafRef (Some l))))
      with (mediaRecorderRef (refs s_rec)).
    now rewrite Hmr3, Hrc2, Hrc1. }
  split.
  { change (currentAudioRef (refs (s_rec |> set_scheduled l true
                                         |> set_rafRef (Some l))))
      with (currentAudioRef (refs s_rec)).
    now rewrite Hca3, Hr2. }
  split.
  { exists el'.
    change (the_audios (s_rec |> set_scheduled l true
                              |> set_rafRef (Some l)))
      with (the_audios s_rec).
    rewrite Hau3. auto. }
  split.
  { change (isSpeakingRef (refs (s_rec |> set_scheduled l true
                                       |> set_rafRef (Some l))))
      with (isSpeakingRef (refs s_rec)).
    rewrite Hsr3, Hr2. cbn. now rewrite Hr1. }
  split.
  { unfold statusLabel.
    change (hooks (s_rec |> set_scheduled l true |> set_rafRef (Some l)))
      with (hooks s_rec).
    rewrite Hh3. cbn. rewrite Hh2. cbn. rewrite Hse1, Hp1, Hia, Hproc.
    reflexivity. }
  split; [|split; [exact Hdbg | exact Hextra]].
  change (the_effects (s_rec |> set_scheduled l true |> set_rafRef (Some l)))
    with (the_effects s_rec).
  rewrite He3, Heff, Hrc2, He1, Hrc1.
  rewrite <- !app_assoc. reflexivity.
Qed.

Lemma barge_in_stops_then_records_witness :
  statusLabel (step (AnimationFrame 0 (2 # 100) 5101) ai_speaking_user_starts)
  = "You Speaking"
  /\ currentAudioRef
       (refs (step (AnimationFrame 0 (2 # 100) 5101) ai_speaking_user_starts))
     = None
  /\ the_effects
       (step (AnimationFrame 0 (2 # 100) 5101) ai_speaking_user_starts)
     = the_effects ai_speaking_user_starts
       ++ [ConsoleLog "[VAD] RMS";
           ConsoleLog "[VAD] Speech detected, starting recording";
           ConsoleLog "[Audio] Interrupting AI speech"; AudioPause 0;
           ConsoleLog "[VAD] Starting recording"; RecorderStart 1].
Proof.
  destruct (barge_in_stops_then_records 0
              (mkLoop 5000 1900 true None) ai_speaking_user_starts
              (2 # 100) 5101 5000 0
              (mkAudio (mkBlob [72; 101; 108; 108; 111] "audio/mpeg")
                       false 0 true false false) 0)
    as (s_vad & s_stop & s_rec & dbg & extra & H);
    try reflexivity.
  cbv zeta in H.
  destruct H as (_ & _ & _ & _ & _ & _ & _ & _ & _ & Href & _ & _ & Hlabel
                 & _).
  split; [exact Hlabel|]. split; [exact Href|]. reflexivity.
Defined.

End BargeIn.

(* ===================================================================== *)
(** ** Requests in flight and late responses *)
(* ===================================================================== *)

Section Requests.

(** C3, as the code has it.  [detectVoice] reads neither [isProcessing]
    nor the pending requests.  With the page in "Processing", a request in
    flight, a capture stream and no recording under way, the frame that
    confirms speech opens a new recorder, exactly as it would while
    listening; the request stays in flight and the page still shows
    "Processing". *)
Theorem speechStart_while_processing (l : LoopId) (lp : VadLoop)
    (s : State) (rms : Q) (now t0 : Z) (stream : StreamId) :
  the_loops s !! l = Some lp -> scheduled lp = true ->
  sessionActiveRef (refs s) = true ->
  isSpeakingRef (refs s) = false ->
  speechStartTimeRef (refs s) = Some t0 ->
  now - t0 > MIN_SPEECH_DURATION -> (SPEECH_THRESHOLD < rms)%Q ->
  mediaStreamRef (refs s) = Some stream ->
  recorder_is_recording s = false ->
  statusLabel s = "Processing" -> (0 < in_flight s)%nat ->
  let s' := step (AnimationFrame l rms now) s in
  the_recorders s'
  = the_recorders s ++ [mkRecorder recording false stream (loopSession lp)]
  /\ mediaRecorderRef (refs s') = Some (length (the_recorders s))
  /\ isSpeakingRef (refs s') = true
  /\ isUserSpeaking (hooks s') = true
  /\ statusLabel s' = "Processing"
  /\ in_flight s' = in_flight s.
Proof.
  intros Hlp Hsch Hact Hsp Hcand Hdur Hrms Hst Hrec Hlabel Hfl. cbv zeta.
  destruct (statusLabel_Processing s Hlabel) as (Hia & Hproc).
  rewrite (frame_confirms_speech l lp s rms now t0) by assumption.
  destruct (speech_confirmed_frame l lp rms now s)
    as (Hr1 & Ha1 & Hrc1 & Hta1 & _ & Hse1 & Hp1 & _).
  remember (speech_confirmed l lp rms now s) as s_vad eqn:Hsv.
  destruct (stopAIAudio_rest (loopSession lp) s_vad)
    as (Hrc2 & _ & Hlo2 & Hta2).
  pose proof (stopAIAudio_refs (loopSession lp) s_vad) as Hr2.
  pose proof (stopAIAudio_hooks (loopSession lp) s_vad) as Hh2.
  remember (JS.state_of (stopAIAudio (loopSession lp) s_vad)) as s_stop
    eqn:Hss.
  destruct (startRecording_opens (loopSession lp) stream s_stop)
    as (s_rec & Hstart & Hrc3 & Hmr3 & Hca3 & Hau3 & Hta3 & He3 & Hh3
        & Hsr3).
  { rewrite Hr2. cbn. rewrite Hr1. exact Hst. }
  { unfold recorder_is_recording in *. rewrite Hr2, Hrc2. cbn.
    rewrite Hr1, Hrc1. exact Hrec. }
  rewrite Hstart. cbn [JS.state_of].
  unfold in_flight.
  change (the_tasks (s_rec |> set_scheduled l true |> set_rafRef (Some l)))
    with (the_tasks s_rec).
  change (the_recorders (s_rec |> set_scheduled l true
                               |> set_rafRef (Some l)))
    with (the_recorders s_rec).
  change (hooks (s_rec |> set_scheduled l true |> set_rafRef (Some l)))
    with (hooks s_rec).
  change (refs (s_rec |> set_scheduled l true |> set_rafRef (Some l)))
    with (refs (set_rafRef (Some l) s_rec)).
  rewrite Hrc3, Hrc2, Hrc1, Hta3, Hta2, Hta1, Hh3.
  split; [reflexivity|].
  split; [cbn; now rewrite Hmr3, Hrc2, Hrc1|].
  split; [cbn; rewrite Hsr3, Hr2; cbn; now rewrite Hr1|].
  split; [reflexivity|].
  split; [|reflexivity].
  unfold statusLabel. cbn. rewrite Hh3. cbn. rewrite Hh2. cbn.
  now rewrite Hse1, Hp1, Hia, Hproc.
Qed.

Lemma speechStart_while_processing_witness :
  the_recorders (step (AnimationFrame 0 (2 # 100) 5101)
                      processing_user_starts)
  = the_recorders processing_user_starts
    ++ [mkRecorder recording false 0 None]
  /\ in_flight (step (AnimationFrame 0 (2 # 100) 5101)
                     processing_user_starts)
     = in_flight processing_user_starts.
Proof.
  destruct (speechStart_while_processing 0 (mkLoop 5000 1900 true None)
              processing_user_starts (2 # 100) 5101 5000 0)
    as (H1 & _ & _ & _ & _ & H2); try reflexivity.
  - unfold in_flight. cbn. lia.
  - split; assumption.
Defined.

(** While the first request is in flight (status "Processing") the second
    speech start opens recorder 1, and when that recording ends a second
    request is sent: two requests are in flight. *)
Lemma second_request_while_processing :
  statusLabel processing_user_starts = "Processing"
  /\ in_flight processing_user_starts = 1%nat
  /\ open_recorders (step (AnimationFrame 0 (2 # 100) 5101)
                          processing_user_starts) = [1%nat]
  /\ in_flight (run second_utterance_while_processing
                    processing_user_starts) = 2%nat.
Proof. repeat split; reflexivity. Qed.

(** [playAIAudio] with a payload that decodes: the handle before the call
    is stopped, a new element is created, made the handle and played. *)
Lemma playAIAudio_plays (c : option AudioId) (base64Audio text : string)
    (blob : Blob) (s : State) :
  base64ToBlob base64Audio "audio/mpeg" = Some blob ->
  exists s',
    playAIAudio c base64Audio text s = JS.Normal s'
    /\ the_audios s'
       = the_audios (JS.state_of (stopAIAudio c s))
         ++ [mkAudio blob false 0 true true false]
    /\ currentAudioRef (refs s') = Some (length (the_audios s))
    /\ isSpeaking (hooks s') = true
    /\ currentAudio (session (hooks s')) = Some (length (the_audios s))
    /\ conversationHistory (hooks s') = conversationHistory (hooks s)
    /\ isProcessing (hooks s') = isProcessing (hooks s)
    /\ the_tasks s' = the_tasks s /\ the_recorders s' = the_recorders s.
Proof.
  intros Hblob. unfold playAIAudio. cbv zeta.
  rewrite stopAIAudio_normal. cbn [JS.andThen]. rewrite Hblob.
  set (s0 := console_log "[Audio] Playing AI response" s).
  assert (Hlen : length (the_audios (JS.state_of (stopAIAudio c s0)))
                 = length (the_audios s)).
  { rewrite stopAIAudio_audios.
    destruct (currentAudioRef (refs s0)), c; cbn;
      now rewrite ?length_alter. }
  assert (Hau : the_audios (JS.state_of (stopAIAudio c s0))
                = the_audios (JS.state_of (stopAIAudio c s))).
  { now rewrite !stopAIAudio_audios. }
  destruct (stopAIAudio_rest c s0) as (Hrc & _ & _ & Hta).
  pose proof (stopAIAudio_hooks c s0) as Hh.
  remember (JS.state_of (stopAIAudio c s0)) as s1 eqn:Hs1.
  eexists. split; [reflexivity|].
  cbn. destruct (JS.truthy_value (sessionIdRef (refs s1))); cbn;
    rewrite !alter_snoc; cbn;
    rewrite Hlen, Hau, Hh, Hta, Hrc; cbn; auto 10.
Qed.

(** C9, as the code has it.  A response that arrives after the session
    was ended is handled like any other.  If it carries audio that
    decodes, the history gets its two entries, a new element is played
    and becomes the handle, [isSpeaking] is set and [isProcessing]
    cleared. *)
Theorem late_response_is_processed (s : State) (k : TaskId)
    (c : option AudioId) (text audio : string)
    (progress : option LearningProgress) (blob : Blob) :
  sessionActiveRef (refs s) = false ->
  sessionIdRef (refs s) = None ->
  the_tasks s !! k = Some (AwaitInteractFetch c) ->
  JS.truthy (Some audio) = true ->
  base64ToBlob audio "audio/mpeg" = Some blob ->
  let s' := step (Interact_settled k
                    (JS.Ok (Response.mk true text (Some audio) progress)))
                 s in
  conversationHistory (hooks s')
  = conversationHistory (hooks s)
    ++ [(user, "[Audio Message]"); (ai, text)]
  /\ currentAudioRef (refs s') = Some (length (the_audios s))
  /\ the_audios s' !! length (the_audios s)
     = Some (mkAudio blob false 0 true true false)
  /\ isSpeaking (hooks s') = true
  /\ isProcessing (hooks s') = false.
Proof.
  intros _ _ Hk Htr Hblob. cbv zeta. cbn [step]. rewrite Hk.
  unfold sendAudioToBackend_resume.
  cbn [Response.aiResponse Response.learningProgress Response.audioResponse
       Response.success andb].
  rewrite Htr.
  match goal with
  | |- context [playAIAudio c audio text ?t0] => set (t := t0)
  end.
  assert (Hl0 : length (the_audios t) = length (the_audios s))
    by (unfold t; destruct progress; reflexivity).
  assert (Hh0 : conversationHistory (hooks t)
                = conversationHistory (hooks s)
                  ++ [(user, "[Audio Message]"); (ai, text)])
    by (unfold t; destruct progress; reflexivity).
  destruct (playAIAudio_plays c audio text blob t Hblob)
    as (s' & Hplay & Hau & Href & Hsp & _ & Hhist & _).
  assert (Hlen : length (the_audios (JS.state_of (stopAIAudio c t)))
                 = length (the_audios s)).
  { rewrite stopAIAudio_audios, <- Hl0.
    destruct (currentAudioRef (refs t)), c; cbn;
      now rewrite ?length_alter. }
  clearbody t. rewrite Hplay. cbn.
  split; [congruence|].
  split; [congruence|].
  split; [|auto].
  rewrite Hau, <- Hlen. now apply list_lookup_middle.
Qed.

Lemma late_response_is_processed_witness :
  conversationHistory
    (hooks (step (Interact_settled 3 (reply "Hello" "SGVsbG8="))
                 ended_with_request_in_flight))
  = [(user, "[Audio Message]"); (ai, "Hello")]
  /\ isSpeaking
       (hooks (step (Interact_settled 3 (reply "Hello" "SGVsbG8="))
                    ended_with_request_in_flight)) = true.
Proof.
  destruct (late_response_is_processed ended_with_request_in_flight 3 None
              "Hello" "SGVsbG8=" None
              (mkBlob [72; 101; 108; 108; 111] "audio/mpeg"))
    as (H1 & _ & _ & H2 & _); try reflexivity.
  split; [exact H1 | exact H2].
Defined.

(** The session was ended and shows "Ready"; the reply to the request
    that was in flight then arrives: the history grows, element 0 is
    played and the page shows the AI as speaking. *)
Lemma late_response_changes_state :
  statusLabel ended_with_request_in_flight = "Ready"
  /\ sessionIdRef (refs ended_with_request_in_flight) = None
  /\ conversationHistory (hooks ended_with_request_in_flight) = []
  /\ live_audios ended_with_request_in_flight = []
  /\ conversationHistory
       (hooks (step (Interact_settled 3 (reply "Hello" "SGVsbG8="))
                    ended_with_request_in_flight))
     = [(user, "[Audio Message]"); (ai, "Hello")]
  /\ live_audios (step (Interact_settled 3 (reply "Hello" "SGVsbG8="))
                       ended_with_request_in_flight) = [0%nat]
  /\ isSpeaking
       (hooks (step (Interact_settled 3 (reply "Hello" "SGVsbG8="))
                    ended_with_request_in_flight)) = true
  /\ last (the_effects
             (step (Interact_settled 3 (reply "Hello" "SGVsbG8="))
                   ended_with_request_in_flight)) = Some (AudioPlay 0).
Proof. repeat split; reflexivity. Qed.

End Requests.

(* ===================================================================== *)
(** ** Session start and end *)
(* ===================================================================== *)

Section SessionLifecycle.

(** C8, as the code has it.  A failed start request leaves every ref, the
    React session and the browser objects as they were and records an
    error.  A failure of [initializeAudio] (microphone refused, or the
    audio graph cannot be built) records an error and starts neither a
    loop nor a recorder, but [sessionIdRef], [sessionActiveRef] and the
    React session keep what the successful start request stored. *)
Theorem start_failure_effects (s : State) (k : TaskId)
    (c : option AudioId) :
  (the_tasks s !! k = Some (AwaitStartFetch c) ->
   forall r, (r = JS.NotOk \/ exists m, r = JS.Rejected m) ->
     let s' := step (Start_settled k r) s in
     refs s' = refs s /\ session (hooks s') = session (hooks s)
     /\ statusLabel s' = statusLabel s
     /\ is_Some (error (hooks s'))
     /\ the_streams s' = the_streams s /\ the_loops s' = the_loops s
     /\ the_recorders s' = the_recorders s)
  /\ (the_tasks s !! k = Some (AwaitUserMedia c) ->
      forall message rms now,
        let s' := step (UserMedia_settled k (MediaDenied message) rms now)
                       s in
        refs s' = refs s /\ session (hooks s') = session (hooks s)
        /\ error (hooks s') = Some message
        /\ the_streams s' = the_streams s /\ the_loops s' = the_loops s
        /\ the_recorders s' = the_recorders s)
  /\ (the_tasks s !! k = Some (AwaitUserMedia c) ->
      forall message rms now,
        let s' := step (UserMedia_settled k (MediaGranted (Some message))
                                          rms now) s in
        refs s' = refs (set_mediaStreamRef (Some (length (the_streams s))) s)
        /\ session (hooks s') = session (hooks s)
        /\ error (hooks s') = Some message
        /\ the_streams s' = the_streams s ++ [mkStream true]
        /\ the_loops s' = the_loops s
        /\ the_recorders s' = the_recorders s).
Proof.
  split; [|split].
  - intros Hk r [-> | [m ->]]; cbn [step]; rewrite Hk; cbn;
      unfold statusLabel; cbn; auto 10.
  - intros Hk message rms now. cbn [step]. rewrite Hk. cbn. auto 10.
  - intros Hk message rms now. cbn [step]. rewrite Hk. cbn. auto 10.
Qed.

Lemma start_failure_effects_witness :
  refs (run microphone_refused initial)
  = refs (run [Click_start; Start_settled 1 (JS.Ok (Some "s1"))] initial)
  /\ error (hooks (run microphone_refused initial))
     = Some "Permission denied"
  /\ refs (run [Click_start; Start_settled 1 JS.NotOk] initial)
     = refs (run [Click_start] initial).
Proof.
  destruct (start_failure_effects
              (run [Click_start; Start_settled 1 (JS.Ok (Some "s1"))]
                   initial) 2 None) as (_ & H & _).
  destruct (H eq_refl "Permission denied" 0%Q 0) as (H1 & _ & H2 & _).
  destruct (start_failure_effects (run [Click_start] initial) 1 None)
    as (H' & _).
  destruct (H' eq_refl JS.NotOk (or_introl eq_refl)) as (H3 & _).
  split; [exact H1|]. split; [exact H2 | exact H3].
Defined.

(** The start request succeeded, the microphone was refused: the refs
    and the React session still say the session is active, and the page
    shows "Listening". *)
Lemma refused_microphone_leaves_session_active :
  sessionActiveRef (refs (run microphone_refused initial)) = true
  /\ sessionIdRef (refs (run microphone_refused initial)) = Some "s1"
  /\ isActive (session (hooks (run microphone_refused initial))) = true
  /\ statusLabel (run microphone_refused initial) = "Listening"
  /\ error (hooks (run microphone_refused initial))
     = Some "Permission denied".
Proof. repeat split; reflexivity. Qed.

(** C2.  The user is speaking (recorder 0 is recording) and End is
    clicked: the recorder is stopped and the tracks are released, and no
    request has been sent.  The recorder then delivers its data and its
    stop event, and the handler sends the clip: the last effect is the
    interact request with the bytes recorder 0 delivered, now in flight.
    When the complete request settles the page shows "Ready". *)
Theorem end_while_recording_sends_clip :
  statusLabel user_speaking = "You Speaking"
  /\ open_recorders user_speaking = [0%nat]
  /\ open_recorders (step Click_end user_speaking) = []
  /\ the_streams (step Click_end user_speaking) = [mkStream false]
  /\ List.filter is_interact_fetch (the_effects (step Click_end user_speaking))
     = []
  /\ last (the_effects (run [Click_end; Recorder_stopped 0 webm_clip]
                             user_speaking))
     = Some (FetchInteract "s1" webm_clip)
  /\ in_flight (run [Click_end; Recorder_stopped 0 webm_clip] user_speaking)
     = 1%nat
  /\ statusLabel (run [Click_end; Recorder_stopped 0 webm_clip;
                       Complete_settled 3 (JS.Ok tt)] user_speaking)
     = "Ready".
Proof. repeat split; reflexivity. Qed.

End SessionLifecycle.

(* ===================================================================== *)
(** ** At most one recording, whatever the interleaving *)
(* ===================================================================== *)

Section RecorderInvariant.

Lemma rec_view_inv (s s' : State) :
  rec_view s' = rec_view s -> recorder_inv s -> recorder_inv s'.
Proof.
  unfold rec_view, recorder_inv. intros [= Hr Hm] H r m.
  rewrite Hr, Hm. apply H.
Qed.

Lemma stopAIAudio_rec_view (c : option AudioId) (s : State) :
  rec_view (JS.state_of (stopAIAudio c s)) = rec_view s.
Proof.
  unfold rec_view. rewrite stopAIAudio_refs.
  destruct (stopAIAudio_rest c s) as (-> & _). reflexivity.
Qed.

Lemma not_recording_none (s : State) :
  recorder_inv s -> recorder_is_recording s = false ->
  forall r m, the_recorders s !! r = Some m -> rstate m = inactive.
Proof.
  intros Hinv Hrec r m Hm. destruct (rstate m) eqn:Hst; [reflexivity|].
  specialize (Hinv r m Hm Hst). unfold recorder_is_recording in Hrec.
  rewrite Hinv, Hm, Hst in Hrec. discriminate.
Qed.

Lemma startRecording_inv (c : option AudioId) (s : State) :
  recorder_inv s -> recorder_inv (JS.state_of (startRecording c s)).
Proof.
  intros Hinv. unfold startRecording.
  destruct (mediaStreamRef (refs s)) as [stream|] eqn:Hst; [|exact Hinv].
  destruct (recorder_is_recording s) eqn:Hrec; [exact Hinv|].
  pose proof (not_recording_none s Hinv Hrec) as Hnone.
  intros r m. cbn. rewrite alter_snoc. intros Hm Hrs.
  apply lookup_app_Some in Hm as [Hm | [Hge Hm]].
  - specialize (Hnone r m Hm). congruence.
  - apply list_lookup_singleton_Some in Hm as [Hr _].
    f_equal. lia.
Qed.

Lemma recorder_stop_inv (s : State) :
  recorder_inv s -> recorder_inv (recorder_stop s).
Proof.
  intros Hinv. unfold recorder_stop.
  destruct (mediaRecorderRef (refs s)) as [r0|] eqn:Href; [|exact Hinv].
  intros r m. cbn. rewrite Href, list_lookup_alter.
  case_decide; [subst|].
  - destruct (the_recorders s !! r); cbn; [|discriminate].
    intros [= <-]. cbn. discriminate.
  - intros Hm Hrs. rewrite <- Href. eauto.
Qed.

Lemma stopRecording_inv (s : State) :
  recorder_inv s -> recorder_inv (stopRecording s).
Proof.
  intros Hinv. unfold stopRecording.
  destruct (recorder_is_recording s); [|exact Hinv].
  apply (rec_view_inv (recorder_stop s)); [|now apply recorder_stop_inv].
  unfold recorder_stop. destruct (mediaRecorderRef _); reflexivity.
Qed.

Lemma detectVoice_inv (l : LoopId) (rms : Q) (now : Z) (s : State) :
  recorder_inv s -> recorder_inv (JS.state_of (detectVoice l rms now s)).
Proof.
  intros Hinv. unfold detectVoice.
  destruct (_ !! l) as [lp|]; [|exact Hinv].
  destruct (negb _); [exact Hinv|]. cbv zeta.
  match goal with
  | |- context [if negb ?b then console_log ?m ?t else ?t] =>
      assert (H1 : recorder_inv (if negb b then console_log m t else t))
        by (destruct (negb b); exact Hinv);
      generalize dependent (if negb b then console_log m t else t)
  end.
  intros s1 H1.
  destruct (Qgtb _ _).
  - rewrite speech_detected_normal. cbn [JS.andThen JS.state_of].
    apply (rec_view_inv (JS.state_of (speech_detected l (loopSession lp)
                                                      now s1)));
      [reflexivity|].
    unfold speech_detected. cbv zeta.
    destruct (negb _); [|exact H1].
    destruct (speechStartTimeRef _); [|exact H1].
    destruct (_ >? _); [|exact H1].
    rewrite stopAIAudio_normal. cbn [JS.andThen].
    apply startRecording_inv.
    eapply rec_view_inv; [apply stopAIAudio_rec_view|]. exact H1.
  - destruct (Qltb _ _); cbn [JS.andThen JS.state_of].
    + apply (rec_view_inv (silence_detected l (lastSpeechTime lp) now s1));
        [reflexivity|].
      unfold silence_detected. cbv zeta.
      destruct (_ && _); [|exact H1].
      apply stopRecording_inv. exact H1.
    + exact H1.
Qed.

Lemma cleanupAudio_inv (s : State) :
  recorder_inv s -> recorder_inv (cleanupAudio s).
Proof.
  intros Hinv. unfold cleanupAudio. cbv zeta.
  match goal with
  | |- context [if recorder_is_recording ?t then recorder_stop ?t else ?t] =>
      assert (H1 : recorder_inv
                     (if recorder_is_recording t then recorder_stop t
                      else t));
      [ assert (H0 : recorder_inv t)
          by (apply (rec_view_inv s); [|exact Hinv];
              cbn; destruct (rafRef (refs s)); reflexivity);
        destruct (recorder_is_recording t);
        [now apply recorder_stop_inv | exact H0]
      | generalize dependent
          (if recorder_is_recording t then recorder_stop t else t) ]
  end.
  intros s1 H1.
  eapply rec_view_inv; [|exact H1].
  destruct (mediaStreamRef (refs s1)); cbn;
    destruct (audioContextRef (refs s1)); reflexivity.
Qed.

Lemma playAIAudio_rec_view (c : option AudioId) (b64 text : string)
    (s : State) :
  rec_view (JS.state_of (playAIAudio c b64 text s)) = rec_view s.
Proof.
  unfold playAIAudio. cbv zeta. rewrite stopAIAudio_normal.
  cbn [JS.andThen].
  pose proof (stopAIAudio_rec_view c
                (console_log "[Audio] Playing AI response" s)) as H.
  remember (JS.state_of (stopAIAudio c _)) as s1.
  destruct (base64ToBlob _ _); [|exact H].
  cbn [JS.state_of]. transitivity (rec_view s1); [|exact H].
  destruct (JS.truthy_value (sessionIdRef (refs s1))) eqn:E;
    unfold rec_view; cbn; rewrite E; reflexivity.
Qed.

Lemma sendAudioToBackend_rec_view (c : option AudioId) (b : Blob)
    (s : State) :
  rec_view (sendAudioToBackend c b s) = rec_view s.
Proof.
  unfold sendAudioToBackend. destruct (JS.truthy_value _); reflexivity.
Qed.

Lemma recorder_handlers_rec_view (c : option AudioId) (data : Blob)
    (s : State) :
  rec_view (s |> recorder_ondataavailable data |> recorder_onstop c)
  = rec_view s.
Proof.
  unfold recorder_onstop. cbv zeta.
  destruct (0 <? _)%nat; [rewrite sendAudioToBackend_rec_view|];
    unfold recorder_ondataavailable; destruct (0 <? _)%nat; reflexivity.
Qed.

Lemma emit_await_inv (e : Effect) (t : Task) (s : State) :
  recorder_inv s -> recorder_inv (s |> emit e |> await t).
Proof. apply rec_view_inv. reflexivity. Qed.

Lemma endConversation_inv (s : State) :
  recorder_inv s -> recorder_inv (endConversation s).
Proof.
  intros Hinv. unfold endConversation.
  destruct (JS.truthy_value _); [|exact Hinv]. cbv zeta.
  apply emit_await_inv.
  eapply rec_view_inv; [apply stopAIAudio_rec_view|].
  apply cleanupAudio_inv.
  apply (rec_view_inv s); [reflexivity | exact Hinv].
Qed.

Lemma initializeAudio_resume_inv (c : option AudioId) (r : MediaOutcome)
    (rms : Q) (now : Z) (s : State) :
  recorder_inv s -> recorder_inv (initializeAudio_resume c r rms now s).
Proof.
  intros Hinv. unfold initializeAudio_resume.
  destruct r as [m|[m|]]; try exact Hinv.
  unfold startVADLoop.
  cbn [refs set_analyserRef with_refs analyserRef console_log emit
       with_browser].
  rewrite detectVoice_normal.
  match goal with
  | |- context [detectVoice ?l rms now ?t] =>
      assert (H : recorder_inv (JS.state_of (detectVoice l rms now t)))
        by (apply detectVoice_inv; exact Hinv);
      revert H; generalize (JS.state_of (detectVoice l rms now t))
  end.
  intros s1 H1. exact H1.
Qed.

Lemma sendAudioToBackend_resume_rec_view (c : option AudioId)
    (r : JS.Outcome Response.InteractionResponse) (s : State) :
  rec_view (sendAudioToBackend_resume c r s) = rec_view s.
Proof.
  unfold sendAudioToBackend_resume.
  destruct r as [m| |data]; try reflexivity.
  cbv zeta.
  match goal with
  | |- context [match Response.audioResponse data with
                | Some a => @?f a | None => JS.Normal ?t end] =>
      assert (Ht : rec_view t = rec_view s)
        by (destruct (Response.learningProgress data); reflexivity);
      generalize dependent t
  end.
  intros t Ht.
  destruct (Response.audioResponse data) as [au|]; [|exact Ht].
  destruct (Response.success data && JS.truthy (Some au)); [|exact Ht].
  pose proof (playAIAudio_rec_view c au (Response.aiResponse data) t) as H.
  destruct (playAIAudio c au (Response.aiResponse data) t);
    cbn [JS.state_of] in H; rewrite <- Ht, <- H; reflexivity.
Qed.

(** Every handler keeps the invariant. *)
Lemma step_recorder_inv (e : Event) (s : State) :
  recorder_inv s -> recorder_inv (step e s).
Proof.
  intros Hinv. destruct e; cbn [step].
  - (* Click_start *)
    apply (rec_view_inv s); [|exact Hinv].
    unfold startConversation, unlockAudio. cbn.
    destruct (audioUnlockedRef (refs s)); reflexivity.
  - (* Click_end *)
    apply endConversation_inv. exact Hinv.
  - (* Unlock_settled *)
    destruct (_ !! k) as [[]|]; try exact Hinv.
    destruct ok; exact Hinv.
  - (* Start_settled *)
    destruct (_ !! k) as [[]|]; try exact Hinv.
    destruct r; exact Hinv.
  - (* UserMedia_settled *)
    destruct (_ !! k) as [[]|]; try exact Hinv.
    apply initializeAudio_resume_inv. exact Hinv.
  - (* AnimationFrame *)
    destruct (_ !! l) as [lp|]; [|exact Hinv].
    destruct (scheduled lp); [|exact Hinv].
    apply detectVoice_inv. exact Hinv.
  - (* Recorder_stopped *)
    destruct (the_recorders s !! r) as [m|] eqn:Hm; [|exact Hinv].
    destruct (stopQueued m); [|exact Hinv].
    eapply rec_view_inv; [apply recorder_handlers_rec_view|].
    intros r' m'. cbn. rewrite list_lookup_alter.
    case_decide; [subst|apply Hinv].
    rewrite Hm. cbn. intros [= <-]. cbn. apply Hinv. exact Hm.
  - (* Interact_settled *)
    destruct (_ !! k) as [[]|]; try exact Hinv.
    eapply rec_view_inv; [apply sendAudioToBackend_resume_rec_view|].
    exact Hinv.
  - (* Complete_settled *)
    destruct (_ !! k) as [[]|]; try exact Hinv.
    destruct r; exact Hinv.
  - (* Audio_playing *)
    destruct (_ !! a) as [el|]; [|exact Hinv].
    destruct (_ && _); exact Hinv.
  - (* Audio_play_rejected *)
    destruct (_ !! a) as [el|]; [|exact Hinv].
    destruct (playPending el); exact Hinv.
  - (* Audio_timeupdate *)
    destruct (_ !! a) as [el|]; [|exact Hinv].
    destruct (_ && _); exact Hinv.
  - (* Audio_ended *)
    destruct (_ !! a) as [el|]; [|exact Hinv].
    destruct (_ && _); [|exact Hinv].
    destruct (onended el); [|exact Hinv].
    apply (rec_view_inv s); [|exact Hinv].
    unfold audio_onended. cbn.
    destruct (JS.truthy_value (sessionIdRef (refs s))); reflexivity.
Qed.

Lemma run_recorder_inv (es : list Event) :
  forall s, recorder_inv s -> recorder_inv (run es s).
Proof.
  induction es as [|e es IH]; intros s H; [exact H|].
  cbn. apply IH. now apply step_recorder_inv.
Qed.

Lemma filter_all_eq (P : nat -> bool) (x : nat) (l : list nat) :
  List.NoDup l -> (forall y, In y l -> P y = true -> y = x) ->
  (length (List.filter P l) <= 1)%nat.
Proof.
  intros Hnd Hall.
  assert (Hsub : forall y, In y (List.filter P l) -> y = x).
  { intros y Hy. apply filter_In in Hy as [H1 H2]. auto. }
  assert (Hnd' : List.NoDup (List.filter P l))
    by now apply List.NoDup_filter.
  destruct (List.filter P l) as [|y1 [|y2 r]]; cbn; try lia.
  exfalso. inversion Hnd' as [|? ? Hni _]; subst.
  apply Hni. rewrite (Hsub y1), (Hsub y2); cbn; auto.
Qed.

(** For every interleaving of events, at most one recorder is recording. *)
Lemma at_most_one_recording (es : list Event) :
  (length (open_recorders (run es initial)) <= 1)%nat.
Proof.
  assert (Hinv : recorder_inv (run es initial)).
  { apply run_recorder_inv. intros r m H. destruct r; discriminate. }
  unfold open_recorders.
  destruct (mediaRecorderRef (refs (run es initial))) as [r0|] eqn:Href.
  - apply (filter_all_eq _ r0); [apply seq_NoDup|].
    intros y _ Hy.
    destruct (_ !! y) as [m|] eqn:Hm; [|discriminate].
    destruct (rstate m) eqn:Hst; [discriminate|].
    specialize (Hinv y m Hm Hst). congruence.
  - apply (filter_all_eq _ 0%nat); [apply seq_NoDup|].
    intros y _ Hy.
    destruct (_ !! y) as [m|] eqn:Hm; [|discriminate].
    destruct (rstate m) eqn:Hst; [discriminate|].
    specialize (Hinv y m Hm Hst). congruence.
Qed.

End RecorderInvariant.

(* ===================================================================== *)
(** ** At most one playback, as long as no [play()] is rejected *)
(* ===================================================================== *)

Section PlaybackInvariant.

Lemma audio_view_inv (s s' : State) :
  audio_view s' = audio_view s -> playback_inv s -> playback_inv s'.
Proof.
  unfold audio_view, playback_inv. intros [= Ha Hr] H a el.
  rewrite Ha, Hr. apply H.
Qed.

Lemma all_quiet_inv (s s' : State) :
  the_audios s' = the_audios s -> all_quiet s -> playback_inv s'.
Proof.
  intros Ha H a el Hel. rewrite Ha in Hel.
  destruct (H a el Hel) as [H1 H2]. split; [exact H1|]. congruence.
Qed.

Lemma alter_stopped_quiet (x : AudioId) (l : list HTMLAudioElement)
    (keep : option AudioId) :
  (forall a el, l !! a = Some el ->
                faulty el = false /\ (paused el = false -> keep = Some a)) ->
  forall a el, alter stopped x l !! a = Some el ->
               faulty el = false
               /\ (paused el = false -> keep = Some a /\ a <> x).
Proof.
  intros H a el. rewrite list_lookup_alter. case_decide; [subst|].
  - destruct (l !! a) as [el0|] eqn:H0; [|discriminate].
    intros [= <-]. destruct (H a el0 H0) as [Hf _].
    unfold stopped. rewrite Hf. cbn. split; [exact Hf|discriminate].
  - intros Hel. destruct (H a el Hel) as [Hf Hp]. auto.
Qed.

Lemma alter_stopped_all_quiet (x : AudioId) (l : list HTMLAudioElement) :
  (forall a el, l !! a = Some el -> faulty el = false /\ paused el = true) ->
  forall a el, alter stopped x l !! a = Some el ->
               faulty el = false /\ paused el = true.
Proof.
  intros H a el. rewrite list_lookup_alter. case_decide; [subst|apply H].
  destruct (l !! a) as [el0|] eqn:H0; [|discriminate].
  intros [= <-]. destruct (H a el0 H0) as [Hf _].
  unfold stopped. rewrite Hf. cbn. auto.
Qed.

Lemma stopAIAudio_quiet (c : option AudioId) (s : State) :
  playback_inv s -> all_quiet (JS.state_of (stopAIAudio c s)).
Proof.
  intros Hinv. unfold all_quiet. rewrite stopAIAudio_audios.
  unfold playback_inv in Hinv.
  assert (H1 : forall a el,
             (the_audios s
                |> match currentAudioRef (refs s) with
                   | Some r => alter stopped r
                   | None => fun l => l
                   end) !! a = Some el ->
             faulty el = false /\ paused el = true).
  { destruct (currentAudioRef (refs s)) as [r|] eqn:Href.
    - intros a el Hel.
      destruct (alter_stopped_quiet r _ (Some r) Hinv a el Hel)
        as [Hf Hp].
      split; [exact Hf|]. destruct (paused el) eqn:E; [reflexivity|].
      destruct (Hp eq_refl) as [[= ->] Hne]. congruence.
    - intros a el Hel. destruct (Hinv a el Hel) as [Hf Hp].
      split; [exact Hf|]. destruct (paused el); [reflexivity|].
      specialize (Hp eq_refl). congruence. }
  destruct c as [x|]; [|exact H1].
  apply alter_stopped_all_quiet. exact H1.
Qed.

Lemma stopAIAudio_playback_inv (c : option AudioId) (s : State) :
  playback_inv s -> playback_inv (JS.state_of (stopAIAudio c s)).
Proof.
  intros H. eapply all_quiet_inv; [reflexivity|].
  now apply stopAIAudio_quiet.
Qed.

Lemma playAIAudio_playback_inv (c : option AudioId) (b64 text : string)
    (s : State) :
  playback_inv s -> playback_inv (JS.state_of (playAIAudio c b64 text s)).
Proof.
  intros Hinv. unfold playAIAudio. cbv zeta.
  rewrite stopAIAudio_normal. cbn [JS.andThen].
  assert (Hq : all_quiet
                 (JS.state_of
                    (stopAIAudio c
                       (console_log "[Audio] Playing AI response" s)))).
  { apply stopAIAudio_quiet.
    apply (audio_view_inv s); [reflexivity | exact Hinv]. }
  revert Hq.
  generalize (JS.state_of
                (stopAIAudio c
                   (console_log "[Audio] Playing AI response" s))).
  intros s1 Hq.
  destruct (base64ToBlob _ _) as [blob|];
    [|eapply all_quiet_inv; [reflexivity | exact Hq]].
  cbn [JS.state_of].
  assert (Hau : forall t,
             the_audios t = the_audios s1
                            ++ [mkAudio blob false 0 true true false] ->
             currentAudioRef (refs t) = Some (length (the_audios s1)) ->
             playback_inv t).
  { intros t Ht Href a el. rewrite Ht, Href. intros Hel.
    apply lookup_app_Some in Hel as [Hel | [Hge Hel]].
    - destruct (Hq a el Hel) as [Hf Hp]. split; [exact Hf|]. congruence.
    - apply list_lookup_singleton_Some in Hel as [Ha <-].
      split; [reflexivity|]. intros _. f_equal. lia. }
  apply Hau.
  - cbn. destruct (JS.truthy_value (sessionIdRef (refs s1))); cbn;
      now rewrite !alter_snoc.
  - cbn. destruct (JS.truthy_value (sessionIdRef (refs s1))); reflexivity.
Qed.

Lemma startRecording_audio_view (c : option AudioId) (s : State) :
  audio_view (JS.state_of (startRecording c s)) = audio_view s.
Proof.
  unfold startRecording.
  destruct (mediaStreamRef _); [destruct (recorder_is_recording s)|];
    reflexivity.
Qed.

Lemma stopRecording_audio_view (s : State) :
  audio_view (stopRecording s) = audio_view s.
Proof.
  unfold stopRecording, recorder_stop.
  destruct (recorder_is_recording s); [|reflexivity].
  cbn. destruct (mediaRecorderRef _); reflexivity.
Qed.

Lemma detectVoice_playback_inv (l : LoopId) (rms : Q) (now : Z)
    (s : State) :
  playback_inv s -> playback_inv (JS.state_of (detectVoice l rms now s)).
Proof.
  intros Hinv. unfold detectVoice.
  destruct (_ !! l) as [lp|]; [|exact Hinv].
  destruct (negb _); [exact Hinv|]. cbv zeta.
  match goal with
  | |- context [if negb ?b then console_log ?m ?t else ?t] =>
      assert (H1 : playback_inv (if negb b then console_log m t else t))
        by (destruct (negb b); exact Hinv);
      generalize dependent (if negb b then console_log m t else t)
  end.
  intros s1 H1.
  destruct (Qgtb _ _).
  - rewrite speech_detected_normal. cbn [JS.andThen JS.state_of].
    apply (audio_view_inv (JS.state_of (speech_detected l (loopSession lp)
                                                        now s1)));
      [reflexivity|].
    unfold speech_detected. cbv zeta.
    destruct (negb _); [|exact H1].
    destruct (speechStartTimeRef _); [|exact H1].
    destruct (_ >? _); [|exact H1].
    rewrite stopAIAudio_normal. cbn [JS.andThen].
    eapply audio_view_inv; [apply startRecording_audio_view|].
    apply stopAIAudio_playback_inv. exact H1.
  - destruct (Qltb _ _); cbn [JS.andThen JS.state_of].
    + apply (audio_view_inv
               (silence_detected l (lastSpeechTime lp) now s1));
        [reflexivity|].
      unfold silence_detected. cbv zeta.
      destruct (_ && _); [|exact H1].
      eapply audio_view_inv; [apply stopRecording_audio_view|]. exact H1.
    + exact H1.
Qed.

Lemma cleanupAudio_audio_view (s : State) :
  audio_view (cleanupAudio s) = audio_view s.
Proof.
  unfold cleanupAudio. cbv zeta.
  match goal with
  | |- context [if recorder_is_recording ?t then recorder_stop ?t else ?t] =>
      assert (H1 : audio_view
                     (if recorder_is_recording t then recorder_stop t
                      else t) = audio_view s);
      [ destruct (recorder_is_recording t);
        [unfold recorder_stop; destruct (mediaRecorderRef (refs t))|];
        cbn; destruct (rafRef (refs s)); reflexivity
      | generalize dependent
          (if recorder_is_recording t then recorder_stop t else t) ]
  end.
  intros s1 H1. rewrite <- H1.
  destruct (mediaStreamRef (refs s1)); cbn;
    destruct (audioContextRef (refs s1)); reflexivity.
Qed.

Lemma emit_await_playback_inv (e : Effect) (t : Task) (s : State) :
  playback_inv s -> playback_inv (s |> emit e |> await t).
Proof. apply audio_view_inv. reflexivity. Qed.

Lemma endConversation_playback_inv (s : State) :
  playback_inv s -> playback_inv (endConversation s).
Proof.
  intros Hinv. unfold endConversation.
  destruct (JS.truthy_value _); [|exact Hinv]. cbv zeta.
  apply emit_await_playback_inv.
  apply stopAIAudio_playback_inv.
  eapply audio_view_inv; [apply cleanupAudio_audio_view|].
  apply (audio_view_inv s); [reflexivity | exact Hinv].
Qed.

Lemma initializeAudio_resume_playback_inv (c : option AudioId)
    (r : MediaOutcome) (rms : Q) (now : Z) (s : State) :
  playback_inv s -> playback_inv (initializeAudio_resume c r rms now s).
Proof.
  intros Hinv. unfold initializeAudio_resume.
  destruct r as [m|[m|]]; try exact Hinv.
  unfold startVADLoop.
  cbn [refs set_analyserRef with_refs analyserRef console_log emit
       with_browser].
  rewrite detectVoice_normal.
  match goal with
  | |- context [detectVoice ?l rms now ?t] =>
      assert (H : playback_inv (JS.state_of (detectVoice l rms now t)))
        by (apply detectVoice_playback_inv; exact Hinv);
      revert H; generalize (JS.state_of (detectVoice l rms now t))
  end.
  intros s1 H1. exact H1.
Qed.

Lemma recorder_handlers_audio_view (c : option AudioId) (data : Blob)
    (s : State) :
  audio_view (s |> recorder_ondataavailable data |> recorder_onstop c)
  = audio_view s.
Proof.
  unfold recorder_onstop, sendAudioToBackend. cbv zeta.
  destruct (0 <? _)%nat; [destruct (JS.truthy_value _)|];
    unfold recorder_ondataavailable; destruct (0 <? _)%nat; reflexivity.
Qed.

Lemma sendAudioToBackend_resume_playback_inv (c : option AudioId)
    (r : JS.Outcome Response.InteractionResponse) (s : State) :
  playback_inv s -> playback_inv (sendAudioToBackend_resume c r s).
Proof.
  intros Hinv. unfold sendAudioToBackend_resume.
  destruct r as [m| |data]; try exact Hinv.
  cbv zeta.
  match goal with
  | |- context [match Response.audioResponse data with
                | Some a => @?f a | None => JS.Normal ?t end] =>
      assert (Ht : playback_inv t)
        by (destruct (Response.learningProgress data); exact Hinv);
      generalize dependent t
  end.
  intros t Ht.
  apply (audio_view_inv
           (JS.state_of
              (match Response.audioResponse data with
               | Some audio =>
                   if Response.success data && JS.truthy (Some audio)
                   then playAIAudio c audio (Response.aiResponse data) t
                   else JS.Normal t
               | None => JS.Normal t
               end))).
  - destruct (Response.audioResponse data) as [au|]; [|reflexivity].
    destruct (Response.success data && JS.truthy (Some au));
      [|reflexivity].
    destruct (playAIAudio c au (Response.aiResponse data) t); reflexivity.
  - destruct (Response.audioResponse data) as [au|]; [|exact Ht].
    destruct (Response.success data && JS.truthy (Some au)); [|exact Ht].
    apply playAIAudio_playback_inv. exact Ht.
Qed.

Lemma alter_keeps_inv (f : HTMLAudioElement -> HTMLAudioElement)
    (a : AudioId) (s : State) :
  (forall el, faulty (f el) = faulty el /\ paused (f el) = paused el) ->
  playback_inv s -> playback_inv (with_audios (alter f a) s).
Proof.
  intros Hf Hinv x el. cbn. rewrite list_lookup_alter.
  case_decide; [subst|apply Hinv].
  destruct (the_audios s !! x) as [el0|] eqn:H0; [|discriminate].
  intros [= <-]. destruct (Hf el0) as [-> ->]. now apply Hinv.
Qed.

Lemma ended_quiet (a : AudioId) (el : HTMLAudioElement) (s : State) :
  playback_inv s -> the_audios s !! a = Some el -> paused el = false ->
  all_quiet (with_audios (alter (fun el =>
               mkAudio (src el) true (currentTime el) (onended el)
                       (playPending el) (faulty el)) a) s).
Proof.
  intros Hinv Hel Hp x el'. cbn. rewrite list_lookup_alter.
  destruct (Hinv a el Hel) as [Hf Href]. specialize (Href Hp).
  case_decide; [subst|].
  - rewrite Hel. cbn. intros [= <-]. cbn. auto.
  - intros Hx. destruct (Hinv x el' Hx) as [Hf' Hp'].
    split; [exact Hf'|]. destruct (paused el'); [reflexivity|].
    specialize (Hp' eq_refl). congruence.
Qed.

(** Every handler but the rejection handler of [play()] keeps the
    invariant. *)
Lemma step_playback_inv (e : Event) (s : State) :
  is_play_rejection e = false ->
  playback_inv s -> playback_inv (step e s).
Proof.
  intros He Hinv. destruct e; cbn [step]; try discriminate He.
  - (* Click_start *)
    apply (audio_view_inv s); [|exact Hinv].
    unfold startConversation, unlockAudio. cbn.
    destruct (audioUnlockedRef (refs s)); reflexivity.
  - (* Click_end *)
    apply endConversation_playback_inv. exact Hinv.
  - (* Unlock_settled *)
    destruct (_ !! k) as [[]|]; try exact Hinv.
    destruct ok; exact Hinv.
  - (* Start_settled *)
    destruct (_ !! k) as [[]|]; try exact Hinv.
    destruct r; exact Hinv.
  - (* UserMedia_settled *)
    destruct (_ !! k) as [[]|]; try exact Hinv.
    apply initializeAudio_resume_playback_inv. exact Hinv.
  - (* AnimationFrame *)
    destruct (_ !! l) as [lp|]; [|exact Hinv].
    destruct (scheduled lp); [|exact Hinv].
    apply detectVoice_playback_inv. exact Hinv.
  - (* Recorder_stopped *)
    destruct (the_recorders s !! r) as [m|] eqn:Hm; [|exact Hinv].
    destruct (stopQueued m); [|exact Hinv].
    eapply audio_view_inv; [apply recorder_handlers_audio_view|].
    exact Hinv.
  - (* Interact_settled *)
    destruct (_ !! k) as [[]|]; try exact Hinv.
    apply sendAudioToBackend_resume_playback_inv. exact Hinv.
  - (* Complete_settled *)
    destruct (_ !! k) as [[]|]; try exact Hinv.
    destruct r; exact Hinv.
  - (* Audio_playing *)
    destruct (_ !! a) as [el|]; [|exact Hinv].
    destruct (_ && _); [|exact Hinv].
    apply alter_keeps_inv; [|exact Hinv]. intros; cbn; auto.
  - (* Audio_timeupdate *)
    destruct (_ !! a) as [el|]; [|exact Hinv].
    destruct (_ && _); [|exact Hinv].
    apply alter_keeps_inv; [|exact Hinv]. intros; cbn; auto.
  - (* Audio_ended *)
    destruct (the_audios s !! a) as [el|] eqn:Hel; [|exact Hinv].
    destruct (negb (paused el)) eqn:Hp; cbn [andb]; [|exact Hinv].
    destruct (negb (playPending el)); [|exact Hinv].
    apply negb_true_iff in Hp.
    pose proof (ended_quiet a el s Hinv Hel Hp) as Hq.
    destruct (onended el).
    + eapply all_quiet_inv; [|exact Hq].
      unfold audio_onended. cbn.
      destruct (JS.truthy_value (sessionIdRef (refs s))); reflexivity.
    + eapply all_quiet_inv; [reflexivity | exact Hq].
Qed.

Lemma run_playback_inv (es : list Event) :
  forallb (fun e => negb (is_play_rejection e)) es = true ->
  forall s, playback_inv s -> playback_inv (run es s).
Proof.
  induction es as [|e es IH]; intros Hes s H; [exact H|].
  cbn in Hes. apply andb_true_iff in Hes as [He Hes].
  apply negb_true_iff in He.
  cbn. apply IH; [exact Hes|]. now apply step_playback_inv.
Qed.

(** For every interleaving in which no [play()] promise is rejected, at
    most one element is live. *)
Lemma at_most_one_playback (es : list Event) :
  forallb (fun e => negb (is_play_rejection e)) es = true ->
  (length (live_audios (run es initial)) <= 1)%nat.
Proof.
  intros Hes.
  assert (Hinv : playback_inv (run es initial)).
  { apply run_playback_inv; [exact Hes|].
    intros a el H. destruct a; discriminate. }
  unfold live_audios.
  apply (filter_all_eq _
           (match currentAudioRef (refs (run es initial)) with
            | Some a => a
            | None => 0%nat
            end)); [apply seq_NoDup|].
  intros y _ Hy.
  destruct (_ !! y) as [el|] eqn:Hel; [|discriminate].
  unfold live in Hy. apply negb_true_iff in Hy.
  destruct (Hinv y el Hel) as [_ Href]. now rewrite (Href Hy).
Qed.

End PlaybackInvariant.

(* ===================================================================== *)
(** ** One recording and one playback at a time? *)
(* ===================================================================== *)

Section OneAtATime.

(** [startRecording] does nothing while the recorder is recording. *)
Lemma startRecording_while_recording (c : option AudioId) (s : State) :
  recorder_is_recording s = true -> startRecording c s = JS.Normal s.
Proof.
  intros H. unfold startRecording. rewrite H.
  destruct (mediaStreamRef _); reflexivity.
Qed.

(** [playAIAudio] pauses the element the handle holds before it creates
    the new one. *)
Lemma playAIAudio_stops_handle (c : option AudioId) (b64 text : string)
    (blob : Blob) (a : AudioId) (el : HTMLAudioElement) (s : State) :
  base64ToBlob b64 "audio/mpeg" = Some blob ->
  currentAudioRef (refs s) = Some a ->
  the_audios s !! a = Some el -> faulty el = false ->
  exists s' el',
    playAIAudio c b64 text s = JS.Normal s'
    /\ the_audios s' !! a = Some el' /\ paused el' = true
    /\ currentAudioRef (refs s') = Some (length (the_audios s))
    /\ a <> length (the_audios s).
Proof.
  intros Hblob Href Hel Hf.
  destruct (playAIAudio_plays c b64 text blob s Hblob)
    as (s' & Hplay & Hau & Href' & _).
  destruct (stopAIAudio_live c a el s Href Hel Hf)
    as (_ & _ & _ & el' & Hel' & Hp & _).
  exists s', el'. split; [exact Hplay|].
  split; [rewrite Hau; now apply lookup_app_l_Some|].
  split; [exact Hp|]. split; [exact Href'|].
  apply lookup_lt_Some in Hel. lia.
Qed.

(** C1.  Two replies arrive while the first is still loading; the
    rejection of the first [play()] then clears the handle of the second,
    which keeps playing.  The next speech start and the next reply find no
    handle to stop: at the end elements 1 and 2 are both playing (not
    paused, [play()] settled), and only element 2 is the handle. *)
Theorem two_playbacks_live :
  live_audios (run overlapping_replies initial) = [1%nat; 2%nat]
  /\ (the_audios (run overlapping_replies initial) !! 1%nat)
     = Some (mkAudio (mkBlob [116; 119; 111] "audio/mpeg")
                     false 0 true false false)
  /\ (the_audios (run overlapping_replies initial) !! 2%nat)
     = Some (mkAudio (mkBlob [116; 104; 114; 101; 101] "audio/mpeg")
                     false 0 true false false)
  /\ currentAudioRef (refs (run overlapping_replies initial)) = Some 2%nat.
Proof. repeat split; reflexivity. Qed.


End OneAtATime.

(* ===================================================================== *)
(** ** What each handler leaves alone *)
(* ===================================================================== *)

(** [frame]: the goal [modifies W s (f s)] where [f] is a pipeline of
    assignments. *)
Ltac written Hc := exfalso; apply Hc; cbn; tauto.
Ltac frame :=
  let c := fresh "c" in let Hc := fresh "Hc" in
  intros c Hc; destruct c; try (written Hc); reflexivity.
Ltac incl_cells := intros ?; cbn; tauto.

(** A cell outside the write set keeps its value. *)
Ltac kept H c :=
  let K := fresh "K" in
  pose proof (H c ltac:(cbn; intuition discriminate)) as K; cbn [cell_eq] in K.

Section Frames.

Lemma modifies_refl (W : list Cell) (s : State) : modifies W s s.
Proof. intros []; reflexivity. Qed.

Lemma modifies_trans (W : list Cell) (s1 s2 s3 : State) :
  modifies W s1 s2 -> modifies W s2 s3 -> modifies W s1 s3.
Proof.
  intros H12 H23 c Hc. specialize (H12 c Hc). specialize (H23 c Hc).
  destruct c; cbn in *; congruence.
Qed.

Lemma modifies_weaken (W W' : list Cell) (s s' : State) :
  incl W W' -> modifies W s s' -> modifies W' s s'.
Proof. intros Hi H c Hc. apply H. intros Hin. apply Hc, Hi, Hin. Qed.

Lemma pause_and_rewind_modifies (a : AudioId) (s : State) :
  modifies [c_effects; c_audios] s (JS.state_of (pause_and_rewind a s)).
Proof.
  unfold pause_and_rewind.
  destruct (_ !! a) as [el|]; [destruct (faulty el)|]; cbn; frame.
Qed.

Lemma stopAIAudio_modifies (c : option AudioId) (s : State) :
  modifies stopAIAudio_writes s (JS.state_of (stopAIAudio c s)).
Proof.
  intros x Hx.
  pose proof (stopAIAudio_hooks c s) as Hh.
  pose proof (stopAIAudio_refs c s) as Hr.
  destruct (stopAIAudio_rest c s) as (H1 & H2 & H3 & H4).
  destruct x; try (written Hx); cbn;
    rewrite ?Hh, ?Hr, ?H1, ?H2, ?H3, ?H4; reflexivity.
Qed.

Lemma play_catch_modifies (a : AudioId) (s : State) :
  modifies play_catch_writes s (play_catch a s).
Proof. frame. Qed.

Lemma audio_onended_modifies (a : AudioId) (s : State) :
  modifies audio_onended_writes s (audio_onended a s).
Proof.
  unfold audio_onended. cbn.
  destruct (JS.truthy_value (sessionIdRef (refs s))); frame.
Qed.

Lemma startRecording_modifies (c : option AudioId) (s : State) :
  modifies startRecording_writes s (JS.state_of (startRecording c s)).
Proof.
  unfold startRecording.
  destruct (mediaStreamRef _); [destruct (recorder_is_recording s)|];
    cbn; frame.
Qed.

Lemma stopRecording_modifies (s : State) :
  modifies stopRecording_writes s (stopRecording s).
Proof.
  unfold stopRecording, recorder_stop.
  destruct (recorder_is_recording s); [|frame].
  cbn. destruct (mediaRecorderRef (refs s)); frame.
Qed.

Lemma playAIAudio_modifies (c : option AudioId) (b64 text : string)
    (s : State) :
  modifies stopAIAudio_writes s (JS.state_of (playAIAudio c b64 text s)).
Proof.
  unfold playAIAudio. cbv zeta. rewrite stopAIAudio_normal.
  cbn [JS.andThen].
  assert (H : modifies stopAIAudio_writes s
                (JS.state_of (stopAIAudio c
                   (console_log "[Audio] Playing AI response" s)))).
  { eapply modifies_trans; [|apply stopAIAudio_modifies]. frame. }
  revert H. generalize (JS.state_of (stopAIAudio c
                   (console_log "[Audio] Playing AI response" s))).
  intros s1 H.
  destruct (base64ToBlob _ _); [|exact H].
  cbn [JS.state_of]. eapply modifies_trans; [exact H|].
  destruct (JS.truthy_value (sessionIdRef (refs s1))) eqn:E;
    cbn; rewrite E; frame.
Qed.

Lemma sendAudioToBackend_modifies (c : option AudioId) (b : Blob)
    (s : State) :
  modifies sendAudioToBackend_writes s (sendAudioToBackend c b s).
Proof.
  unfold sendAudioToBackend. destruct (JS.truthy_value _); frame.
Qed.

Lemma recorder_handlers_modifies (c : option AudioId) (data : Blob)
    (s : State) :
  modifies (c_audioChunksRef :: sendAudioToBackend_writes) s
    (s |> recorder_ondataavailable data |> recorder_onstop c).
Proof.
  eapply modifies_trans with (s2 := recorder_ondataavailable data s).
  - unfold recorder_ondataavailable. destruct (0 <? _)%nat; frame.
  - generalize (recorder_ondataavailable data s). intros t.
    unfold recorder_onstop. cbv zeta. destruct (0 <? _)%nat; [|frame].
    eapply modifies_trans with (s2 := console_log "[VAD] Recording stopped" t);
      [frame|].
    eapply modifies_weaken; [|apply sendAudioToBackend_modifies].
    incl_cells.
Qed.

Lemma sendAudioToBackend_resume_modifies (c : option AudioId)
    (r : JS.Outcome Response.InteractionResponse) (s : State) :
  modifies sendAudioToBackend_resume_writes s
    (sendAudioToBackend_resume c r s).
Proof.
  unfold sendAudioToBackend_resume.
  destruct r as [m| |data]; try frame.
  cbv zeta.
  match goal with
  | |- context [match Response.audioResponse data with
                | Some a => @?f a | None => JS.Normal ?t end] =>
      assert (Ht : modifies sendAudioToBackend_resume_writes s t)
        by (destruct (Response.learningProgress data); frame);
      generalize dependent t
  end.
  intros t Ht.
  assert (Hfin : forall t', modifies sendAudioToBackend_resume_writes s t' ->
            modifies sendAudioToBackend_resume_writes s
              (setIsProcessing false t')).
  { intros t' H. eapply modifies_trans; [exact H|]. frame. }
  destruct (Response.audioResponse data) as [au|]; [|now apply Hfin].
  destruct (Response.success data && JS.truthy (Some au));
    [|now apply Hfin].
  pose proof (playAIAudio_modifies c au (Response.aiResponse data) t) as H.
  destruct (playAIAudio c au (Response.aiResponse data) t) as [t'|t'];
    cbn [JS.state_of] in H.
  - apply Hfin. eapply modifies_trans; [exact Ht|].
    eapply modifies_weaken; [|exact H]. incl_cells.
  - eapply modifies_trans; [exact Ht|].
    eapply modifies_trans with (s2 := t').
    + eapply modifies_weaken; [|exact H]. incl_cells.
    + frame.
Qed.

Lemma speech_detected_modifies (l : LoopId) (c : option AudioId) (now : Z)
    (s : State) :
  modifies detectVoice_writes s (JS.state_of (speech_detected l c now s)).
Proof.
  unfold speech_detected. cbv zeta.
  destruct (negb _); [|frame].
  destruct (speechStartTimeRef _); [|frame].
  destruct (_ >? _); [|frame].
  rewrite stopAIAudio_normal. cbn [JS.andThen].
  match goal with
  | |- context [stopAIAudio c ?t] =>
      eapply modifies_trans with (s2 := t); [frame|];
      eapply modifies_trans with (s2 := JS.state_of (stopAIAudio c t))
  end.
  - eapply modifies_weaken; [|apply stopAIAudio_modifies]. incl_cells.
  - eapply modifies_weaken; [|apply startRecording_modifies]. incl_cells.
Qed.

Lemma silence_detected_modifies (l : LoopId) (lst now : Z) (s : State) :
  modifies detectVoice_writes s (silence_detected l lst now s).
Proof.
  unfold silence_detected. cbv zeta.
  destruct (_ && _); [|frame].
  match goal with
  | |- context [stopRecording ?t] =>
      eapply modifies_trans with (s2 := t); [frame|]
  end.
  eapply modifies_weaken; [|apply stopRecording_modifies]. incl_cells.
Qed.

Lemma detectVoice_modifies (l : LoopId) (rms : Q) (now : Z) (s : State) :
  modifies detectVoice_writes s (JS.state_of (detectVoice l rms now s)).
Proof.
  unfold detectVoice.
  destruct (_ !! l) as [lp|]; [|frame].
  destruct (negb _); [frame|]. cbv zeta.
  match goal with
  | |- context [if negb ?b then console_log ?m ?t else ?t] =>
      assert (H1 : modifies detectVoice_writes s
                     (if negb b then console_log m t else t))
        by (destruct (negb b); frame);
      generalize dependent (if negb b then console_log m t else t)
  end.
  intros s1 H1.
  assert (Hfin : forall t, modifies detectVoice_writes s t ->
            modifies detectVoice_writes s
              (t |> set_scheduled l true |> set_rafRef (Some l))).
  { intros t H. eapply modifies_trans; [exact H|]. frame. }
  destruct (Qgtb _ _).
  - rewrite speech_detected_normal. cbn [JS.andThen JS.state_of].
    apply Hfin. eapply modifies_trans; [exact H1|].
    apply speech_detected_modifies.
  - destruct (Qltb _ _); cbn [JS.andThen JS.state_of]; apply Hfin.
    + eapply modifies_trans; [exact H1|]. apply silence_detected_modifies.
    + exact H1.
Qed.

Lemma cleanupAudio_modifies (s : State) :
  modifies cleanupAudio_writes s (cleanupAudio s).
Proof.
  unfold cleanupAudio. cbv zeta.
  match goal with
  | |- context [if recorder_is_recording ?t then recorder_stop ?t else ?t] =>
      assert (H1 : modifies cleanupAudio_writes s
                     (if recorder_is_recording t then recorder_stop t
                      else t));
      [ assert (H0 : modifies cleanupAudio_writes s t)
          by (cbn; destruct (rafRef (refs s)); frame);
        destruct (recorder_is_recording t); [|exact H0];
        eapply modifies_trans; [exact H0|];
        unfold recorder_stop; destruct (mediaRecorderRef _); frame
      | generalize dependent
          (if recorder_is_recording t then recorder_stop t else t) ]
  end.
  intros s1 H1.
  eapply modifies_trans; [exact H1|].
  destruct (mediaStreamRef (refs s1)); cbn;
    destruct (audioContextRef (refs s1)); frame.
Qed.

Lemma startConversation_modifies (s : State) :
  modifies startConversation_writes s (startConversation s).
Proof.
  unfold startConversation, unlockAudio. cbn.
  destruct (audioUnlockedRef (refs s)); frame.
Qed.

Lemma startConversation_resume_modifies (c : option AudioId)
    (r : JS.Outcome (option string)) (s : State) :
  modifies startConversation_resume_writes s
    (startConversation_resume c r s).
Proof. destruct r; frame. Qed.

Lemma initializeAudio_resume_modifies (c : option AudioId)
    (r : MediaOutcome) (rms : Q) (now : Z) (s : State) :
  modifies initializeAudio_resume_writes s
    (initializeAudio_resume c r rms now s).
Proof.
  unfold initializeAudio_resume.
  destruct r as [m|[m|]]; try frame.
  unfold startVADLoop.
  cbn [refs set_analyserRef with_refs analyserRef console_log emit
       with_browser].
  rewrite detectVoice_normal.
  match goal with
  | |- context [detectVoice ?l rms now ?t] =>
      eapply modifies_trans with (s2 := t); [frame|];
      eapply modifies_trans with (s2 := JS.state_of (detectVoice l rms now t));
      [eapply modifies_weaken; [|apply detectVoice_modifies]; incl_cells|];
      generalize (JS.state_of (detectVoice l rms now t))
  end.
  intros s1. frame.
Qed.

Lemma endConversation_modifies (s : State) :
  modifies endConversation_writes s (endConversation s).
Proof.
  unfold endConversation.
  destruct (JS.truthy_value _) as [sid|]; [|frame]. cbv zeta.
  set (s0 := s |> console_log "[Session] Ending conversation"
               |> set_sessionActiveRef false).
  eapply modifies_trans with (s2 := s0); [frame|].
  eapply modifies_trans with (s2 := cleanupAudio s0);
    [eapply modifies_weaken; [|apply cleanupAudio_modifies]; incl_cells|].
  generalize (cleanupAudio s0). intros s1.
  eapply modifies_trans
    with (s2 := JS.state_of (stopAIAudio (currentAudio (session (hooks s)))
                               s1));
    [eapply modifies_weaken; [|apply stopAIAudio_modifies]; incl_cells|].
  generalize (JS.state_of (stopAIAudio (currentAudio (session (hooks s)))
                             s1)).
  intros s2. frame.
Qed.

Lemma endConversation_resume_modifies (r : JS.Outcome unit) (s : State) :
  modifies endConversation_resume_writes s (endConversation_resume r s).
Proof. destruct r; frame. Qed.

Lemma settle_modifies (k : TaskId) (s : State) :
  modifies [c_tasks] s (settle k s).
Proof. frame. Qed.

(** Every handler writes only the cells listed for its event. *)
Theorem step_modifies (e : Event) (s : State) :
  modifies (writes e) s (step e s).
Proof.
  destruct e; cbn [step writes].
  - apply startConversation_modifies.
  - apply endConversation_modifies.
  - destruct (_ !! k) as [[]|]; try apply modifies_refl.
    destruct ok; frame.
  - destruct (_ !! k) as [[]|]; try apply modifies_refl.
    eapply modifies_trans with (s2 := settle k s); [frame|].
    apply startConversation_resume_modifies.
  - destruct (_ !! k) as [[]|]; try apply modifies_refl.
    eapply modifies_trans with (s2 := settle k s); [frame|].
    eapply modifies_weaken; [|apply initializeAudio_resume_modifies].
    incl_cells.
  - destruct (_ !! l) as [lp|]; [|apply modifies_refl].
    destruct (scheduled lp); [|apply modifies_refl].
    eapply modifies_trans with (s2 := set_scheduled l false s); [frame|].
    apply detectVoice_modifies.
  - destruct (the_recorders s !! r) as [m|]; [|apply modifies_refl].
    destruct (stopQueued m); [|apply modifies_refl].
    match goal with
    | |- context [recorder_ondataavailable data ?t] =>
        eapply modifies_trans with (s2 := t); [frame|]
    end.
    eapply modifies_weaken; [|apply recorder_handlers_modifies].
    incl_cells.
  - destruct (_ !! k) as [[]|]; try apply modifies_refl.
    eapply modifies_trans with (s2 := settle k s); [frame|].
    eapply modifies_weaken; [|apply sendAudioToBackend_resume_modifies].
    incl_cells.
  - destruct (_ !! k) as [[]|]; try apply modifies_refl.
    eapply modifies_trans with (s2 := settle k s); [frame|].
    eapply modifies_weaken; [|apply endConversation_resume_modifies].
    incl_cells.
  - destruct (_ !! a) as [el|]; [|apply modifies_refl].
    destruct (_ && _); [frame|apply modifies_refl].
  - destruct (_ !! a) as [el|]; [|apply modifies_refl].
    destruct (playPending el); [|apply modifies_refl].
    match goal with
    | |- context [play_catch a ?t] =>
        eapply modifies_trans with (s2 := t); [frame|]
    end.
    eapply modifies_weaken; [|apply play_catch_modifies]. incl_cells.
  - destruct (_ !! a) as [el|]; [|apply modifies_refl].
    destruct (_ && _); [frame|apply modifies_refl].
  - destruct (_ !! a) as [el|]; [|apply modifies_refl].
    destruct (_ && _); [|apply modifies_refl].
    destruct (onended el); [|frame].
    match goal with
    | |- context [audio_onended a ?t] =>
        eapply modifies_trans with (s2 := t); [frame|]
    end.
    eapply modifies_weaken; [|apply audio_onended_modifies]. incl_cells.
Qed.

End Frames.

(* ===================================================================== *)
(** ** The speaking flag and the playback handle *)
(* ===================================================================== *)

Section SpeakingFlag.

Lemma speaking_frame (W : list Cell) (s s' : State) :
  modifies W s s' -> ~ In c_isSpeaking W -> ~ In c_currentAudioRef W ->
  speaking_inv s -> speaking_inv s'.
Proof.
  intros H H1 H2. unfold speaking_inv, has_handle.
  pose proof (H _ H1) as K1. pose proof (H _ H2) as K2. cbn in K1, K2.
  rewrite K1, K2. auto.
Qed.

Lemma stopAIAudio_speaking (c : option AudioId) (s : State) :
  speaking_inv (JS.state_of (stopAIAudio c s)).
Proof.
  unfold speaking_inv, has_handle.
  rewrite stopAIAudio_hooks, stopAIAudio_refs. reflexivity.
Qed.

Lemma playAIAudio_speaking (c : option AudioId) (b64 text : string)
    (s : State) :
  speaking_inv (JS.state_of (playAIAudio c b64 text s)).
Proof.
  unfold playAIAudio. cbv zeta. rewrite stopAIAudio_normal.
  cbn [JS.andThen].
  pose proof (stopAIAudio_speaking c
                (console_log "[Audio] Playing AI response" s)) as H.
  revert H. generalize (JS.state_of (stopAIAudio c
                (console_log "[Audio] Playing AI response" s))).
  intros s1 H.
  destruct (base64ToBlob _ _); [|exact H].
  cbn [JS.state_of].
  destruct (JS.truthy_value (sessionIdRef (refs s1))); reflexivity.
Qed.

Lemma detectVoice_speaking (l : LoopId) (rms : Q) (now : Z) (s : State) :
  speaking_inv s -> speaking_inv (JS.state_of (detectVoice l rms now s)).
Proof.
  intros Hinv. unfold detectVoice.
  destruct (_ !! l) as [lp|]; [|exact Hinv].
  destruct (negb _); [exact Hinv|]. cbv zeta.
  match goal with
  | |- context [if negb ?b then console_log ?m ?t else ?t] =>
      assert (H1 : speaking_inv (if negb b then console_log m t else t))
        by (destruct (negb b); exact Hinv);
      generalize dependent (if negb b then console_log m t else t)
  end.
  intros s1 H1.
  destruct (Qgtb _ _).
  - rewrite speech_detected_normal. cbn [JS.andThen JS.state_of].
    change (speaking_inv (JS.state_of (speech_detected l (loopSession lp)
                                                       now s1))).
    unfold speech_detected. cbv zeta.
    destruct (negb _); [|exact H1].
    destruct (speechStartTimeRef _); [|exact H1].
    destruct (_ >? _); [|exact H1].
    rewrite stopAIAudio_normal. cbn [JS.andThen].
    eapply speaking_frame;
      [apply startRecording_modifies | cbn; intuition discriminate
      | cbn; intuition discriminate |].
    apply stopAIAudio_speaking.
  - destruct (Qltb _ _); cbn [JS.andThen JS.state_of].
    + change (speaking_inv (silence_detected l (lastSpeechTime lp) now s1)).
      unfold silence_detected. cbv zeta.
      destruct (_ && _); [|exact H1].
      eapply speaking_frame;
        [apply stopRecording_modifies | cbn; intuition discriminate
        | cbn; intuition discriminate |].
      exact H1.
    + exact H1.
Qed.

Lemma emit_await_speaking (e : Effect) (t : Task) (s : State) :
  speaking_inv s -> speaking_inv (s |> emit e |> await t).
Proof. intros H. exact H. Qed.

Lemma endConversation_speaking (s : State) :
  speaking_inv s -> speaking_inv (endConversation s).
Proof.
  intros Hinv. unfold endConversation.
  destruct (JS.truthy_value _); [|exact Hinv]. cbv zeta.
  apply emit_await_speaking. apply stopAIAudio_speaking.
Qed.

Lemma initializeAudio_resume_speaking (c : option AudioId)
    (r : MediaOutcome) (rms : Q) (now : Z) (s : State) :
  speaking_inv s -> speaking_inv (initializeAudio_resume c r rms now s).
Proof.
  intros Hinv. unfold initializeAudio_resume.
  destruct r as [m|[m|]]; try exact Hinv.
  unfold startVADLoop.
  cbn [refs set_analyserRef with_refs analyserRef console_log emit
       with_browser].
  rewrite detectVoice_normal.
  match goal with
  | |- context [detectVoice ?l rms now ?t] =>
      assert (H : speaking_inv (JS.state_of (detectVoice l rms now t)))
        by (apply detectVoice_speaking; exact Hinv);
      revert H; generalize (JS.state_of (detectVoice l rms now t))
  end.
  intros s1 H1. exact H1.
Qed.

Lemma sendAudioToBackend_resume_speaking (c : option AudioId)
    (r : JS.Outcome Response.InteractionResponse) (s : State) :
  speaking_inv s -> speaking_inv (sendAudioToBackend_resume c r s).
Proof.
  intros Hinv. unfold sendAudioToBackend_resume.
  destruct r as [m| |data]; try exact Hinv.
  cbv zeta.
  match goal with
  | |- context [match Response.audioResponse data with
                | Some a => @?f a | None => JS.Normal ?t end] =>
      assert (Ht : speaking_inv t)
        by (destruct (Response.learningProgress data); exact Hinv);
      generalize dependent t
  end.
  intros t Ht.
  destruct (Response.audioResponse data) as [au|]; [|exact Ht].
  destruct (Response.success data && JS.truthy (Some au)); [|exact Ht].
  pose proof (playAIAudio_speaking c au (Response.aiResponse data) t)
    as H.
  destruct (playAIAudio c au (Response.aiResponse data) t);
    cbn [JS.state_of] in H; exact H.
Qed.

Lemma audio_onended_speaking (a : AudioId) (s : State) :
  speaking_inv (audio_onended a s).
Proof.
  unfold audio_onended. cbn.
  destruct (JS.truthy_value (sessionIdRef (refs s))); reflexivity.
Qed.

Lemma step_speaking_inv (e : Event) (s : State) :
  speaking_inv s -> speaking_inv (step e s).
Proof.
  intros Hinv.
  destruct e;
    try (eapply speaking_frame;
         [apply step_modifies | cbn; intuition discriminate
         | cbn; intuition discriminate | exact Hinv]);
    cbn [step].
  - apply endConversation_speaking, Hinv.
  - destruct (_ !! k) as [[]|]; try exact Hinv.
    apply initializeAudio_resume_speaking, Hinv.
  - destruct (_ !! l) as [lp|]; [|exact Hinv].
    destruct (scheduled lp); [|exact Hinv].
    apply detectVoice_speaking. exact Hinv.
  - destruct (_ !! k) as [[]|]; try exact Hinv.
    apply sendAudioToBackend_resume_speaking, Hinv.
  - destruct (_ !! a) as [el|]; [|exact Hinv].
    destruct (playPending el); [|exact Hinv]. reflexivity.
  - destruct (_ !! a) as [el|]; [|exact Hinv].
    destruct (_ && _); [|exact Hinv].
    destruct (onended el); [|exact Hinv].
    apply audio_onended_speaking.
Qed.

Lemma run_speaking_inv (es : list Event) (s : State) :
  speaking_inv s -> speaking_inv (run es s).
Proof.
  revert s. induction es as [|e es IH]; intros s H; [exact H|].
  cbn. apply IH. now apply step_speaking_inv.
Qed.

(** X4. In every reachable state the [isSpeaking] flag is up exactly when
    [currentAudioRef] holds an element. *)
Theorem isSpeaking_iff_handle (es : list Event) :
  isSpeaking (hooks (run es initial)) = true
  <-> is_Some (currentAudioRef (refs (run es initial))).
Proof.
  pose proof (run_speaking_inv es initial eq_refl) as H.
  unfold speaking_inv, has_handle in H. rewrite H.
  destruct (currentAudioRef _); split; intros H'; try discriminate; eauto.
  destruct H' as [x Hx]. discriminate.
Qed.

End SpeakingFlag.

(* ===================================================================== *)
(** ** When a recorder may record *)
(* ===================================================================== *)

Section RecordingGate.

Lemma gated_frame (W : list Cell) (s s' : State) :
  modifies W s s' -> ~ In c_recorders W -> ~ In c_sessionActiveRef W ->
  ~ In c_isSpeakingRef W -> ~ In c_mediaStreamRef W ->
  recording_gated s -> recording_gated s'.
Proof.
  intros H H1 H2 H3 H4 Hg r m.
  pose proof (H _ H1) as K1. pose proof (H _ H2) as K2.
  pose proof (H _ H3) as K3. pose proof (H _ H4) as K4.
  cbn in K1, K2, K3, K4. rewrite K1, K2, K3, K4. apply Hg.
Qed.

Lemma no_recording_gated (s : State) : no_recording s -> recording_gated s.
Proof. intros H r m Hm Hr. rewrite (H r m Hm) in Hr. discriminate. Qed.

Lemma no_recording_frame (W : list Cell) (s s' : State) :
  modifies W s s' -> ~ In c_recorders W -> no_recording s -> no_recording s'.
Proof.
  intros H H1 Hn r m. pose proof (H _ H1) as K. cbn in K. rewrite K.
  apply Hn.
Qed.

Lemma recorder_stop_not_recording (s : State) :
  recorder_is_recording (recorder_stop s) = false.
Proof.
  unfold recorder_stop, recorder_is_recording.
  destruct (mediaRecorderRef (refs s)) as [r|] eqn:Href; cbn; rewrite Href;
    [|reflexivity].
  rewrite list_lookup_alter_eq. destruct (_ !! r); reflexivity.
Qed.

Lemma recorder_stop_none (s : State) :
  recorder_inv s -> no_recording (recorder_stop s).
Proof.
  intros Hinv. unfold no_recording. apply not_recording_none.
  - now apply recorder_stop_inv.
  - apply recorder_stop_not_recording.
Qed.

Lemma stopRecording_none (s : State) :
  recorder_inv s -> no_recording (stopRecording s).
Proof.
  intros Hinv. unfold stopRecording.
  destruct (recorder_is_recording s) eqn:Hrec.
  - eapply (no_recording_frame [c_isUserSpeaking]); [frame| |].
    + cbn; intuition discriminate.
    + apply recorder_stop_none.
      apply (rec_view_inv s); [reflexivity|exact Hinv].
  - unfold no_recording. now apply not_recording_none.
Qed.

Lemma cleanupAudio_none (s : State) :
  recorder_inv s -> no_recording (cleanupAudio s).
Proof.
  intros Hinv. unfold cleanupAudio. cbv zeta.
  match goal with
  | |- context [if recorder_is_recording ?t then recorder_stop ?t else ?t] =>
      assert (H1 : no_recording
                     (if recorder_is_recording t then recorder_stop t
                      else t));
      [ assert (H0 : recorder_inv t)
          by (apply (rec_view_inv s); [|exact Hinv];
              cbn; destruct (rafRef (refs s)); reflexivity);
        destruct (recorder_is_recording t) eqn:Hrec;
        [now apply recorder_stop_none | unfold no_recording; now apply not_recording_none]
      | generalize dependent
          (if recorder_is_recording t then recorder_stop t else t) ]
  end.
  intros s1 H1.
  eapply (no_recording_frame
            [c_effects; c_streams; c_mediaStreamRef; c_audioContextRef;
             c_analyserRef; c_isSpeakingRef; c_speechStartTimeRef]);
    [| cbn; intuition discriminate | exact H1].
  destruct (mediaStreamRef (refs s1)); cbn;
    destruct (audioContextRef (refs s1)); frame.
Qed.

Lemma startRecording_gated (c : option AudioId) (s : State) :
  sessionActiveRef (refs s) = true -> isSpeakingRef (refs s) = true ->
  recording_gated s -> recording_gated (JS.state_of (startRecording c s)).
Proof.
  intros Ha Hs Hg. unfold startRecording.
  destruct (mediaStreamRef (refs s)) as [stream|] eqn:Hst; [|exact Hg].
  destruct (recorder_is_recording s) eqn:Hrec; [exact Hg|].
  intros r m _ _. cbn. rewrite Ha, Hs, Hst. eauto.
Qed.

Lemma detectVoice_gated (l : LoopId) (rms : Q) (now : Z) (s : State) :
  recorder_inv s -> recording_gated s ->
  recording_gated (JS.state_of (detectVoice l rms now s)).
Proof.
  intros Hinv Hg. unfold detectVoice.
  destruct (_ !! l) as [lp|]; [|exact Hg].
  destruct (sessionActiveRef (refs s)) eqn:Hact; cbn [negb]; [|exact Hg].
  cbv zeta.
  match goal with
  | |- context [if negb ?b then console_log ?m ?t else ?t] =>
      assert (H1 : recording_gated (if negb b then console_log m t else t)
                   /\ recorder_inv (if negb b then console_log m t else t)
                   /\ sessionActiveRef
                        (refs (if negb b then console_log m t else t))
                      = true)
        by (destruct (negb b); auto);
      generalize dependent (if negb b then console_log m t else t)
  end.
  intros s1 (Hg1 & Hinv1 & Hact1).
  assert (Hfin : forall t, recording_gated t ->
            recording_gated
              (t |> set_scheduled l true |> set_rafRef (Some l))).
  { intros t H. exact H. }
  destruct (Qgtb _ _).
  - rewrite speech_detected_normal. cbn [JS.andThen JS.state_of].
    apply Hfin.
    unfold speech_detected. cbv zeta.
    destruct (negb _); [|exact Hg1].
    destruct (speechStartTimeRef _); [|exact Hg1].
    destruct (_ >? _); [|exact Hg1].
    rewrite stopAIAudio_normal. cbn [JS.andThen].
    apply startRecording_gated.
    + rewrite stopAIAudio_refs. exact Hact1.
    + rewrite stopAIAudio_refs. reflexivity.
    + eapply gated_frame;
        [apply stopAIAudio_modifies | cbn; intuition discriminate ..|].
      intros r m Hm Hr. destruct (Hg1 r m Hm Hr) as (A & B & C).
      cbn. auto.
  - destruct (Qltb _ _); cbn [JS.andThen JS.state_of]; apply Hfin.
    + unfold silence_detected. cbv zeta.
      destruct (_ && _); [|exact Hg1].
      apply no_recording_gated, stopRecording_none.
      apply (rec_view_inv s1); [reflexivity|exact Hinv1].
    + exact Hg1.
Qed.

Lemma emit_await_gated (e : Effect) (t : Task) (s : State) :
  recording_gated s -> recording_gated (s |> emit e |> await t).
Proof. intros H. exact H. Qed.

Lemma endConversation_gated (s : State) :
  recorder_inv s -> recording_gated s -> recording_gated (endConversation s).
Proof.
  intros Hinv Hg. unfold endConversation.
  destruct (JS.truthy_value _); [|exact Hg]. cbv zeta.
  apply emit_await_gated.
  apply no_recording_gated.
  eapply no_recording_frame;
    [apply stopAIAudio_modifies | cbn; intuition discriminate |].
  apply cleanupAudio_none.
  apply (rec_view_inv s); [reflexivity | exact Hinv].
Qed.

Lemma initializeAudio_resume_gated (c : option AudioId) (r : MediaOutcome)
    (rms : Q) (now : Z) (s : State) :
  recorder_inv s -> recording_gated s ->
  recording_gated (initializeAudio_resume c r rms now s).
Proof.
  intros Hinv Hg. unfold initializeAudio_resume.
  assert (Hst : forall t, the_recorders t = the_recorders s ->
            sessionActiveRef (refs t) = sessionActiveRef (refs s) ->
            isSpeakingRef (refs t) = isSpeakingRef (refs s) ->
            is_Some (mediaStreamRef (refs t)) -> recording_gated t).
  { intros t E1 E2 E3 E4 r' m'. rewrite E1, E2, E3. intros Hm Hr.
    destruct (Hg r' m' Hm Hr) as (A & B & _). auto. }
  destruct r as [m|[m|]]; try exact Hg.
  - apply Hst; cbn; eauto.
  - unfold startVADLoop.
    cbn [refs set_analyserRef with_refs analyserRef console_log emit
         with_browser].
    rewrite detectVoice_normal.
    match goal with
    | |- context [detectVoice ?l rms now ?t] =>
        assert (H : recording_gated (JS.state_of (detectVoice l rms now t)))
          by (apply detectVoice_gated;
              [apply (rec_view_inv s); [reflexivity|exact Hinv]
              | apply Hst; cbn; eauto]);
        revert H; generalize (JS.state_of (detectVoice l rms now t))
    end.
    intros s1 H1. exact H1.
Qed.

Lemma step_gated (e : Event) (s : State) :
  recorder_inv s -> recording_gated s -> recording_gated (step e s).
Proof.
  intros Hinv Hg.
  destruct e;
    try (eapply gated_frame;
         [apply step_modifies | cbn; intuition discriminate .. | exact Hg]);
    cbn [step].
  - apply endConversation_gated; assumption.
  - (* Start_settled *)
    destruct (_ !! k) as [[]|]; try exact Hg.
    destruct r; try exact Hg.
    intros r' m' Hm Hr. destruct (Hg r' m' Hm Hr) as (A & B & C).
    cbn. auto.
  - destruct (_ !! k) as [[]|]; try exact Hg.
    apply initializeAudio_resume_gated; [|exact Hg].
    apply (rec_view_inv s); [reflexivity|exact Hinv].
  - destruct (_ !! l) as [lp|]; [|exact Hg].
    destruct (scheduled lp); [|exact Hg].
    apply detectVoice_gated; [|exact Hg].
    apply (rec_view_inv s); [reflexivity|exact Hinv].
  - (* Recorder_stopped *)
    destruct (the_recorders s !! r) as [m|] eqn:Hm; [|exact Hg].
    destruct (stopQueued m); [|exact Hg].
    eapply gated_frame;
      [apply recorder_handlers_modifies | cbn; intuition discriminate ..|].
    intros r' m'. cbn. rewrite list_lookup_alter.
    case_decide; [subst|apply Hg].
    rewrite Hm. cbn. intros [= <-]. cbn. intros Hr. exact (Hg _ _ Hm Hr).
Qed.

Lemma run_gated (es : list Event) (s : State) :
  recorder_inv s -> recording_gated s -> recording_gated (run es s).
Proof.
  revert s. induction es as [|e es IH]; intros s H1 H2; [exact H2|].
  cbn. apply IH; [now apply step_recorder_inv | now apply step_gated].
Qed.

(** X5. In every reachable state a recorder records only while the session
    is active, the detector holds that the user speaks, and a microphone
    stream is held. *)
Theorem recording_only_when_gated (es : list Event) (r : RecorderId)
    (m : MediaRecorder) :
  the_recorders (run es initial) !! r = Some m -> rstate m = recording ->
  sessionActiveRef (refs (run es initial)) = true
  /\ isSpeakingRef (refs (run es initial)) = true
  /\ is_Some (mediaStreamRef (refs (run es initial))).
Proof.
  apply (run_gated es initial).
  - intros r' m' H. destruct r'; discriminate.
  - intros r' m' H. destruct r'; discriminate.
Qed.

Lemma recording_only_when_gated_witness :
  sessionActiveRef (refs user_speaking) = true
  /\ isSpeakingRef (refs user_speaking) = true
  /\ is_Some (mediaStreamRef (refs user_speaking)).
Proof.
  apply (recording_only_when_gated
           (session_started
            ++ [ AnimationFrame 0 (2 # 100) 1000;
                 AnimationFrame 0 (2 # 100) 1101 ])
           0%nat (mkRecorder recording false 0%nat None));
    reflexivity.
Defined.

End RecordingGate.

(* ===================================================================== *)
(** ** Frames that decide nothing *)
(* ===================================================================== *)

Section QuietFrames.

Lemma dead_zone_tests (rms : Q) :
  in_dead_zone rms ->
  Qgtb rms SPEECH_THRESHOLD = false /\ Qltb rms SILENCE_THRESHOLD = false.
Proof.
  intros [H1 H2]. unfold Qgtb, Qltb. split.
  - pose proof (proj1 (Qle_alt _ _) H2) as H.
    destruct (rms ?= SPEECH_THRESHOLD)%Q; congruence.
  - pose proof (proj1 (Qle_alt _ _) H1) as H.
    rewrite <- Qcompare_antisym.
    destruct (SILENCE_THRESHOLD ?= rms)%Q; cbn; congruence.
Qed.

(** X6. A frame whose level lies between the two thresholds decides
    nothing: it stores the level, may write the debug line, and asks for
    the next frame; the times its loop keeps are as they were. *)
Theorem dead_zone_frame (l : LoopId) (rms : Q) (now : Z) (s : State) :
  in_dead_zone rms ->
  let s' := step (AnimationFrame l rms now) s in
  modifies [c_audioLevel; c_effects; c_loops; c_rafRef] s s'
  /\ lastSpeechTime <$> (the_loops s' !! l)
     = lastSpeechTime <$> (the_loops s !! l)
  /\ lastSilenceTime <$> (the_loops s' !! l)
     = lastSilenceTime <$> (the_loops s !! l).
Proof.
  intros Hz. destruct (dead_zone_tests rms Hz) as [Hg Hl].
  cbn [step]. cbv zeta.
  destruct (the_loops s !! l) as [lp|] eqn:Hlp;
    [|split; [apply modifies_refl|rewrite Hlp; auto]].
  destruct (scheduled lp) eqn:Hsch;
    [|split; [apply modifies_refl|rewrite Hlp; auto]].
  unfold detectVoice.
  assert (Hlp' : the_loops (set_scheduled l false s) !! l
                 = Some (mkLoop (lastSpeechTime lp) (lastSilenceTime lp)
                                false (loopSession lp))).
  { cbn. rewrite list_lookup_alter_eq, Hlp. reflexivity. }
  rewrite Hlp'. rewrite Hg, Hl.
  change (sessionActiveRef (refs (set_scheduled l false s)))
    with (sessionActiveRef (refs s)).
  destruct (sessionActiveRef (refs s)); cbn [negb].
  - cbn [lastSilenceTime JS.andThen JS.state_of].
    destruct (negb _); cbn; (split; [frame|]);
      rewrite !list_lookup_alter_eq, Hlp; cbn; auto.
  - cbn. split; [frame|].
    rewrite !list_lookup_alter_eq, Hlp; cbn; auto.
Qed.

Lemma dead_zone_frame_witness :
  let s' := step (AnimationFrame 0 (1 # 100) 1500) user_speaking in
  modifies [c_audioLevel; c_effects; c_loops; c_rafRef] user_speaking s'
  /\ lastSpeechTime <$> (the_loops s' !! 0%nat)
     = lastSpeechTime <$> (the_loops user_speaking !! 0%nat)
  /\ lastSilenceTime <$> (the_loops s' !! 0%nat)
     = lastSilenceTime <$> (the_loops user_speaking !! 0%nat).
Proof.
  apply (dead_zone_frame 0 (1 # 100) 1500 user_speaking).
  split; unfold SILENCE_THRESHOLD, SPEECH_THRESHOLD, Qle; cbn; lia.
Defined.

Lemma inactive_frame (e : Event) (s : State) :
  is_frame e = true -> sessionActiveRef (refs s) = false ->
  modifies [c_effects; c_loops] s (step e s).
Proof.
  intros He Hact. destruct e; try discriminate He. cbn [step].
  destruct (the_loops s !! l) as [lp|] eqn:Hlp; [|apply modifies_refl].
  destruct (scheduled lp); [|apply modifies_refl].
  unfold detectVoice.
  change (sessionActiveRef (refs (set_scheduled l false s)))
    with (sessionActiveRef (refs s)).
  rewrite Hact. cbn [negb].
  destruct (the_loops (set_scheduled l false s) !! l); frame.
Qed.

(** X7. Once the session is not active, animation frames of whatever loop
    and with whatever level write nothing but the loop records and the
    log. *)
Theorem inactive_frames (es : list Event) (s : State) :
  forallb is_frame es = true -> sessionActiveRef (refs s) = false ->
  modifies [c_effects; c_loops] s (run es s).
Proof.
  revert s. induction es as [|e es IH]; intros s Hes Hact;
    [apply modifies_refl|].
  cbn in Hes. apply andb_true_iff in Hes as [He Hes]. cbn [run fold_left].
  pose proof (inactive_frame e s He Hact) as H1.
  eapply modifies_trans; [exact H1|].
  apply IH; [exact Hes|].
  kept H1 c_sessionActiveRef. congruence.
Qed.

Lemma inactive_frames_witness :
  modifies [c_effects; c_loops] ended_with_request_in_flight
    (run (frames 0 [(2 # 100, 6000); (2 # 100, 6200)])
         ended_with_request_in_flight).
Proof.
  apply (inactive_frames (frames 0 [(2 # 100, 6000); (2 # 100, 6200)])
                         ended_with_request_in_flight);
    reflexivity.
Defined.

End QuietFrames.

(* ===================================================================== *)
(** ** Release: End, unmount and clean-up *)
(* ===================================================================== *)

Section Release.

Ltac unwritten := intros ?; cbn; intuition (subst; discriminate).

Lemma cleanupAudio_refs (s : State) :
  refs (cleanupAudio s)
  = mkRefs None None None (mediaRecorderRef (refs s))
      (audioChunksRef (refs s)) None false None (sessionActiveRef (refs s))
      (sessionIdRef (refs s)) (audioUnlockedRef (refs s))
      (currentAudioRef (refs s)).
Proof.
  destruct s as [h [ctx an ms mr ch raf sp sst act sid unl cur] b].
  unfold cleanupAudio. cbv zeta.
  destruct raf; cbn;
    match goal with
    | |- context [recorder_is_recording ?t] =>
        destruct (recorder_is_recording t)
    end; unfold recorder_stop; cbn; destruct mr, ms, ctx; reflexivity.
Qed.

Lemma open_recorders_none (s : State) :
  no_recording s -> open_recorders s = [].
Proof.
  intros H. unfold open_recorders.
  induction (seq 0 (length (the_recorders s))) as [|x l IH];
    [reflexivity|].
  cbn. destruct (the_recorders s !! x) as [m|] eqn:Hm; [|exact IH].
  rewrite (H x m Hm). exact IH.
Qed.

Lemma cleanup_then_stop (c : option AudioId) (s : State) :
  recorder_inv s -> released (JS.state_of (stopAIAudio c (cleanupAudio s))).
Proof.
  intros Hinv. unfold released.
  rewrite stopAIAudio_refs, stopAIAudio_hooks.
  cbn [refs hooks set_currentAudioRef with_refs setIsSpeaking setSession
       with_hooks].
  rewrite cleanupAudio_refs. cbn.
  repeat (split; [reflexivity|]).
  apply open_recorders_none.
  eapply no_recording_frame;
    [apply stopAIAudio_modifies | cbn; intuition discriminate |].
  now apply cleanupAudio_none.
Qed.

Lemma released_frame (W : list Cell) (s s' : State) :
  modifies W s s' -> (forall c, In c released_cells -> ~ In c W) ->
  released s -> released s'.
Proof.
  intros H HW (H1 & H2 & H3 & H4 & H5 & H6 & H7 & H8 & H9).
  assert (K : forall c, In c released_cells -> cell_eq c s s').
  { intros c Hc. apply H, HW, Hc. }
  unfold released, open_recorders.
  pose proof (K c_mediaStreamRef ltac:(cbn; tauto)) as K1.
  pose proof (K c_audioContextRef ltac:(cbn; tauto)) as K2.
  pose proof (K c_analyserRef ltac:(cbn; tauto)) as K3.
  pose proof (K c_rafRef ltac:(cbn; tauto)) as K4.
  pose proof (K c_isSpeakingRef ltac:(cbn; tauto)) as K5.
  pose proof (K c_speechStartTimeRef ltac:(cbn; tauto)) as K6.
  pose proof (K c_currentAudioRef ltac:(cbn; tauto)) as K7.
  pose proof (K c_isSpeaking ltac:(cbn; tauto)) as K8.
  pose proof (K c_recorders ltac:(cbn; tauto)) as K9.
  cbn in K1, K2, K3, K4, K5, K6, K7, K8, K9.
  repeat split; try congruence.
  unfold open_recorders in H9. rewrite K9. exact H9.
Qed.

Lemma initial_recorder_inv : recorder_inv initial.
Proof. intros r m H. destruct r; discriminate. Qed.

Lemma initial_gated : recording_gated initial.
Proof. intros r m H. destruct r; discriminate. Qed.

Lemma truthy_value_Some (x : option string) :
  JS.truthy x = true -> exists sid, x = Some sid /\ JS.truthy_value x = Some sid.
Proof.
  unfold JS.truthy_value. intros H. rewrite H.
  destruct x as [sid|]; [eauto|discriminate].
Qed.

Lemma endConversation_released (s : State) (sid : string) :
  recorder_inv s -> JS.truthy_value (sessionIdRef (refs s)) = Some sid ->
  released (endConversation s)
  /\ sessionActiveRef (refs (endConversation s)) = false
  /\ sessionIdRef (refs (endConversation s)) = sessionIdRef (refs s)
  /\ the_tasks (endConversation s) = the_tasks s ++ [AwaitCompleteFetch]
  /\ last (the_effects (endConversation s)) = Some (FetchComplete sid).
Proof.
  intros Hinv Hsid. unfold endConversation. rewrite Hsid. cbv zeta.
  set (s0 := s |> console_log "[Session] Ending conversation"
               |> set_sessionActiveRef false).
  set (c := currentAudio (session (hooks s))).
  pose proof (cleanup_then_stop c s0) as Hrel.
  pose proof (stopAIAudio_refs c (cleanupAudio s0)) as Hrefs.
  destruct (stopAIAudio_rest c (cleanupAudio s0)) as (_ & _ & _ & Htasks).
  pose proof (cleanupAudio_modifies s0) as Hcl.
  kept Hcl c_tasks.
  pose proof (cleanupAudio_refs s0) as Hcr.
  revert Hrel Hrefs Htasks.
  generalize (JS.state_of (stopAIAudio c (cleanupAudio s0))).
  intros s1 Hrel Hrefs Htasks.
  split; [|split; [|split; [|split]]].
  - eapply (released_frame [c_tasks; c_effects]); [frame|unwritten|].
    apply Hrel. apply (rec_view_inv s); [reflexivity|exact Hinv].
  - change (sessionActiveRef (refs s1) = false). rewrite Hrefs.
    change (sessionActiveRef (refs (cleanupAudio s0)) = false).
    rewrite Hcr. reflexivity.
  - change (sessionIdRef (refs s1) = sessionIdRef (refs s)). rewrite Hrefs.
    change (sessionIdRef (refs (cleanupAudio s0)) = sessionIdRef (refs s)).
    rewrite Hcr. reflexivity.
  - change (the_tasks s1 ++ [AwaitCompleteFetch]
            = the_tasks s ++ [AwaitCompleteFetch]).
    rewrite Htasks, K. reflexivity.
  - cbn. apply last_snoc.
Qed.




(** X10. A second [cleanupAudio] finds nothing to release: it only writes
    its log line. *)
Theorem cleanupAudio_twice (s : State) :
  cleanupAudio (cleanupAudio s)
  = console_log "[Audio] Cleaning up" (cleanupAudio s).
Proof.
  assert (Hraf : rafRef (refs (cleanupAudio s)) = None)
    by (rewrite cleanupAudio_refs; reflexivity).
  assert (Hms : mediaStreamRef (refs (cleanupAudio s)) = None)
    by (rewrite cleanupAudio_refs; reflexivity).
  assert (Hctx : audioContextRef (refs (cleanupAudio s)) = None)
    by (rewrite cleanupAudio_refs; reflexivity).
  assert (Han : analyserRef (refs (cleanupAudio s)) = None)
    by (rewrite cleanupAudio_refs; reflexivity).
  assert (Hsp : isSpeakingRef (refs (cleanupAudio s)) = false)
    by (rewrite cleanupAudio_refs; reflexivity).
  assert (Hst : speechStartTimeRef (refs (cleanupAudio s)) = None)
    by (rewrite cleanupAudio_refs; reflexivity).
  assert (Hrec : recorder_is_recording (cleanupAudio s) = false).
  { unfold cleanupAudio. cbv zeta.
    match goal with
    | |- context [if recorder_is_recording ?t then recorder_stop ?t
                  else ?t] =>
        assert (H1 : recorder_is_recording
                       (if recorder_is_recording t then recorder_stop t
                        else t) = false)
          by (destruct (recorder_is_recording t) eqn:E;
              [apply recorder_stop_not_recording | exact E]);
        revert H1;
        generalize (if recorder_is_recording t then recorder_stop t
                    else t)
    end.
    intros s1 H1. rewrite <- H1.
    destruct (mediaStreamRef (refs s1)); cbn;
      destruct (audioContextRef (refs s1)); reflexivity. }
  revert Hraf Hms Hctx Han Hsp Hst Hrec. generalize (cleanupAudio s).
  intros s1 Hraf Hms Hctx Han Hsp Hst Hrec.
  unfold cleanupAudio. cbv zeta.
  change (rafRef (refs (console_log "[Audio] Cleaning up" s1)))
    with (rafRef (refs s1)).
  rewrite Hraf.
  change (recorder_is_recording (console_log "[Audio] Cleaning up" s1))
    with (recorder_is_recording s1).
  rewrite Hrec.
  change (mediaStreamRef (refs (console_log "[Audio] Cleaning up" s1)))
    with (mediaStreamRef (refs s1)).
  rewrite Hms.
  change (audioContextRef (refs (console_log "[Audio] Cleaning up" s1)))
    with (audioContextRef (refs s1)).
  rewrite Hctx.
  destruct s1 as [h [ctx an ms mr ch raf sp sst act sid unl cur] b].
  cbn in *. subst. reflexivity.
Qed.

Lemma refs_emit_await (e : Effect) (t : Task) (s : State) :
  refs (s |> emit e |> await t) = refs s.
Proof. reflexivity. Qed.

Lemma endConversation_no_stream (s : State) :
  mediaStreamRef (refs s) = None ->
  mediaStreamRef (refs (endConversation s)) = None.
Proof.
  intros Hs. unfold endConversation.
  destruct (JS.truthy_value _); [|exact Hs]. cbv zeta.
  rewrite refs_emit_await, stopAIAudio_refs.
  cbn [refs set_currentAudioRef with_refs mediaStreamRef].
  rewrite cleanupAudio_refs. reflexivity.
Qed.

Lemma step_keeps_no_stream (e : Event) (s : State) :
  is_userMedia e = false -> mediaStreamRef (refs s) = None ->
  mediaStreamRef (refs (step e s)) = None.
Proof.
  intros He Hs. pose proof (step_modifies e s) as H.
  destruct e; try discriminate He;
    try (kept H c_mediaStreamRef; congruence).
  now apply endConversation_no_stream.
Qed.

(** X11. While no microphone stream is held, no recorder records: from a
    reachable state without a stream, whatever events follow, short of a
    settled [getUserMedia], leave every recorder inactive. *)
Theorem no_stream_no_recording (pre es : list Event) :
  mediaStreamRef (refs (run pre initial)) = None ->
  forallb (fun e => negb (is_userMedia e)) es = true ->
  open_recorders (run es (run pre initial)) = [].
Proof.
  intros Hs Hes.
  assert (Hnone : mediaStreamRef (refs (run es (run pre initial))) = None).
  { revert Hs Hes. generalize (run pre initial).
    induction es as [|e es IH]; intros s Hs Hes; [exact Hs|].
    cbn in Hes. apply andb_true_iff in Hes as [He Hes].
    cbn [run fold_left]. apply IH; [|exact Hes].
    apply step_keeps_no_stream; [|exact Hs].
    now destruct (is_userMedia e). }
  apply open_recorders_none. intros r m Hm.
  destruct (rstate m) eqn:Hr; [reflexivity|].
  rewrite <- run_app in Hm, Hnone.
  destruct (run_gated (pre ++ es) initial initial_recorder_inv
              initial_gated r m Hm Hr) as (_ & _ & [x Hx]).
  congruence.
Qed.

Lemma no_stream_no_recording_witness :
  open_recorders
    (run (utterance 7000)
         (run (first_request_sent ++ [Click_end]) initial)) = [].
Proof.
  apply (no_stream_no_recording (first_request_sent ++ [Click_end])
                                (utterance 7000));
    reflexivity.
Defined.

End Release.

(* ===================================================================== *)
(** ** Runs and replies *)
(* ===================================================================== *)

Section Replies.

Lemma run_modifies (es : list Event) (s : State) :
  modifies (flat_map writes es) s (run es s).
Proof.
  revert s. induction es as [|e es IH]; intros s; [apply modifies_refl|].
  cbn [run fold_left flat_map].
  eapply modifies_trans with (s2 := step e s).
  - eapply modifies_weaken; [|apply step_modifies]. apply incl_appl, incl_refl.
  - eapply modifies_weaken; [|apply IH]. apply incl_appr, incl_refl.
Qed.

(** X3. Each handler writes only the cells listed for its event, so a run
    keeps every cell that none of its events lists.  The list of an
    animation frame, for one, holds neither the history, nor the error,
    nor [isProcessing], nor [sessionActiveRef], [sessionIdRef] and
    [mediaStreamRef], nor the pending requests. *)
Theorem run_writes (es : list Event) (s : State) (c : Cell) :
  forallb (fun e => negb (writes_cell e c)) es = true ->
  cell_eq c s (run es s).
Proof.
  intros H. apply (run_modifies es s). intros Hin.
  apply in_flat_map in Hin as (e & He & Hc).
  rewrite forallb_forall in H. specialize (H e He).
  unfold writes_cell in H.
  rewrite bool_decide_true in H by (apply list_elem_of_In, Hc).
  discriminate.
Qed.

Lemma run_writes_witness :
  cell_eq c_conversationHistory user_speaking
    (run (utterance 2000 ++ [Audio_ended 0; Click_end]) user_speaking).
Proof.
  apply (run_writes (utterance 2000 ++ [Audio_ended 0; Click_end])
                    user_speaking c_conversationHistory).
  vm_compute. reflexivity.
Defined.

Lemma sendAudioToBackend_resume_isProcessing (c : option AudioId)
    (r : JS.Outcome Response.InteractionResponse) (s : State) :
  isProcessing (hooks (sendAudioToBackend_resume c r s)) = false.
Proof. reflexivity. Qed.

(** X12. When an interact request settles, [isProcessing] is cleared
    whatever the outcome, also when the playback of the answer throws.  A
    request that failed records an error and touches nothing else: the
    history, the playback and the recorders are as they were. *)
Theorem interact_settled_finally (s : State) (k : TaskId)
    (cap : option AudioId) (r : JS.Outcome Response.InteractionResponse) :
  the_tasks s !! k = Some (AwaitInteractFetch cap) ->
  let s' := step (Interact_settled k r) s in
  isProcessing (hooks s') = false
  /\ the_tasks s' !! k = Some Settled
  /\ ((forall data, r <> JS.Ok data) ->
      modifies [c_tasks; c_effects; c_error; c_isProcessing] s s'
      /\ is_Some (error (hooks s'))).
Proof.
  intros Hk. cbn [step]. rewrite Hk. cbv zeta.
  split; [apply sendAudioToBackend_resume_isProcessing|].
  split.
  - pose proof (sendAudioToBackend_resume_modifies cap r (settle k s)) as H.
    kept H c_tasks. rewrite K. cbn.
    rewrite list_lookup_insert_eq; [reflexivity|].
    now apply lookup_lt_Some in Hk.
  - intros Hr. destruct r as [m| |data]; [| |destruct (Hr data eq_refl)];
      (split; [frame|cbn; eauto]).
Qed.

Lemma interact_settled_finally_witness :
  let s := run first_request_sent initial in
  let s' := step (Interact_settled 3 JS.NotOk) s in
  isProcessing (hooks s') = false
  /\ the_tasks s' !! 3%nat = Some Settled
  /\ ((forall data : Response.InteractionResponse,
         JS.NotOk <> JS.Ok data) ->
      modifies [c_tasks; c_effects; c_error; c_isProcessing] s s'
      /\ is_Some (error (hooks s'))).
Proof.
  apply (interact_settled_finally (run first_request_sent initial) 3 None
                                  JS.NotOk).
  reflexivity.
Defined.

(** X13. An answer whose audio is not base64: the playback under way is
    stopped and its handle dropped before the decoding fails, no element
    is made, the history has its two entries, the decoder's message is the
    error, and [isProcessing] is cleared. *)
Theorem undecodable_answer (s : State) (k : TaskId) (cap : option AudioId)
    (text audio : string) (lp : option LearningProgress) :
  the_tasks s !! k = Some (AwaitInteractFetch cap) ->
  JS.truthy (Some audio) = true ->
  Base64.atob audio = None ->
  let s' := step (Interact_settled k
                    (JS.Ok (Response.mk true text (Some audio) lp))) s in
  length (the_audios s') = length (the_audios s)
  /\ currentAudioRef (refs s') = None
  /\ isSpeaking (hooks s') = false
  /\ (forall a el, currentAudioRef (refs s) = Some a ->
       the_audios s !! a = Some el -> faulty el = false ->
       exists el', the_audios s' !! a = Some el' /\ paused el' = true)
  /\ conversationHistory (hooks s')
     = conversationHistory (hooks s) ++ [(user, "[Audio Message]"); (ai, text)]
  /\ error (hooks s') = Some atob_error_message
  /\ isProcessing (hooks s') = false.
Proof.
  intros Hk Htr Hatob. cbn [step]. rewrite Hk. cbv zeta.
  unfold sendAudioToBackend_resume. cbv zeta.
  cbn [Response.audioResponse Response.success Response.aiResponse
       Response.learningProgress andb].
  rewrite Htr.
  match goal with
  | |- context [playAIAudio cap audio text ?t] =>
      assert (Ht : the_audios t = the_audios s
                   /\ currentAudioRef (refs t) = currentAudioRef (refs s)
                   /\ conversationHistory (hooks t)
                      = conversationHistory (hooks s)
                        ++ [(user, "[Audio Message]"); (ai, text)])
        by (destruct lp; auto);
      generalize dependent t
  end.
  intros t (Hau & Href & Hhist).
  unfold playAIAudio. cbv zeta. rewrite stopAIAudio_normal.
  cbn [JS.andThen]. unfold base64ToBlob. rewrite Hatob.
  set (t0 := console_log "[Audio] Playing AI response" t).
  pose proof (stopAIAudio_hooks cap t0) as Hh.
  pose proof (stopAIAudio_refs cap t0) as Hr.
  pose proof (stopAIAudio_audios cap t0) as Ha.
  change (the_audios t0) with (the_audios t) in Ha.
  change (currentAudioRef (refs t0)) with (currentAudioRef (refs t)) in Ha.
  revert Hh Hr Ha. generalize (JS.state_of (stopAIAudio cap t0)).
  intros s1 Hh Hr Ha. cbn. rewrite Hh, Hr, Ha, Hau, Href. cbn.
  split.
  { destruct (currentAudioRef (refs s)), cap; cbn;
      now rewrite ?length_alter. }
  split; [reflexivity|]. split; [reflexivity|].
  split; [|rewrite Hhist; auto].
  intros a el Hcur Hel Hf. rewrite Hcur.
  assert (H1 : alter stopped a (the_audios s) !! a = Some (rewound el)).
  { rewrite list_lookup_alter_eq, Hel. cbn. unfold stopped.
    now rewrite Hf. }
  destruct cap as [x|]; [|eauto].
  rewrite list_lookup_alter. case_decide; [subst|eauto].
  rewrite H1. cbn. unfold stopped. cbn. rewrite Hf. eauto.
Qed.

Lemma undecodable_answer_witness :
  let s := run first_request_sent initial in
  let s' := step (Interact_settled 3
                    (JS.Ok (Response.mk true "Hello" (Some "S") None))) s in
  length (the_audios s') = length (the_audios s)
  /\ currentAudioRef (refs s') = None
  /\ isSpeaking (hooks s') = false
  /\ (forall a el, currentAudioRef (refs s) = Some a ->
       the_audios s !! a = Some el -> faulty el = false ->
       exists el', the_audios s' !! a = Some el' /\ paused el' = true)
  /\ conversationHistory (hooks s')
     = conversationHistory (hooks s)
       ++ [(user, "[Audio Message]"); (ai, "Hello")]
  /\ error (hooks s') = Some atob_error_message
  /\ isProcessing (hooks s') = false.
Proof.
  apply (undecodable_answer (run first_request_sent initial) 3 None
                            "Hello" "S" None);
    reflexivity.
Defined.

Lemma turns_snoc (answers : list string) (t : string) :
  turns (answers ++ [t]) = turns answers ++ [(user, "[Audio Message]"); (ai, t)].
Proof. unfold turns. rewrite flat_map_app. cbn. reflexivity. Qed.

Lemma sendAudioToBackend_resume_history (c : option AudioId)
    (r : JS.Outcome Response.InteractionResponse) (s : State) :
  conversationHistory (hooks (sendAudioToBackend_resume c r s))
  = match r with
    | JS.Ok data =>
        conversationHistory (hooks s)
        ++ [(user, "[Audio Message]"); (ai, Response.aiResponse data)]
    | _ => conversationHistory (hooks s)
    end.
Proof.
  unfold sendAudioToBackend_resume.
  destruct r as [m| |data]; try reflexivity.
  cbv zeta.
  match goal with
  | |- context [match Response.audioResponse data with
                | Some a => @?f a | None => JS.Normal ?t end] =>
      assert (Ht : conversationHistory (hooks t)
                   = conversationHistory (hooks s)
                     ++ [(user, "[Audio Message]");
                         (ai, Response.aiResponse data)])
        by (destruct (Response.learningProgress data); reflexivity);
      generalize dependent t
  end.
  intros t Ht.
  destruct (Response.audioResponse data) as [au|]; [|exact Ht].
  destruct (Response.success data && JS.truthy (Some au)); [|exact Ht].
  pose proof (playAIAudio_modifies c au (Response.aiResponse data) t) as H.
  kept H c_conversationHistory.
  destruct (playAIAudio c au (Response.aiResponse data) t);
    cbn [JS.state_of] in K; cbn; congruence.
Qed.

Lemma step_history (e : Event) (s : State) (answers : list string) :
  conversationHistory (hooks s) = turns answers ->
  exists answers', conversationHistory (hooks (step e s)) = turns answers'.
Proof.
  intros Hs. pose proof (step_modifies e s) as H.
  destruct e;
    try (exists answers; kept H c_conversationHistory; congruence);
    cbn [step].
  - (* Start_settled *)
    destruct (_ !! k) as [[]|]; eauto.
    destruct r; [exists answers; exact Hs ..|].
    exists []. reflexivity.
  - (* Interact_settled *)
    destruct (_ !! k) as [[]|]; eauto.
    rewrite sendAudioToBackend_resume_history.
    destruct r as [m| |data]; [exists answers; exact Hs ..|].
    exists (answers ++ [Response.aiResponse data]).
    rewrite turns_snoc. cbn. now rewrite Hs.
Qed.

(** X14. In every reachable state the history is a sequence of turns, each
    the placeholder for the user's audio followed by an answer: its length
    is even and the user's entries never carry text. *)
Theorem history_is_turns (es : list Event) :
  exists answers,
    conversationHistory (hooks (run es initial)) = turns answers.
Proof.
  assert (H : forall s answers,
             conversationHistory (hooks s) = turns answers ->
             exists answers',
               conversationHistory (hooks (run es s)) = turns answers').
  { induction es as [|e es IH]; intros s answers Hs; [eauto|].
    cbn [run fold_left].
    destruct (step_history e s answers Hs) as (answers' & H').
    exact (IH _ _ H'). }
  apply (H initial []). reflexivity.
Qed.

End Replies.

(* ===================================================================== *)
(** ** The interact requests a run issues *)
(* ===================================================================== *)

Section WellFormedRequests.

Lemma effects_ok_same (s s' : State) :
  the_effects s' = the_effects s -> effects_ok s -> effects_ok s'.
Proof. unfold effects_ok. now intros ->. Qed.

Lemma effects_ok_emit (e : Effect) (s : State) :
  well_formed_effect e = true -> effects_ok s -> effects_ok (emit e s).
Proof.
  unfold effects_ok. intros He H. cbn. rewrite forallb_app, H. cbn.
  now rewrite He.
Qed.

Ltac eff H :=
  unfold effects_ok in *; cbn; rewrite ?forallb_app; cbn; rewrite ?H;
  reflexivity.

Lemma pause_and_rewind_ok (a : AudioId) (s : State) :
  effects_ok s -> effects_ok (JS.state_of (pause_and_rewind a s)).
Proof.
  intros H. unfold pause_and_rewind.
  destruct (_ !! a) as [el|]; [destruct (faulty el)|]; eff H.
Qed.

Lemma stopAIAudio_ok (c : option AudioId) (s : State) :
  effects_ok s -> effects_ok (JS.state_of (stopAIAudio c s)).
Proof.
  intros H. unfold stopAIAudio, JS.try_swallow. cbv zeta.
  assert (H0 : effects_ok (console_log "[Audio] Interrupting AI speech" s))
    by eff H.
  change (currentAudioRef
            (refs (console_log "[Audio] Interrupting AI speech" s)))
    with (currentAudioRef (refs s)).
  revert H0. generalize (console_log "[Audio] Interrupting AI speech" s).
  intros s0 H0.
  destruct (currentAudioRef (refs s)) as [a|];
    cbn [JS.andThen JS.state_of].
  - pose proof (pause_and_rewind_ok a s0 H0) as H1.
    revert H1. generalize (JS.state_of (pause_and_rewind a s0)).
    intros s1 H1.
    destruct c as [a'|]; cbn [JS.andThen JS.state_of].
    + apply (effects_ok_same
               (JS.state_of (pause_and_rewind a' (set_currentAudioRef None s1))));
        [reflexivity|].
      apply pause_and_rewind_ok. exact H1.
    + exact H1.
  - destruct c as [a'|]; cbn [JS.andThen JS.state_of].
    + apply (effects_ok_same (JS.state_of (pause_and_rewind a' s0)));
        [reflexivity|].
      apply pause_and_rewind_ok. exact H0.
    + exact H0.
Qed.

Lemma playAIAudio_ok (c : option AudioId) (b64 text : string) (s : State) :
  effects_ok s -> effects_ok (JS.state_of (playAIAudio c b64 text s)).
Proof.
  intros H. unfold playAIAudio. cbv zeta. rewrite stopAIAudio_normal.
  cbn [JS.andThen].
  assert (H1 : effects_ok (JS.state_of (stopAIAudio c
                 (console_log "[Audio] Playing AI response" s))))
    by (apply stopAIAudio_ok; eff H).
  revert H1. generalize (JS.state_of (stopAIAudio c
                 (console_log "[Audio] Playing AI response" s))).
  intros s1 H1.
  destruct (base64ToBlob _ _); [|exact H1].
  cbn [JS.state_of].
  destruct (JS.truthy_value (sessionIdRef (refs s1))) eqn:E;
    unfold effects_ok in *; cbn; rewrite E; cbn;
    rewrite ?forallb_app; cbn; rewrite H1; reflexivity.
Qed.

Lemma truthy_value_truthy (x : option string) (sid : string) :
  JS.truthy_value x = Some sid -> JS.truthy (Some sid) = true.
Proof.
  unfold JS.truthy_value. destruct (JS.truthy x) eqn:E; [|discriminate].
  intros ->. exact E.
Qed.

Lemma emit_await_ok (e : Effect) (t : Task) (s : State) :
  well_formed_effect e = true -> effects_ok s ->
  effects_ok (s |> emit e |> await t).
Proof. intros He H. apply (effects_ok_emit e s He H). Qed.

Lemma sendAudioToBackend_ok (c : option AudioId) (b : Blob) (s : State) :
  (0 <? blobSize b)%nat = true -> blobType b = "audio/webm" ->
  effects_ok s -> effects_ok (sendAudioToBackend c b s).
Proof.
  intros Hb Ht H. unfold sendAudioToBackend.
  destruct (JS.truthy_value _) as [sid|] eqn:E; [|eff H].
  apply truthy_value_truthy in E.
  apply emit_await_ok;
    [unfold well_formed_effect; rewrite E, Hb, Ht; reflexivity|].
  eff H.
Qed.

Lemma recorder_handlers_ok (c : option AudioId) (data : Blob) (s : State) :
  effects_ok s ->
  effects_ok (s |> recorder_ondataavailable data |> recorder_onstop c).
Proof.
  intros H.
  assert (H0 : effects_ok (recorder_ondataavailable data s))
    by (unfold recorder_ondataavailable; destruct (0 <? _)%nat; exact H).
  revert H0. generalize (recorder_ondataavailable data s). intros t H0.
  unfold recorder_onstop. cbv zeta.
  destruct (0 <? _)%nat eqn:E; [|eff H0].
  apply sendAudioToBackend_ok; [exact E|reflexivity|eff H0].
Qed.

Lemma sendAudioToBackend_resume_ok (c : option AudioId)
    (r : JS.Outcome Response.InteractionResponse) (s : State) :
  effects_ok s -> effects_ok (sendAudioToBackend_resume c r s).
Proof.
  intros H. unfold sendAudioToBackend_resume.
  destruct r as [m| |data]; try eff H.
  cbv zeta.
  match goal with
  | |- context [match Response.audioResponse data with
                | Some a => @?f a | None => JS.Normal ?t end] =>
      assert (Ht : effects_ok t)
        by (destruct (Response.learningProgress data); eff H);
      generalize dependent t
  end.
  intros t Ht.
  destruct (Response.audioResponse data) as [au|]; [|exact Ht].
  destruct (Response.success data && JS.truthy (Some au)); [|exact Ht].
  pose proof (playAIAudio_ok c au (Response.aiResponse data) t Ht) as H1.
  destruct (playAIAudio c au (Response.aiResponse data) t);
    cbn [JS.state_of] in H1; eff H1.
Qed.

Lemma startRecording_ok (c : option AudioId) (s : State) :
  effects_ok s -> effects_ok (JS.state_of (startRecording c s)).
Proof.
  intros H. unfold startRecording.
  destruct (mediaStreamRef _); [destruct (recorder_is_recording s)|];
    eff H.
Qed.

Lemma recorder_stop_ok (s : State) :
  effects_ok s -> effects_ok (recorder_stop s).
Proof.
  intros H. unfold recorder_stop.
  destruct (mediaRecorderRef (refs s)); eff H.
Qed.

Lemma stopRecording_ok (s : State) :
  effects_ok s -> effects_ok (stopRecording s).
Proof.
  intros H. unfold stopRecording.
  destruct (recorder_is_recording s); [|exact H].
  apply (effects_ok_same
           (recorder_stop (console_log "[VAD] Stopping recording" s)));
    [reflexivity|].
  apply recorder_stop_ok. eff H.
Qed.

Lemma detectVoice_ok (l : LoopId) (rms : Q) (now : Z) (s : State) :
  effects_ok s -> effects_ok (JS.state_of (detectVoice l rms now s)).
Proof.
  intros H. unfold detectVoice.
  destruct (_ !! l) as [lp|]; [|exact H].
  destruct (negb _); [eff H|]. cbv zeta.
  match goal with
  | |- context [if negb ?b then console_log ?m ?t else ?t] =>
      assert (H1 : effects_ok (if negb b then console_log m t else t))
        by (destruct (negb b); eff H);
      generalize dependent (if negb b then console_log m t else t)
  end.
  intros s1 H1.
  assert (Hfin : forall t, effects_ok t ->
            effects_ok (t |> set_scheduled l true |> set_rafRef (Some l))).
  { intros t Ht. exact Ht. }
  destruct (Qgtb _ _).
  - rewrite speech_detected_normal. cbn [JS.andThen JS.state_of].
    apply Hfin.
    unfold speech_detected. cbv zeta.
    destruct (negb _); [|exact H1].
    destruct (speechStartTimeRef _); [|exact H1].
    destruct (_ >? _); [|exact H1].
    rewrite stopAIAudio_normal. cbn [JS.andThen].
    apply startRecording_ok, stopAIAudio_ok. eff H1.
  - destruct (Qltb _ _); cbn [JS.andThen JS.state_of]; apply Hfin.
    + unfold silence_detected. cbv zeta.
      destruct (_ && _); [|exact H1].
      apply stopRecording_ok. eff H1.
    + exact H1.
Qed.

Lemma cleanupAudio_ok (s : State) :
  effects_ok s -> effects_ok (cleanupAudio s).
Proof.
  intros H. unfold cleanupAudio. cbv zeta.
  match goal with
  | |- context [if recorder_is_recording ?t then recorder_stop ?t else ?t] =>
      assert (H1 : effects_ok
                     (if recorder_is_recording t then recorder_stop t
                      else t));
      [ assert (H0 : effects_ok t)
          by (cbn; destruct (rafRef (refs s)); eff H);
        destruct (recorder_is_recording t); [|exact H0];
        apply recorder_stop_ok; exact H0
      | generalize dependent
          (if recorder_is_recording t then recorder_stop t else t) ]
  end.
  intros s1 H1.
  destruct (mediaStreamRef (refs s1)); cbn;
    destruct (audioContextRef (refs s1)); eff H1.
Qed.

Lemma endConversation_ok (s : State) :
  effects_ok s -> effects_ok (endConversation s).
Proof.
  intros H. unfold endConversation.
  destruct (JS.truthy_value _); [|exact H]. cbv zeta.
  apply emit_await_ok; [reflexivity|].
  apply stopAIAudio_ok, cleanupAudio_ok. eff H.
Qed.

Lemma initializeAudio_resume_ok (c : option AudioId) (r : MediaOutcome)
    (rms : Q) (now : Z) (s : State) :
  effects_ok s -> effects_ok (initializeAudio_resume c r rms now s).
Proof.
  intros H. unfold initializeAudio_resume.
  destruct r as [m|[m|]]; try eff H.
  unfold startVADLoop.
  cbn [refs set_analyserRef with_refs analyserRef console_log emit
       with_browser].
  rewrite detectVoice_normal.
  match goal with
  | |- context [detectVoice ?l rms now ?t] =>
      assert (H1 : effects_ok (JS.state_of (detectVoice l rms now t)))
        by (apply detectVoice_ok; eff H);
      revert H1; generalize (JS.state_of (detectVoice l rms now t))
  end.
  intros s1 H1. eff H1.
Qed.

Lemma step_effects_ok (e : Event) (s : State) :
  effects_ok s -> effects_ok (step e s).
Proof.
  intros H. destruct e; cbn [step].
  - unfold startConversation, unlockAudio. cbn.
    destruct (audioUnlockedRef (refs s)); eff H.
  - now apply endConversation_ok.
  - destruct (_ !! k) as [[]|]; try exact H. destruct ok; eff H.
  - destruct (_ !! k) as [[]|]; try exact H. destruct r; eff H.
  - destruct (_ !! k) as [[]|]; try exact H.
    apply initializeAudio_resume_ok. exact H.
  - destruct (_ !! l) as [lp|]; [|exact H].
    destruct (scheduled lp); [|exact H].
    apply detectVoice_ok. exact H.
  - destruct (the_recorders s !! r) as [m|]; [|exact H].
    destruct (stopQueued m); [|exact H].
    apply recorder_handlers_ok. exact H.
  - destruct (_ !! k) as [[]|]; try exact H.
    apply sendAudioToBackend_resume_ok. exact H.
  - destruct (_ !! k) as [[]|]; try exact H. destruct r; eff H.
  - destruct (_ !! a) as [el|]; [|exact H].
    destruct (_ && _); exact H.
  - destruct (_ !! a) as [el|]; [|exact H].
    destruct (playPending el); [|exact H]. eff H.
  - destruct (_ !! a) as [el|]; [|exact H].
    destruct (_ && _); exact H.
  - destruct (_ !! a) as [el|]; [|exact H].
    destruct (_ && _); [|exact H].
    destruct (onended el); [|exact H].
    unfold audio_onended. cbn.
    destruct (JS.truthy_value (sessionIdRef (refs s))); eff H.
Qed.

(** X15. Every interact request a run issues carries a session id that is
    not empty and a clip that is not empty, of type [audio/webm]. *)
Theorem interact_requests_well_formed (es : list Event) (sid : string)
    (clip : Blob) :
  In (FetchInteract sid clip) (the_effects (run es initial)) ->
  sid <> "" /\ blobBytes clip <> [] /\ blobType clip = "audio/webm".
Proof.
  assert (H : forall s, effects_ok s -> effects_ok (run es s)).
  { induction es as [|e es IH]; intros s Hs; [exact Hs|].
    cbn [run fold_left]. apply IH. now apply step_effects_ok. }
  specialize (H initial eq_refl). unfold effects_ok in H.
  rewrite forallb_forall in H. intros Hin. specialize (H _ Hin).
  cbn in H. apply andb_true_iff in H as [H H3].
  apply andb_true_iff in H as [H1 H2].
  split; [|split].
  - intros ->. discriminate.
  - intros E. unfold blobSize in H2. rewrite E in H2. discriminate.
  - now apply String.eqb_eq.
Qed.

Lemma interact_requests_well_formed_witness :
  "s1" <> "" /\ blobBytes webm_clip <> [] /\ blobType webm_clip = "audio/webm".
Proof.
  apply (interact_requests_well_formed first_request_sent "s1" webm_clip).
  vm_compute. repeat (first [left; reflexivity | right]).
Defined.

End WellFormedRequests.

(* ===================================================================== *)
(** ** The byte arrays of [base64ToBlob] *)
(* ===================================================================== *)

Section Base64Chunks.

Lemma div_512_step (x : nat) :
  (0 < x)%nat -> ((x + 511) / 512 = S ((x - 512 + 511) / 512))%nat.
Proof.
  intros Hx. destruct (le_lt_dec 512 x) as [Hge|Hlt].
  - replace (x + 511)%nat with ((x - 512 + 511) + 1 * 512)%nat by lia.
    rewrite Nat.div_add by lia. lia.
  - replace (x - 512)%nat with 0%nat by lia.
    rewrite (Nat.div_small (0 + 511) 512) by lia.
    symmetry. apply (Nat.div_unique _ _ _ (x - 1)%nat); lia.
Qed.

Lemma base64ToBlob_loop_chunks (fuel : nat) :
  forall (cs : JS.CodeUnits) (offset : nat) (acc : list (list Z)),
    (length cs - offset <= fuel)%nat ->
    exists rest,
      base64ToBlob_loop fuel cs offset acc = Some (acc ++ rest)
      /\ length rest = ((length cs - offset + 511) / 512)%nat
      /\ forall i a, rest !! i = Some a ->
           a = map JS.ToUint8
                 (JS.slice cs (offset + 512 * i) (offset + 512 * i + 512))
           /\ (offset + 512 * i < length cs)%nat.
Proof.
  induction fuel as [|fuel IH]; intros cs offset acc Hfuel.
  - exists []. cbn [base64ToBlob_loop].
    destruct (Nat.ltb_spec offset (length cs)) as [Hlt|Hge]; [lia|].
    rewrite app_nil_r. split; [reflexivity|]. split.
    + replace (length cs - offset)%nat with 0%nat by lia. reflexivity.
    + intros i a H. destruct i; discriminate.
  - cbn [base64ToBlob_loop].
    destruct (Nat.ltb_spec offset (length cs)) as [Hlt|Hge].
    + destruct (IH cs (offset + 512)%nat
                   (acc ++ [map JS.ToUint8
                              (JS.slice cs offset (offset + 512))]))
        as (rest & Hrun & Hlen & Hidx); [lia|].
      exists (map JS.ToUint8 (JS.slice cs offset (offset + 512)) :: rest).
      split; [|split].
      * rewrite Hrun, <- app_assoc. reflexivity.
      * cbn [length]. rewrite Hlen.
        rewrite (div_512_step (length cs - offset)) by lia.
        do 3 f_equal. lia.
      * intros [|i] a Ha.
        -- injection Ha as <-.
           replace (offset + 512 * 0)%nat with offset by lia. auto.
        -- cbn in Ha. destruct (Hidx i a Ha) as [-> Hi].
           replace (offset + 512 * S i)%nat
             with (offset + 512 + 512 * i)%nat by lia.
           auto.
    + exists []. rewrite app_nil_r. split; [reflexivity|]. split.
      * replace (length cs - offset)%nat with 0%nat by lia. reflexivity.
      * intros i a H. destruct i; discriminate.
Qed.

(** X16. The byte arrays [base64ToBlob] builds: one for every 512
    characters or part of them, each holding the characters of its slice;
    none is empty and all but the last hold 512 bytes. *)
Theorem base64ToBlob_byteArrays (byteCharacters : JS.CodeUnits) :
  exists byteArrays,
    base64ToBlob_loop (length byteCharacters) byteCharacters 0 []
    = Some byteArrays
    /\ length byteArrays = ((length byteCharacters + 511) / 512)%nat
    /\ forall i a, byteArrays !! i = Some a ->
         a = map JS.ToUint8
               (JS.slice byteCharacters (512 * i) (512 * i + 512))
         /\ length a = Nat.min 512 (length byteCharacters - 512 * i)
         /\ (0 < length a)%nat.
Proof.
  destruct (base64ToBlob_loop_chunks (length byteCharacters)
              byteCharacters 0 []) as (rest & Hrun & Hlen & Hidx); [lia|].
  exists rest. split; [exact Hrun|]. split.
  - rewrite Hlen. do 2 f_equal. lia.
  - intros i a Ha. destruct (Hidx i a Ha) as [-> Hi]. cbn [Nat.add] in *.
    split; [reflexivity|].
    assert (Hl : length (map JS.ToUint8
                   (JS.slice byteCharacters (512 * i) (512 * i + 512)))
                 = Nat.min 512 (length byteCharacters - 512 * i)).
    { rewrite length_map. unfold JS.slice.
      rewrite length_firstn, length_skipn. lia. }
    rewrite Hl. split; [reflexivity|lia].
Qed.

(** X17. [base64ToBlob] fails exactly when [atob] rejects its input; its
    loop always runs to the end. *)
Theorem base64ToBlob_fails_iff (base64 mimeType : string) :
  base64ToBlob base64 mimeType = None <-> Base64.atob base64 = None.
Proof.
  unfold base64ToBlob.
  destruct (Base64.atob base64) as [cs|]; [|tauto].
  destruct (base64ToBlob_loop_all cs) as (arrays & -> & _).
  split; discriminate.
Qed.

End Base64Chunks.

(* ===================================================================== *)
(** ** Speaker colours *)
(* ===================================================================== *)

Section SpeakerColor.

Lemma ToInt32_range (x : Z) : - 2 ^ 31 <= JS32.ToInt32 x < 2 ^ 31.
Proof.
  unfold JS32.ToInt32.
  pose proof (Z.mod_pos_bound (x + 2 ^ 31) (2 ^ 32) ltac:(lia)). lia.
Qed.

Lemma ToInt32_shift (x k : Z) :
  JS32.ToInt32 (x + k * 2 ^ 32) = JS32.ToInt32 x.
Proof.
  unfold JS32.ToInt32.
  replace (x + k * 2 ^ 32 + 2 ^ 31) with (x + 2 ^ 31 + k * 2 ^ 32) by lia.
  now rewrite Z_mod_plus_full.
Qed.

Lemma ToInt32_eqm (x : Z) : exists k, JS32.ToInt32 x = x + k * 2 ^ 32.
Proof.
  exists (- ((x + 2 ^ 31) / 2 ^ 32)). unfold JS32.ToInt32.
  pose proof (Z.div_mod (x + 2 ^ 31) (2 ^ 32) ltac:(lia)). lia.
Qed.

Lemma ToInt32_small (x : Z) :
  - 2 ^ 31 <= x < 2 ^ 31 -> JS32.ToInt32 x = x.
Proof.
  intros H. unfold JS32.ToInt32. rewrite Z.mod_small; lia.
Qed.

Lemma getSpeakerColor_step_spec (h c : Z) :
  getSpeakerColor_step (JS32.ToInt32 h) c = JS32.ToInt32 (31 * h + c).
Proof.
  unfold getSpeakerColor_step, JS32.bitand, JS32.shl.
  change (JS32.ToInt32 4294967295) with (-1).
  rewrite Z.land_m1_r, Z.shiftl_mul_pow2 by lia.
  destruct (ToInt32_eqm h) as (k1 & E1).
  rewrite (ToInt32_small (JS32.ToInt32 h)) by apply ToInt32_range.
  destruct (ToInt32_eqm (JS32.ToInt32 h * 2 ^ 5)) as (k2 & E2).
  rewrite E2, E1.
  replace ((h + k1 * 2 ^ 32) * 2 ^ 5 + k2 * 2 ^ 32 - (h + k1 * 2 ^ 32) + c)
    with (31 * h + c + (31 * k1 + k2) * 2 ^ 32) by lia.
  apply ToInt32_shift.
Qed.

Lemma getSpeakerColor_fold (speaker : JS.CodeUnits) (h : Z) :
  fold_left getSpeakerColor_step speaker (JS32.ToInt32 h)
  = JS32.ToInt32 (fold_left (fun h c => 31 * h + c) speaker h).
Proof.
  revert h. induction speaker as [|c l IH]; intros h; [reflexivity|].
  cbn [fold_left]. rewrite getSpeakerColor_step_spec. apply IH.
Qed.

(** X18. The hash of [getSpeakerColor] is the polynomial hash in base 31
    of the code units (the first unit weighs most), wrapped to a signed
    32-bit integer. *)
Theorem getSpeakerColor_hash_poly31 (speaker : JS.CodeUnits) :
  getSpeakerColor_hash speaker = JS32.ToInt32 (poly31 speaker)
  /\ - 2 ^ 31 <= getSpeakerColor_hash speaker < 2 ^ 31.
Proof.
  assert (H : getSpeakerColor_hash speaker = JS32.ToInt32 (poly31 speaker))
    by apply (getSpeakerColor_fold speaker 0).
  split; [exact H|]. rewrite H. apply ToInt32_range.
Qed.

(** X19. [getSpeakerColor] never gives [undefined]: whatever the name,
    also when its hash is the least 32-bit integer, the index falls
    inside the palette. *)
Theorem getSpeakerColor_defined (speaker : JS.CodeUnits) :
  exists color, getSpeakerColor speaker = Some color /\ In color colors.
Proof.
  unfold getSpeakerColor, JS32.rem. cbv zeta.
  pose proof (Z.rem_bound_pos (Z.abs (getSpeakerColor_hash speaker))
                (Z.of_nat (length colors)) (Z.abs_nonneg _)
                ltac:(cbn; lia)) as Hb.
  destruct (Z.ltb_spec
              (Z.rem (Z.abs (getSpeakerColor_hash speaker))
                     (Z.of_nat (length colors))) 0) as [Hlt|_]; [lia|].
  destruct (lookup_lt_is_Some_2 colors
              (Z.to_nat (Z.rem (Z.abs (getSpeakerColor_hash speaker))
                               (Z.of_nat (length colors)))))
    as (color & Hc); [lia|].
  exists color. split; [exact Hc|].
  apply list_elem_of_In. eapply list_elem_of_lookup_2. exact Hc.
Qed.

Example getSpeakerColor_Alice :
  getSpeakerColor [65; 108; 105; 99; 101] = Some "#ec4899".
Proof. vm_compute. reflexivity. Qed.

End SpeakerColor.

(* ===================================================================== *)
(** ** Time labels *)
(* ===================================================================== *)

Section TimeLabels.
Import Timestamp.

Lemma digit_not_white_space (c : Z) :
  is_digit c = true -> is_white_space c = false.
Proof.
  unfold is_digit, is_white_space. intros H.
  apply andb_true_iff in H as [H1 H2].
  apply Z.leb_le in H1, H2. cbn [existsb].
  repeat match goal with
         | |- context [c =? ?k] =>
             destruct (Z.eqb_spec c k) as [E|_]; [lia|]
         end.
  destruct (Z.leb_spec 8192 c); [lia|]. reflexivity.
Qed.

Lemma split_none (sep : Z) (a : JS.CodeUnits) :
  forallb (fun c => negb (c =? sep)) a = true -> split sep a = [a].
Proof.
  induction a as [|c a IH]; intros H; [reflexivity|].
  cbn in H. apply andb_true_iff in H as [Hc Ha].
  cbn [split]. apply negb_true_iff in Hc. rewrite Hc, (IH Ha). reflexivity.
Qed.

Lemma split_app (sep : Z) (a b : JS.CodeUnits) :
  forallb (fun c => negb (c =? sep)) a = true ->
  split sep (a ++ sep :: b) = a :: split sep b.
Proof.
  induction a as [|c a IH]; intros H.
  - cbn. now rewrite Z.eqb_refl.
  - cbn in H. apply andb_true_iff in H as [Hc Ha].
    cbn [split app]. apply negb_true_iff in Hc.
    rewrite Hc, (IH Ha). reflexivity.
Qed.

Lemma forallb_impl {A} (P Q : A -> bool) (l : list A) :
  (forall x, P x = true -> Q x = true) ->
  forallb P l = true -> forallb Q l = true.
Proof.
  intros HPQ. rewrite !forallb_forall. auto.
Qed.

Lemma digit_facts (c : Z) :
  is_digit c = true ->
  negb (c =? 58) = true /\ negb (c =? 46) = true
  /\ negb ((c =? 91) || (c =? 93) || (c =? 34)) = true.
Proof.
  unfold is_digit. intros H. apply andb_true_iff in H as [H1 H2].
  apply Z.leb_le in H1, H2.
  repeat match goal with
         | |- context [c =? ?k] =>
             destruct (Z.eqb_spec c k) as [E|_]; [lia|]
         end.
  auto.
Qed.

Lemma filter_all {A} (P : A -> bool) (l : list A) :
  forallb P l = true -> List.filter P l = l.
Proof.
  induction l as [|x l IH]; intros H; [reflexivity|].
  cbn in H. apply andb_true_iff in H as [Hx Hl].
  cbn. rewrite Hx, (IH Hl). reflexivity.
Qed.

Lemma trim_id (c c' : Z) (m : JS.CodeUnits) :
  is_white_space c = false -> is_white_space c' = false ->
  trim (c :: m ++ [c']) = c :: m ++ [c'].
Proof.
  intros H H'. unfold trim. cbn [trimStart]. rewrite H.
  change (c :: m ++ [c']) with ((c :: m) ++ [c']).
  rewrite rev_app_distr. cbn [rev app trimStart]. rewrite H'.
  change (c' :: rev m ++ [c]) with ([c'] ++ rev (c :: m)).
  rewrite rev_app_distr, rev_involutive. reflexivity.
Qed.

Lemma Number_of_digits_snoc (a : JS.CodeUnits) (d : Z) :
  Number_of_digits (a ++ [d]) = 10 * Number_of_digits a + (d - 48).
Proof. unfold Number_of_digits. rewrite fold_left_app. reflexivity. Qed.

Lemma Number_of_digits_zeros (k : nat) (a : JS.CodeUnits) :
  Number_of_digits (repeat 48 k ++ a) = Number_of_digits a.
Proof.
  unfold Number_of_digits. rewrite fold_left_app. f_equal.
  induction k as [|k IH]; [reflexivity|].
  cbn [repeat fold_left]. exact IH.
Qed.

Lemma toString_fuel_spec (fuel : nat) :
  forall n, 0 <= n < 10 ^ Z.of_nat (S fuel) ->
    forallb is_digit (toString_fuel (S fuel) n) = true
    /\ Number_of_digits (toString_fuel (S fuel) n) = n
    /\ (n < 10 -> length (toString_fuel (S fuel) n) = 1%nat)
    /\ (10 <= n < 100 -> length (toString_fuel (S fuel) n) = 2%nat)
    /\ (100 <= n -> (3 <= length (toString_fuel (S fuel) n))%nat).
Proof.
  assert (Hone : forall f n, 0 <= n < 10 ->
            forallb is_digit (toString_fuel (S f) n) = true
            /\ Number_of_digits (toString_fuel (S f) n) = n
            /\ (n < 10 -> length (toString_fuel (S f) n) = 1%nat)
            /\ (10 <= n < 100 -> length (toString_fuel (S f) n) = 2%nat)
            /\ (100 <= n -> (3 <= length (toString_fuel (S f) n))%nat)).
  { intros f n Hn. cbn [toString_fuel].
    destruct (Z.ltb_spec n 10) as [_|Hge]; [|lia].
    repeat split; try lia.
    - cbn. unfold is_digit.
      destruct (Z.leb_spec 48 (48 + n)), (Z.leb_spec (48 + n) 57);
        try lia; reflexivity.
    - cbn. lia. }
  induction fuel as [|fuel IH]; intros n Hn.
  - apply Hone. cbn in Hn. lia.
  - destruct (Z.ltb_spec n 10) as [Hlt|Hge]; [apply Hone; lia|].
    change (toString_fuel (S (S fuel)) n)
      with (if n <? 10 then [48 + n]
            else toString_fuel (S fuel) (n / 10) ++ [48 + n mod 10]).
    destruct (Z.ltb_spec n 10) as [Hlt|_]; [lia|].
    assert (Hq : 0 <= n / 10 < 10 ^ Z.of_nat (S fuel)).
    { split; [apply Z.div_pos; lia|].
      apply Z.div_lt_upper_bound; [lia|].
      replace (Z.of_nat (S (S fuel))) with (Z.succ (Z.of_nat (S fuel)))
        in Hn by lia.
      rewrite Z.pow_succ_r in Hn by lia. lia. }
    destruct (IH (n / 10) Hq) as (Hd & Hv & H1 & H2 & H3).
    pose proof (Z.mod_pos_bound n 10 ltac:(lia)) as Hm.
    pose proof (Z.div_mod n 10 ltac:(lia)) as Hdm.
    generalize dependent (toString_fuel (S fuel) (n / 10)).
    intros ds Hd Hv H1 H2 H3.
    repeat split.
    + rewrite forallb_app, Hd. cbn. unfold is_digit.
      destruct (Z.leb_spec 48 (48 + n mod 10)),
               (Z.leb_spec (48 + n mod 10) 57); try lia; reflexivity.
    + rewrite Number_of_digits_snoc, Hv. lia.
    + lia.
    + intros Hr. rewrite length_app, H1; [reflexivity|].
      apply Z.div_lt_upper_bound; lia.
    + intros Hr. rewrite length_app. cbn [length].
      destruct (Z.ltb_spec (n / 10) 10) as [Hs|Hb]; [lia|].
      destruct (Z.ltb_spec (n / 10) 100) as [Hs2|Hb2].
      * rewrite H2 by lia. lia.
      * specialize (H3 Hb2). lia.
Qed.

Lemma toString_fuel_enough (n : Z) :
  0 <= n -> 0 <= n < 10 ^ Z.of_nat (S (Z.to_nat (Z.log2 n))).
Proof.
  intros Hn. split; [exact Hn|].
  replace (Z.of_nat (S (Z.to_nat (Z.log2 n)))) with (Z.succ (Z.log2 n))
    by (pose proof (Z.log2_nonneg n); lia).
  destruct (Z.eq_dec n 0) as [->|Hnz]; [cbn; lia|].
  destruct (Z.log2_spec n ltac:(lia)) as [_ Hlt].
  eapply Z.lt_le_trans; [exact Hlt|].
  apply Z.pow_le_mono_l. pose proof (Z.log2_nonneg n). lia.
Qed.

Lemma toString_spec (n : Z) :
  0 <= n ->
  forallb is_digit (toString n) = true
  /\ Number_of_digits (toString n) = n
  /\ (n < 10 -> length (toString n) = 1%nat)
  /\ (10 <= n < 100 -> length (toString n) = 2%nat)
  /\ (100 <= n -> (3 <= length (toString n))%nat).
Proof.
  intros Hn. apply toString_fuel_spec, toString_fuel_enough, Hn.
Qed.

Lemma padStart2_spec (n : Z) :
  0 <= n < 100 ->
  forallb is_digit (padStart2 (toString n)) = true
  /\ Number_of_digits (padStart2 (toString n)) = n
  /\ length (padStart2 (toString n)) = 2%nat.
Proof.
  intros Hn. destruct (toString_spec n ltac:(lia)) as (Hd & Hv & H1 & H2 & _).
  unfold padStart2.
  rewrite Number_of_digits_zeros, forallb_app, Hd, length_app,
    repeat_length.
  destruct (Z.ltb_spec n 10) as [Hs|Hb].
  - rewrite H1 by lia. cbn. auto.
  - rewrite H2 by lia. cbn. auto.
Qed.

(** The label of a number: minutes, a colon, two digits of seconds. *)
Lemma formatTime_number_parts (q : Q) :
  let n := Z.max 0 (Qfloor q) in
  let label := formatTime_number q in
  trim (strip_brackets label) = label
  /\ split 58 label = [toString (n / 60); padStart2 (toString (n mod 60))]
  /\ is_decimal label = false
  /\ forallb is_digit (toString (n / 60)) = true
  /\ Number_of_digits (toString (n / 60)) = n / 60
  /\ (length (toString (n / 60)) <=? 2)%nat = (n <? 6000)
  /\ (1 <=? length (toString (n / 60)))%nat = true
  /\ digits_between 2 2 (padStart2 (toString (n mod 60))) = true
  /\ Number_of_digits (padStart2 (toString (n mod 60))) = n mod 60.
Proof.
  intros n label. subst label. unfold formatTime_number. cbv zeta.
  fold n.
  assert (Hn : 0 <= n) by (unfold n; lia).
  assert (Hm : 0 <= n / 60) by (apply Z.div_pos; lia).
  pose proof (Z.mod_pos_bound n 60 ltac:(lia)) as Hs.
  destruct (toString_spec (n / 60) Hm) as (Hd & Hv & H1 & H2 & H3).
  destruct (padStart2_spec (n mod 60) ltac:(lia)) as (Pd & Pv & Pl).
  generalize dependent (toString (n / 60)). intros mm Hd Hv H1 H2 H3.
  generalize dependent (padStart2 (toString (n mod 60))).
  intros ss Pd Pv Pl.
  assert (Hlen : (1 <= length mm)%nat).
  { destruct (Z.ltb_spec (n / 60) 10); [rewrite H1 by lia; lia|].
    destruct (Z.ltb_spec (n / 60) 100); [rewrite H2 by lia; lia|].
    specialize (H3 ltac:(lia)). lia. }
  assert (Hall : forallb (fun c => is_digit c || (c =? 58))
                   (mm ++ [58] ++ ss) = true).
  { rewrite !forallb_app. cbn.
    rewrite (forallb_impl is_digit _ mm), (forallb_impl is_digit _ ss);
      auto; intros x Hx; now rewrite Hx. }
  split; [|split; [|split; [|split; [|split; [|split; [|split; [|split]]]]]]].
  - unfold strip_brackets. rewrite (filter_all _ (mm ++ [58] ++ ss)).
    + destruct mm as [|c mm]; [cbn in Hlen; lia|].
      destruct (exists_last (l := ss)) as (ss' & c' & ->);
        [intros ->; discriminate|].
      cbn in Hd. apply andb_true_iff in Hd as [Hc _].
      rewrite forallb_app in Pd. apply andb_true_iff in Pd as [_ Hc'].
      cbn in Hc'. apply andb_true_iff in Hc' as [Hc' _].
      replace ((c :: mm) ++ [58] ++ ss' ++ [c'])
        with (c :: (mm ++ [58] ++ ss') ++ [c'])
        by (cbn; rewrite <- !app_assoc; reflexivity).
      apply trim_id; now apply digit_not_white_space.
    + eapply forallb_impl; [|exact Hall].
      intros x Hx. apply orb_true_iff in Hx as [Hx|Hx].
      * now apply digit_facts.
      * apply Z.eqb_eq in Hx. subst x. reflexivity.
  - change (mm ++ [58] ++ ss) with (mm ++ 58 :: ss).
    rewrite split_app, split_none; [reflexivity| |].
    + eapply forallb_impl; [|exact Pd]. intros x Hx. now apply digit_facts.
    + eapply forallb_impl; [|exact Hd]. intros x Hx. now apply digit_facts.
  - unfold is_decimal. rewrite split_none.
    + rewrite !forallb_app. cbn. rewrite andb_false_r. reflexivity.
    + eapply forallb_impl; [|exact Hall].
      intros x Hx. apply orb_true_iff in Hx as [Hx|Hx].
      * now apply digit_facts.
      * apply Z.eqb_eq in Hx. subst x. reflexivity.
  - exact Hd.
  - exact Hv.
  - destruct (Z.ltb_spec n 6000) as [Hlt|Hge].
    + assert (n / 60 < 100) by (apply Z.div_lt_upper_bound; lia).
      apply Nat.leb_le.
      destruct (Z.ltb_spec (n / 60) 10); [rewrite H1 by lia; lia|].
      rewrite H2 by lia. lia.
    + assert (100 <= n / 60) by (apply Z.div_le_lower_bound; lia).
      apply Nat.leb_gt. specialize (H3 ltac:(lia)). lia.
  - now apply Nat.leb_le.
  - unfold digits_between. rewrite Pd, Pl. reflexivity.
  - exact Pv.
Qed.

Variable parseFloat : JS.CodeUnits -> Number.

(** X20. A number below 2^53 rendered by [formatTime] and read back by
    [toSeconds]: below 100 minutes the whole seconds come back; from 100
    minutes on the label has three digits of minutes, none of the
    patterns of [toSeconds] accepts it, and the result is [null]. *)
Theorem toSeconds_formatTime (q : Q) :
  in_exact_range q ->
  let n := Z.max 0 (Qfloor q) in
  exists label,
    formatTime parseFloat (Num (Finite q)) = Some label
    /\ toSeconds parseFloat (Str label)
       = if n <? 6000 then Some (Finite (inject_Z n)) else None.
Proof.
  intros _ n. exists (formatTime_number q). split; [reflexivity|].
  destruct (formatTime_number_parts q)
    as (Htrim & Hsplit & Hdec & Hd & Hv & Hlen & Hlen1 & Pd & Pv).
  fold n in Hsplit, Hd, Hv, Hlen, Hlen1, Pd, Pv.
  unfold toSeconds. cbv zeta. rewrite Htrim.
  unfold is_hh_mm_ss, is_mm_ss, mm_ss_total. rewrite Hsplit, Hdec.
  unfold digits_between at 1. rewrite Hd, Hlen1, Hlen, Pd. cbn [andb map nth].
  rewrite Hv, Pv.
  destruct (n <? 6000); [|reflexivity].
  do 3 f_equal. pose proof (Z.div_mod n 60 ltac:(lia)). lia.
Qed.

(** X21. [formatTime] leaves its own labels alone: the label of a number
    below 2^53, handed back as a string, comes out unchanged, also when
    it has three digits of minutes or more. *)
Theorem formatTime_idempotent (q : Q) :
  in_exact_range q ->
  exists label,
    formatTime parseFloat (Num (Finite q)) = Some label
    /\ formatTime parseFloat (Str label) = Some label.
Proof.
  intros _. exists (formatTime_number q). split; [reflexivity|].
  destruct (formatTime_number_parts q)
    as (Htrim & Hsplit & Hdec & _).
  unfold formatTime. cbv zeta. rewrite Htrim.
  unfold is_hh_mm_ss, is_mm_ss. rewrite Hsplit, Hdec.
  destruct (_ && _); reflexivity.
Qed.

End TimeLabels.

Section TimeLabelExamples.
Import Timestamp.

Lemma toSeconds_formatTime_witness :
  exists label,
    formatTime (fun _ => NaN) (Num (Finite (125 # 2))) = Some label
    /\ toSeconds (fun _ => NaN) (Str label)
       = Some (Finite (inject_Z 62)).
Proof.
  apply (toSeconds_formatTime (fun _ => NaN) (125 # 2)). reflexivity.
Defined.

Lemma formatTime_idempotent_witness :
  exists label,
    formatTime (fun _ => NaN) (Num (Finite (6000 # 1))) = Some label
    /\ formatTime (fun _ => NaN) (Str label) = Some label.
Proof.
  apply (formatTime_idempotent (fun _ => NaN) (6000 # 1)). reflexivity.
Defined.

(** 62.5 seconds, a label with hours, and the first label that cannot be
    read back. *)
Example formatTime_62_5 :
  formatTime (fun _ => NaN) (Num (Finite (125 # 2))) = Some (units "1:02").
Proof. vm_compute. reflexivity. Qed.

Example formatTime_hours :
  formatTime (fun _ => NaN) (Str (units "[1:02:03]"))
  = Some (units "62:03").
Proof. vm_compute. reflexivity. Qed.

Example toSeconds_100_minutes :
  toSeconds (fun _ => NaN) (Str (units "100:00")) = None.
Proof. vm_compute. reflexivity. Qed.

End TimeLabelExamples.

(* ===================================================================== *)
(** ** What is held, and an End that fails *)
(* ===================================================================== *)

Section HeldObjects.

Lemma filter_nil_or_singleton (P : nat -> bool) (l : list nat) :
  List.NoDup l ->
  (forall x y, In x l -> In y l -> P x = true -> P y = true -> x = y) ->
  List.filter P l = [] \/ exists x, List.filter P l = [x] /\ P x = true.
Proof.
  intros Hnd Hall.
  assert (Hsub : forall y, In y (List.filter P l) -> In y l /\ P y = true)
    by (intros y Hy; now apply filter_In in Hy).
  assert (Hnd' : List.NoDup (List.filter P l))
    by now apply List.NoDup_filter.
  destruct (List.filter P l) as [|y1 [|y2 r]]; [auto| |].
  - right. exists y1. split; [reflexivity|]. apply Hsub. now left.
  - exfalso. inversion Hnd' as [|? ? Hni _]; subst.
    apply Hni. left.
    destruct (Hsub y1 ltac:(cbn; auto)) as [I1 P1].
    destruct (Hsub y2 ltac:(cbn; auto)) as [I2 P2].
    symmetry. now apply Hall.
Qed.

(** X1. For every interleaving of events, no recorder is recording or
    exactly one is, and that one is the recorder [mediaRecorderRef]
    holds. *)
Theorem recording_is_the_held_recorder (es : list Event) :
  open_recorders (run es initial) = []
  \/ exists r, open_recorders (run es initial) = [r]
               /\ mediaRecorderRef (refs (run es initial)) = Some r.
Proof.
  assert (Hinv : recorder_inv (run es initial)).
  { apply run_recorder_inv. intros r m H. destruct r; discriminate. }
  unfold open_recorders.
  set (P := fun r => match the_recorders (run es initial) !! r with
                     | Some m => match rstate m with
                                 | recording => true
                                 | inactive => false
                                 end
                     | None => false
                     end).
  assert (HP : forall r, P r = true ->
                         mediaRecorderRef (refs (run es initial)) = Some r).
  { intros r Hr. unfold P in Hr.
    destruct (_ !! r) as [m|] eqn:Hm; [|discriminate].
    destruct (rstate m) eqn:Hst; [discriminate|].
    exact (Hinv r m Hm Hst). }
  destruct (filter_nil_or_singleton P
              (seq 0 (length (the_recorders (run es initial)))))
    as [H|(r & H & Hr)]; [apply seq_NoDup| |auto|].
  - intros x y _ _ Hx Hy. apply HP in Hx, Hy. congruence.
  - right. exists r. split; [exact H|]. now apply HP.
Qed.

(** X2. For every interleaving in which no [play()] promise is rejected,
    no element is live or exactly one is, and that one is the element
    [currentAudioRef] holds. *)
Theorem playback_is_the_held_element (es : list Event) :
  forallb (fun e => negb (is_play_rejection e)) es = true ->
  live_audios (run es initial) = []
  \/ exists a, live_audios (run es initial) = [a]
               /\ currentAudioRef (refs (run es initial)) = Some a.
Proof.
  intros Hes.
  assert (Hinv : playback_inv (run es initial)).
  { apply run_playback_inv; [exact Hes|].
    intros a el H. destruct a; discriminate. }
  unfold live_audios.
  set (P := fun a => match the_audios (run es initial) !! a with
                     | Some el => live el
                     | None => false
                     end).
  assert (HP : forall a, P a = true ->
                         currentAudioRef (refs (run es initial)) = Some a).
  { intros a Ha. unfold P in Ha.
    destruct (_ !! a) as [el|] eqn:Hel; [|discriminate].
    unfold live in Ha. apply negb_true_iff in Ha.
    destruct (Hinv a el Hel) as [_ Href]. exact (Href Ha). }
  destruct (filter_nil_or_singleton P
              (seq 0 (length (the_audios (run es initial)))))
    as [H|(a & H & Ha)]; [apply seq_NoDup| |auto|].
  - intros x y _ _ Hx Hy. apply HP in Hx, Hy. congruence.
  - right. exists a. split; [exact H|]. now apply HP.
Qed.

Lemma playback_is_the_held_element_witness :
  let es := first_request_sent
            ++ [ Interact_settled 3 (reply "Hello" "SGVsbG8=");
                 Audio_playing 0 ] in
  live_audios (run es initial) = []
  \/ exists a, live_audios (run es initial) = [a]
               /\ currentAudioRef (refs (run es initial)) = Some a.
Proof.
  apply (playback_is_the_held_element
           (first_request_sent
            ++ [ Interact_settled 3 (reply "Hello" "SGVsbG8=");
                 Audio_playing 0 ])).
  reflexivity.
Defined.







End HeldObjects.

(* ===================================================================== *)
(** ** Loose ends of the session *)
(* ===================================================================== *)

Section LooseEnds.

Lemma truthy_value_None (x : option string) :
  JS.truthy x = false -> JS.truthy_value x = None.
Proof. unfold JS.truthy_value. now intros ->. Qed.

Lemma step_active_without_id (e : Event) (s : State) :
  is_start_settled e = false ->
  active_without_id s -> active_without_id (step e s).
Proof.
  intros He [Hid Hact]. pose proof (step_modifies e s) as H.
  unfold active_without_id.
  destruct e; try discriminate He;
    try (kept H c_sessionIdRef; kept H c_sessionActiveRef;
         rewrite K, K0; auto).
  - (* Click_end *)
    cbn [step]. unfold endConversation.
    rewrite (truthy_value_None _ Hid). auto.
  - (* Complete_settled *)
    kept H c_sessionActiveRef. rewrite K. split; [|exact Hact].
    cbn [step]. destruct (_ !! k) as [[]|]; try exact Hid.
    destruct r; [exact Hid|reflexivity|reflexivity].
Qed.

(** X23. A start answer that carries no session id starts a session that
    cannot be ended: the session is marked active, and whatever follows,
    short of another start answer, End does nothing at all. *)
Theorem session_without_id_cannot_end (s : State) (k : TaskId)
    (cap : option AudioId) (id : option string) (es : list Event) :
  the_tasks s !! k = Some (AwaitStartFetch cap) ->
  JS.truthy id = false ->
  forallb (fun e => negb (is_start_settled e)) es = true ->
  let s' := run es (step (Start_settled k (JS.Ok id)) s) in
  sessionActiveRef (refs s') = true
  /\ step Click_end s' = s'.
Proof.
  intros Hk Hid Hes.
  assert (H0 : active_without_id (step (Start_settled k (JS.Ok id)) s)).
  { cbn [step]. rewrite Hk. split; [exact Hid|reflexivity]. }
  revert H0 Hes. generalize (step (Start_settled k (JS.Ok id)) s).
  intros s0 H0 Hes. cbv zeta.
  assert (H : active_without_id (run es s0)).
  { revert s0 H0. induction es as [|e es IH]; intros s0 H0; [exact H0|].
    cbn in Hes. apply andb_true_iff in Hes as [He Hes].
    cbn [run fold_left]. apply IH; [exact Hes|].
    apply step_active_without_id; [|exact H0].
    now destruct (is_start_settled e). }
  destruct H as [H1 H2]. split; [exact H2|].
  cbn [step]. unfold endConversation.
  now rewrite (truthy_value_None _ H1).
Qed.

Lemma session_without_id_cannot_end_witness :
  let s' := run [UserMedia_settled 2 (MediaGranted None) 0 0;
                 AnimationFrame 0 (2 # 100) 1000; Click_end]
                (step (Start_settled 1 (JS.Ok None))
                      (step Click_start initial)) in
  sessionActiveRef (refs s') = true
  /\ step Click_end s' = s'.
Proof.
  apply (session_without_id_cannot_end (step Click_start initial) 1 None
           None
           [UserMedia_settled 2 (MediaGranted None) 0 0;
            AnimationFrame 0 (2 # 100) 1000; Click_end]);
    reflexivity.
Defined.

(** X24. A microphone granted after the session was ended is taken all
    the same: the stream is stored with its tracks live and the audio
    graph is built, while the session stays inactive, the loop started
    for the stream is left without a pending frame, and no recorder is
    touched. *)
Theorem late_microphone_grant_is_kept (s : State) (k : TaskId)
    (cap : option AudioId) (rms : Q) (now : Z) :
  the_tasks s !! k = Some (AwaitUserMedia cap) ->
  sessionActiveRef (refs s) = false ->
  let s' := step (UserMedia_settled k (MediaGranted None) rms now) s in
  let stream := length (the_streams s) in
  mediaStreamRef (refs s') = Some stream
  /\ the_streams s' !! stream = Some (mkStream true)
  /\ audioContextRef (refs s') = Some stream
  /\ the_loops s' !! length (the_loops s)
     = Some (mkLoop 0 now false cap)
  /\ rafRef (refs s') = rafRef (refs s)
  /\ sessionActiveRef (refs s') = false
  /\ the_recorders s' = the_recorders s.
Proof.
  intros Hk Hact. cbn [step]. rewrite Hk. cbv zeta.
  unfold initializeAudio_resume, startVADLoop.
  cbn [refs set_analyserRef with_refs analyserRef console_log emit
       with_browser].
  unfold detectVoice.
  cbn [browser loops with_loops with_browser console_log emit
       set_analyserRef set_audioContextRef set_mediaStreamRef with_refs
       with_streams settle with_tasks].
  rewrite list_lookup_middle by reflexivity.
  cbn [refs sessionActiveRef with_refs set_analyserRef set_audioContextRef
       set_mediaStreamRef with_loops with_browser console_log emit
       with_streams settle with_tasks].
  rewrite Hact. cbn [negb JS.state_of].
  cbn. rewrite !list_lookup_middle by reflexivity. auto 10.
Qed.

Lemma late_microphone_grant_is_kept_witness :
  let s := run [Click_start; Start_settled 1 (JS.Ok (Some "s1")); Click_end]
               initial in
  let s' := step (UserMedia_settled 2 (MediaGranted None) 0 0) s in
  let stream := length (the_streams s) in
  mediaStreamRef (refs s') = Some stream
  /\ the_streams s' !! stream = Some (mkStream true)
  /\ audioContextRef (refs s') = Some stream
  /\ the_loops s' !! length (the_loops s)
     = Some (mkLoop 0 0 false None)
  /\ rafRef (refs s') = rafRef (refs s)
  /\ sessionActiveRef (refs s') = false
  /\ the_recorders s' = the_recorders s.
Proof.
  apply (late_microphone_grant_is_kept
           (run [Click_start; Start_settled 1 (JS.Ok (Some "s1")); Click_end]
                initial) 2 None 0 0);
    reflexivity.
Defined.

End LooseEnds.

(* ===================================================================== *)
(** ** The flags the page shows *)
(* ===================================================================== *)

Section Flags.

Lemma flagged_frame (W : list Cell) (s s' : State) :
  modifies W s s' -> ~ In c_recorders W -> ~ In c_isUserSpeaking W ->
  recording_flagged s -> recording_flagged s'.
Proof.
  intros H H1 H2 Hf r m.
  pose proof (H _ H1) as K1. pose proof (H _ H2) as K2.
  cbn in K1, K2. rewrite K1, K2. apply Hf.
Qed.

Lemma no_recording_flagged (s : State) :
  no_recording s -> recording_flagged s.
Proof. intros H r m Hm Hr. rewrite (H r m Hm) in Hr. discriminate. Qed.

Lemma startRecording_flagged (c : option AudioId) (s : State) :
  recording_flagged s -> recording_flagged (JS.state_of (startRecording c s)).
Proof.
  intros Hf. unfold startRecording.
  destruct (mediaStreamRef (refs s)) as [stream|]; [|exact Hf].
  destruct (recorder_is_recording s); [exact Hf|].
  intros r m _ _. reflexivity.
Qed.

Lemma detectVoice_flagged (l : LoopId) (rms : Q) (now : Z) (s : State) :
  recorder_inv s -> recording_flagged s ->
  recording_flagged (JS.state_of (detectVoice l rms now s)).
Proof.
  intros Hinv Hf. unfold detectVoice.
  destruct (_ !! l) as [lp|]; [|exact Hf].
  destruct (negb _); [exact Hf|]. cbv zeta.
  match goal with
  | |- context [if negb ?b then console_log ?m ?t else ?t] =>
      assert (H1 : recording_flagged (if negb b then console_log m t else t)
                   /\ recorder_inv (if negb b then console_log m t else t))
        by (destruct (negb b); auto);
      generalize dependent (if negb b then console_log m t else t)
  end.
  intros s1 (Hf1 & Hinv1).
  assert (Hfin : forall t, recording_flagged t ->
            recording_flagged
              (t |> set_scheduled l true |> set_rafRef (Some l))).
  { intros t H. exact H. }
  destruct (Qgtb _ _).
  - rewrite speech_detected_normal. cbn [JS.andThen JS.state_of].
    apply Hfin.
    unfold speech_detected. cbv zeta.
    destruct (negb _); [|exact Hf1].
    destruct (speechStartTimeRef _); [|exact Hf1].
    destruct (_ >? _); [|exact Hf1].
    rewrite stopAIAudio_normal. cbn [JS.andThen].
    apply startRecording_flagged.
    eapply flagged_frame;
      [apply stopAIAudio_modifies | cbn; intuition discriminate ..|].
    exact Hf1.
  - destruct (Qltb _ _); cbn [JS.andThen JS.state_of]; apply Hfin.
    + unfold silence_detected. cbv zeta.
      destruct (_ && _); [|exact Hf1].
      apply no_recording_flagged, stopRecording_none.
      apply (rec_view_inv s1); [reflexivity|exact Hinv1].
    + exact Hf1.
Qed.

Lemma emit_await_flagged (e : Effect) (t : Task) (s : State) :
  recording_flagged s -> recording_flagged (s |> emit e |> await t).
Proof. intros H. exact H. Qed.

Lemma endConversation_flagged (s : State) :
  recorder_inv s -> recording_flagged s ->
  recording_flagged (endConversation s).
Proof.
  intros Hinv Hf. unfold endConversation.
  destruct (JS.truthy_value _); [|exact Hf]. cbv zeta.
  apply emit_await_flagged, no_recording_flagged.
  eapply no_recording_frame;
    [apply stopAIAudio_modifies | cbn; intuition discriminate |].
  apply cleanupAudio_none.
  apply (rec_view_inv s); [reflexivity | exact Hinv].
Qed.

Lemma initializeAudio_resume_flagged (c : option AudioId) (r : MediaOutcome)
    (rms : Q) (now : Z) (s : State) :
  recorder_inv s -> recording_flagged s ->
  recording_flagged (initializeAudio_resume c r rms now s).
Proof.
  intros Hinv Hf. unfold initializeAudio_resume.
  destruct r as [m|[m|]]; try exact Hf.
  unfold startVADLoop.
  cbn [refs set_analyserRef with_refs analyserRef console_log emit
       with_browser].
  rewrite detectVoice_normal.
  match goal with
  | |- context [detectVoice ?l rms now ?t] =>
      assert (H : recording_flagged
                    (JS.state_of (detectVoice l rms now t)))
        by (apply detectVoice_flagged;
            [apply (rec_view_inv s); [reflexivity|exact Hinv] | exact Hf]);
      revert H; generalize (JS.state_of (detectVoice l rms now t))
  end.
  intros s1 H1. exact H1.
Qed.

Lemma step_flagged (e : Event) (s : State) :
  recorder_inv s -> recording_flagged s -> recording_flagged (step e s).
Proof.
  intros Hinv Hf.
  destruct e;
    try (eapply flagged_frame;
         [apply step_modifies | cbn; intuition discriminate .. | exact Hf]);
    cbn [step].
  - apply endConversation_flagged; assumption.
  - destruct (_ !! k) as [[]|]; try exact Hf.
    apply initializeAudio_resume_flagged; [|exact Hf].
    apply (rec_view_inv s); [reflexivity|exact Hinv].
  - destruct (_ !! l) as [lp|]; [|exact Hf].
    destruct (scheduled lp); [|exact Hf].
    apply detectVoice_flagged; [|exact Hf].
    apply (rec_view_inv s); [reflexivity|exact Hinv].
  - destruct (the_recorders s !! r) as [m|] eqn:Hm; [|exact Hf].
    destruct (stopQueued m); [|exact Hf].
    eapply flagged_frame;
      [apply recorder_handlers_modifies | cbn; intuition discriminate ..|].
    intros r' m'. cbn. rewrite list_lookup_alter.
    case_decide; [subst|apply Hf].
    rewrite Hm. cbn. intros [= <-]. cbn. intros Hr. exact (Hf _ _ Hm Hr).
Qed.

Lemma run_flagged (es : list Event) (s : State) :
  recorder_inv s -> recording_flagged s -> recording_flagged (run es s).
Proof.
  revert s. induction es as [|e es IH]; intros s H1 H2; [exact H2|].
  cbn. apply IH; [now apply step_recorder_inv | now apply step_flagged].
Qed.

Lemma endConversation_isUserSpeaking (s : State) :
  isUserSpeaking (hooks (endConversation s)) = isUserSpeaking (hooks s).
Proof.
  pose proof (endConversation_modifies s) as H.
  kept H c_isUserSpeaking. exact K.
Qed.

(** X26. In every reachable state, while a recorder records the page says
    that the user speaks.  The converse fails at End: it stops the
    recorder and leaves the flag as it was. *)
Theorem user_speaking_flag (es : list Event) (sid : string) :
  let s := run es initial in
  (open_recorders s <> [] -> isUserSpeaking (hooks s) = true)
  /\ (JS.truthy_value (sessionIdRef (refs s)) = Some sid ->
      open_recorders (step Click_end s) = []
      /\ isUserSpeaking (hooks (step Click_end s))
         = isUserSpeaking (hooks s)).
Proof.
  cbv zeta.
  assert (Hinv : recorder_inv (run es initial))
    by (apply run_recorder_inv, initial_recorder_inv).
  assert (Hf : recording_flagged (run es initial)).
  { apply run_flagged; [apply initial_recorder_inv|].
    intros r m H. destruct r; discriminate. }
  revert Hinv Hf. generalize (run es initial). intros s Hinv Hf.
  split.
  - intros Hopen.
    destruct (open_recorders s) as [|r l] eqn:E; [congruence|].
    assert (Hin : In r (open_recorders s)) by (rewrite E; now left).
    unfold open_recorders in Hin. apply filter_In in Hin as [_ Hr].
    destruct (the_recorders s !! r) as [m|] eqn:Hm; [|discriminate].
    destruct (rstate m) eqn:Hst; [discriminate|].
    exact (Hf r m Hm Hst).
  - intros Hsid. cbn [step].
    destruct (endConversation_released s sid Hinv Hsid) as (Hrel & _).
    split; [apply Hrel|apply endConversation_isUserSpeaking].
Qed.

Lemma user_speaking_flag_witness :
  let s := run (session_started
                ++ [ AnimationFrame 0 (2 # 100) 1000;
                     AnimationFrame 0 (2 # 100) 1101 ]) initial in
  isUserSpeaking (hooks s) = true
  /\ open_recorders (step Click_end s) = []
  /\ isUserSpeaking (hooks (step Click_end s)) = isUserSpeaking (hooks s).
Proof.
  destruct (user_speaking_flag
              (session_started
               ++ [ AnimationFrame 0 (2 # 100) 1000;
                    AnimationFrame 0 (2 # 100) 1101 ]) "s1") as [H1 H2].
  split; [apply H1; discriminate | apply H2; reflexivity].
Defined.

Lemma run_speaking_playback (es : list Event) :
  forallb (fun e => negb (is_play_rejection e)) es = true ->
  isSpeaking (hooks (run es initial)) = false ->
  forall a el, the_audios (run es initial) !! a = Some el ->
               paused el = true.
Proof.
  intros Hes Hsp a el Hel.
  assert (Hinv : playback_inv (run es initial)).
  { apply run_playback_inv; [exact Hes|].
    intros a' el' H. destruct a'; discriminate. }
  pose proof (run_speaking_inv es initial eq_refl) as Hs.
  unfold speaking_inv, has_handle in Hs. rewrite Hsp in Hs.
  destruct (Hinv a el Hel) as [_ Href].
  destruct (paused el); [reflexivity|].
  rewrite (Href eq_refl) in Hs. discriminate.
Qed.

(** X25. As long as no [play()] promise is rejected, the [isSpeaking] flag
    is up whenever an element is live: when the flag is down, every
    element is paused. *)
Theorem quiet_when_not_speaking (es : list Event) :
  forallb (fun e => negb (is_play_rejection e)) es = true ->
  isSpeaking (hooks (run es initial)) = false ->
  live_audios (run es initial) = [] /\ all_paused (run es initial).
Proof.
  intros Hes Hsp.
  pose proof (run_speaking_playback es Hes Hsp) as H.
  split; [|exact H].
  unfold live_audios.
  induction (seq 0 (length (the_audios (run es initial)))) as [|x l IH];
    [reflexivity|].
  cbn. destruct (the_audios (run es initial) !! x) as [el|] eqn:Hel;
    [|exact IH].
  unfold live. rewrite (H x el Hel). exact IH.
Qed.

Lemma quiet_when_not_speaking_witness :
  live_audios (run (first_request_sent
                    ++ [Interact_settled 3 (reply "Hello" "SGVsbG8=");
                        Audio_playing 0; Audio_ended 0]) initial) = []
  /\ all_paused (run (first_request_sent
                      ++ [Interact_settled 3 (reply "Hello" "SGVsbG8=");
                          Audio_playing 0; Audio_ended 0]) initial).
Proof.
  apply (quiet_when_not_speaking
           (first_request_sent
            ++ [Interact_settled 3 (reply "Hello" "SGVsbG8=");
                Audio_playing 0; Audio_ended 0]));
    reflexivity.
Defined.

End Flags.

(* ===================================================================== *)
(** ** Unlocking the audio *)
(* ===================================================================== *)

Section Unlock.

Lemma step_unlocked (e : Event) (s : State) :
  audioUnlockedRef (refs s) = true ->
  audioUnlockedRef (refs (step e s)) = true.
Proof.
  intros Hu. pose proof (step_modifies e s) as H.
  destruct e; try (kept H c_audioUnlockedRef; congruence).
  (* Unlock_settled *)
  cbn [step]. destruct (_ !! k) as [[]|]; try exact Hu.
  destruct ok; [reflexivity|exact Hu].
Qed.

(** X27. Once a silent play has unlocked the audio it stays unlocked,
    whatever events follow, and a later Start does not play the silent
    clip again: it only logs and issues the start request. *)
Theorem unlocked_for_good (es : list Event) (s : State) :
  audioUnlockedRef (refs s) = true ->
  let s' := run es s in
  audioUnlockedRef (refs s') = true
  /\ the_effects (step Click_start s')
     = the_effects s'
       ++ [ConsoleLog "[Session] Starting conversation";
           FetchStart (persona (hooks s'))]
  /\ the_tasks (step Click_start s')
     = the_tasks s' ++ [AwaitStartFetch (currentAudio (session (hooks s')))].
Proof.
  intros Hu. cbv zeta.
  assert (H : audioUnlockedRef (refs (run es s)) = true).
  { revert s Hu. induction es as [|e es IH]; intros s Hu; [exact Hu|].
    cbn [run fold_left]. apply IH, step_unlocked, Hu. }
  split; [exact H|].
  revert H. generalize (run es s). intros s' H.
  cbn [step]. unfold startConversation, unlockAudio.
  cbn [refs setError with_hooks console_log emit with_browser
       audioUnlockedRef].
  rewrite H. cbn. rewrite <- app_assoc. auto.
Qed.

Lemma unlocked_for_good_witness :
  let s := run [Click_start; Unlock_settled 0 true] initial in
  let s' := run (Start_settled 1 (JS.Ok (Some "s1")) :: utterance 1000) s in
  audioUnlockedRef (refs s') = true
  /\ the_effects (step Click_start s')
     = the_effects s'
       ++ [ConsoleLog "[Session] Starting conversation";
           FetchStart (persona (hooks s'))]
  /\ the_tasks (step Click_start s')
     = the_tasks s' ++ [AwaitStartFetch (currentAudio (session (hooks s')))].
Proof.
  apply (unlocked_for_good
           (Start_settled 1 (JS.Ok (Some "s1")) :: utterance 1000)
           (run [Click_start; Unlock_settled 0 true] initial)).
  reflexivity.
Defined.

End Unlock.
